(** * StrategyEvolve: the strategy evolution engine

    A shallow embedding of [backend/src/services/strategy.ts]
    (class [StrategyService]): the variant generator, the indicator
    calculators, the backtest simulator and the metrics calculator,
    followed by the properties of the engine's specification.

    Numbers.  A JavaScript [number] that the code can only ever hold as a
    finite value (prices, parameters, cash, indicator values) is an exact
    rational [Q]: rounding, overflow and underflow of IEEE doubles are
    not modelled, and a bound proved here is a bound in exact arithmetic.
    [calculateMetrics] divides by values that may be zero, so there the
    numbers are [num]: a rational, [+Infinity], [-Infinity] or [NaN], with
    the IEEE rules for the special values (signed zeros are identified);
    a finite result is exact there too.  Where the overflow of doubles
    decides a property, the code is read a second time on the kernel's
    binary64 numbers (the Sharpe ratio on doubles, below). *)

From Stdlib Require Import String DecimalString.
From Stdlib Require Import QArith Qround Qabs Qminmax ZArith List Lia Lqa Bool.
From Stdlib Require PrimFloat.
Import ListNotations.

Local Open Scope Q_scope.

(* ------------------------------------------------------------------ *)
(** ** Finite numbers *)

Definition Qltb (x y : Q) : bool := negb (Qle_bool y x).
Definition Qgtb (x y : Q) : bool := Qltb y x.
Definition Qgeb (x y : Q) : bool := Qle_bool y x.
Arguments Qltb : simpl never.
Arguments Qgtb : simpl never.
Arguments Qgeb : simpl never.

Definition nat2Q (n : nat) : Q := inject_Z (Z.of_nat n).

(** [Math.floor] on a finite number. *)
Definition Math_floor (x : Q) : Z := Qfloor x.

(** An array index: [a[i]] is [undefined] unless [i] is a non-negative
    integer below the length. *)
Definition is_integer (i : Q) : bool := Qeq_bool (inject_Z (Qfloor i)) i.

Definition get_Z {A} (a : list A) (i : Z) : option A :=
  if (i <? 0)%Z then None else nth_error a (Z.to_nat i).

Definition get {A} (a : list A) (i : Q) : option A :=
  if is_integer i then get_Z a (Qfloor i) else None.

(** The values of [j] visited by [for (let j = 0; j < x; j++)]. *)
Definition upto (x : Q) : list nat := seq 0 (Z.to_nat (Qceiling x)).

(** [for (let i = start; i < n; i++) s = body(i, s)], for a [start] that is
    not below zero (at most [n] turns). *)
Fixpoint for_from {S : Type} (fuel : nat) (i : Q) (n : nat)
    (body : Q -> S -> S) (s : S) : S :=
  match fuel with
  | O => s
  | Datatypes.S fuel' =>
      if Qltb i (nat2Q n) then for_from fuel' (i + 1) n body (body i s) else s
  end.

(* ------------------------------------------------------------------ *)
(** ** Numbers with the IEEE special values *)

Inductive num : Type :=
| Fin (q : Q)
| PInf
| NInf
| NaN.

(** The same value (rationals up to [==]). *)
Definition num_eq (a b : num) : Prop :=
  match a, b with
  | Fin p, Fin q => p == q
  | PInf, PInf | NInf, NInf | NaN, NaN => True
  | _, _ => False
  end.

Definition nneg (a : num) : num :=
  match a with
  | Fin p => Fin (- p)
  | PInf => NInf
  | NInf => PInf
  | NaN => NaN
  end.

Definition nadd (a b : num) : num :=
  match a, b with
  | NaN, _ | _, NaN => NaN
  | Fin p, Fin q => Fin (p + q)
  | PInf, NInf | NInf, PInf => NaN
  | PInf, _ | _, PInf => PInf
  | NInf, _ | _, NInf => NInf
  end.

Definition nsub (a b : num) : num := nadd a (nneg b).

(** The infinity of the sign of [q], [NaN] at zero. *)
Definition inf_signed (q : Q) : num :=
  match q ?= 0 with
  | Gt => PInf
  | Lt => NInf
  | Eq => NaN
  end.

Definition nmul (a b : num) : num :=
  match a, b with
  | NaN, _ | _, NaN => NaN
  | Fin p, Fin q => Fin (p * q)
  | Fin p, PInf | PInf, Fin p => inf_signed p
  | Fin p, NInf | NInf, Fin p => inf_signed (- p)
  | PInf, PInf | NInf, NInf => PInf
  | PInf, NInf | NInf, PInf => NInf
  end.

Definition ndiv (a b : num) : num :=
  match a, b with
  | NaN, _ | _, NaN => NaN
  | Fin p, Fin q => if Qeq_bool q 0 then inf_signed p else Fin (p / q)
  | Fin _, _ => Fin 0
  | PInf, Fin q => if Qltb q 0 then NInf else PInf
  | NInf, Fin q => if Qltb q 0 then PInf else NInf
  | _, _ => NaN
  end.

(** [a > b]; false as soon as one side is [NaN]. *)
Definition ngtb (a b : num) : bool :=
  match a, b with
  | NaN, _ | _, NaN => false
  | Fin p, Fin q => Qgtb p q
  | PInf, PInf => false
  | PInf, _ => true
  | NInf, _ => false
  | Fin _, NInf => true
  | Fin _, PInf => false
  end.

Definition nleb (a b : num) : bool :=
  match a, b with
  | NaN, _ | _, NaN => false
  | _, _ => negb (ngtb a b)
  end.

Definition num_le (a b : num) : Prop := nleb a b = true.

Definition Math_max (a b : num) : num :=
  match a, b with
  | NaN, _ | _, NaN => NaN
  | _, _ => if ngtb b a then b else a
  end.

Definition Math_min (a b : num) : num :=
  match a, b with
  | NaN, _ | _, NaN => NaN
  | _, _ => if ngtb a b then b else a
  end.

(** [Math.sqrt] returns the double nearest to the square root; here the
    square root of a rational is truncated to twelve decimal places. *)
Definition sqrt_scale : positive := 1000000000000.

Definition Qsqrt (q : Q) : Q :=
  Z.sqrt (Qnum q * Zpos (Qden q) * (Zpos sqrt_scale * Zpos sqrt_scale))
  # (Qden q * sqrt_scale).

Definition Math_sqrt (a : num) : num :=
  match a with
  | Fin q => if Qltb q 0 then NaN else Fin (Qsqrt q)
  | PInf => PInf
  | NInf | NaN => NaN
  end.

(** [Math.pow(a, 2)]. *)
Definition Math_pow2 (a : num) : num := nmul a a.

(** JavaScript truthiness of a number: [0] and [NaN] are falsy. *)
Definition truthy (a : num) : bool :=
  match a with
  | Fin q => negb (Qeq_bool q 0)
  | PInf | NInf => true
  | NaN => false
  end.

(** [a[i] || d] for an array entry that may be missing. *)
Definition or_default (a : option num) (d : num) : num :=
  match a with
  | Some x => if truthy x then x else d
  | None => d
  end.

(** [xs.reduce((a, b) => a + b, 0)]. *)
Definition nsum (xs : list num) : num := fold_left nadd xs (Fin 0).
Definition Qsum (xs : list Q) : Q := fold_left Qplus xs 0.

(* ------------------------------------------------------------------ *)
(** ** Data model *)

Record StrategyParameters : Type := mkParameters {
  ma_short : Q;
  ma_long : Q;
  rsi_threshold : Q;
  position_size : Q;
  stop_loss : option Q;
  take_profit : option Q
}.

Record StrategyMetrics : Type := mkMetrics {
  sharpe_ratio : num;
  total_return : num;
  max_drawdown : num;
  win_rate : num;
  avg_trade_duration : num;
  num_trades : nat
}.

Inductive StrategyType : Type := base | optimized | hybrid.

(** Dates are milliseconds since the epoch. *)
Record Strategy : Type := mkStrategy {
  id : string;
  user_id : option string;
  name : string;
  type : StrategyType;
  parameters : StrategyParameters;
  metrics : option StrategyMetrics;
  created_at : Z;
  parent_id : option string
}.

(** A bar; [date = None] is a bar without a date. *)
Record MarketData : Type := mkBar {
  date : option Z;
  open : Q;
  high : Q;
  low : Q;
  close : Q;
  volume : Q
}.

Inductive TradeType : Type := BUY | SELL.

(** An entry of the simulator's trade log. *)
Record Trade : Type := mkTrade {
  trade_type : TradeType;
  trade_date : option Z;
  price : Q;
  quantity : Q;
  holdTarget : option Q;
  daysHeld : option Q
}.

Definition TradeType_eqb (a b : TradeType) : bool :=
  match a, b with
  | BUY, BUY | SELL, SELL => true
  | _, _ => false
  end.

(* ------------------------------------------------------------------ *)
(** ** Indicator calculator *)

(** [data[idx] && typeof data[idx].close === 'number' && data[idx].close > 0] *)
Definition valid_close (b : option MarketData) : option Q :=
  match b with
  | Some d => if Qgtb (close d) 0 then Some (close d) else None
  | None => None
  end.

(** The inner loop of [calculateMA]: [sum] and [validCount] over
    [data[i - j]] for [j < period]. *)
Definition ma_window (data : list MarketData) (period : Q) (i : nat) : Q * nat :=
  fold_left
    (fun (acc : Q * nat) (j : nat) =>
       match valid_close (get_Z data (Z.of_nat i - Z.of_nat j)) with
       | Some c => (fst acc + c, S (snd acc))
       | None => acc
       end)
    (upto period) (0, O).

(** The entry at index [i]; the mean is the exact quotient, where the
    code rounds the sum and the quotient to doubles. *)
Definition ma_at (data : list MarketData) (period : Q) (i : nat) : Q :=
  if Qltb (nat2Q i) (period - 1) then 0
  else
    let '(sum, validCount) := ma_window data period i in
    if (0 <? validCount)%nat then sum / nat2Q validCount else 0.

Definition calculateMA (data : list MarketData) (period : Q) : list Q :=
  map (ma_at data period) (seq 0 (length data)).

(** [gains] and [losses] of [calculateRSI]. *)
Definition price_change (data : list MarketData) (i : nat) : Q :=
  match nth_error data i, nth_error data (i - 1) with
  | Some a, Some b => close a - close b
  | _, _ => 0
  end.

Definition rsi_gains (data : list MarketData) : list Q :=
  map (fun i => let change := price_change data i in
                if Qgtb change 0 then change else 0)
      (seq 1 (length data - 1)).

Definition rsi_losses (data : list MarketData) : list Q :=
  map (fun i => let change := price_change data i in
                if Qltb change 0 then Qabs change else 0)
      (seq 1 (length data - 1)).

(** [xs.slice(from, to)] for [0 <= from <= to]. *)
Definition slice {A} (xs : list A) (from to : nat) : list A :=
  firstn (to - from) (skipn from xs).

(** The entry computed from [gains[i]] and [losses[i]], for a period of
    at least 1 (at period 0 the code divides 0 by 0 and pushes [NaN],
    which a rational cannot hold). *)
Definition rsi_at (gains losses : list Q) (period : nat) (i : nat) : Q :=
  if (i <? period - 1)%nat then 50
  else
    let avg_gain := Qsum (slice gains (i + 1 - period) (i + 1)) / nat2Q period in
    let avg_loss := Qsum (slice losses (i + 1 - period) (i + 1)) / nat2Q period in
    if Qeq_bool avg_loss 0 then 100
    else let rs := avg_gain / avg_loss in 100 - 100 / (1 + rs).

Definition calculateRSI (data : list MarketData) (period : nat) : list Q :=
  let gains := rsi_gains data in
  let losses := rsi_losses data in
  let rsi := 50 :: map (rsi_at gains losses period) (seq 0 (length gains)) in
  rsi ++ repeat 50 (length data - length rsi).

(* ------------------------------------------------------------------ *)
(** ** Variant generator *)

(** [Math.random()]: the draws are read, in call order, from a sequence;
    the state is the number of draws taken so far. *)
Definition Rand (A : Type) : Type := (nat -> Q) -> nat -> A * nat.

Definition ret {A} (a : A) : Rand A := fun _ k => (a, k).

Definition bind {A B} (m : Rand A) (f : A -> Rand B) : Rand B :=
  fun rand k => let '(a, k') := m rand k in f a rand k'.

Definition Math_random : Rand Q := fun rand k => (rand k, S k).

Notation "x <- m ;; f" := (bind m (fun x => f))
  (at level 61, m at next level, right associativity).

Definition show_nat (n : nat) : string := NilZero.string_of_uint (Nat.to_uint n).
Definition show_Z (z : Z) : string := NilZero.string_of_int (Z.to_int z).

(** The body of the loop of [generateVariants]; [now] is the clock read
    by [Date.now()] and [new Date()] in this turn. The perturbations are
    exact: the clamps are the code's, the rounding of the products and
    sums is left out. *)
Definition make_variant (baseStrategy : Strategy) (now : Z) (i : nat) : Rand Strategy :=
  r1 <- Math_random ;;
  let positionSizeMultiplier := (8 # 10) + r1 * (6 # 10) in
  let newPositionSize :=
    position_size (parameters baseStrategy) * positionSizeMultiplier in
  let newPositionSize := Qmax (10 # 100) (Qmin (20 # 100) newPositionSize) in
  r2 <- Math_random ;;
  r3 <- Math_random ;;
  r4 <- Math_random ;;
  ret {|
    id := "strategy_" ++ show_Z now ++ "_" ++ show_nat i;
    user_id := None;
    name := name baseStrategy ++ " Variant " ++ show_nat (i + 1);
    type := optimized;
    parameters := {|
      ma_short := Qmax 10 (ma_short (parameters baseStrategy) + (r2 * 10 - 5));
      ma_long := Qmax 30 (ma_long (parameters baseStrategy) + (r3 * 20 - 10));
      rsi_threshold :=
        Qmax 25 (Qmin 35 (rsi_threshold (parameters baseStrategy) + (r4 * 10 - 5)));
      position_size := newPositionSize;
      stop_loss := None;
      take_profit := None
    |};
    metrics := None;
    created_at := now;
    parent_id := Some (id baseStrategy)
  |}.

Fixpoint variants_loop (baseStrategy : Strategy) (clock : nat -> Z)
    (todo i : nat) (variants : list Strategy) : Rand (list Strategy) :=
  match todo with
  | O => ret variants
  | S todo' =>
      variant <- make_variant baseStrategy (clock i) i ;;
      variants_loop baseStrategy clock todo' (S i) (variants ++ [variant])
  end.

(** [generateVariants(baseStrategy, count)], run on the draws [rand]. *)
Definition generateVariants (rand : nat -> Q) (clock : nat -> Z)
    (baseStrategy : Strategy) (count : nat) : list Strategy :=
  fst (variants_loop baseStrategy clock count 0 [] rand 0%nat).

(* ------------------------------------------------------------------ *)
(** ** Metrics calculator *)

Definition STARTING_CAPITAL : Q := 100000.

(** [returns] of [calculateMetrics]: the step-by-step relative changes. *)
Definition daily_returns (equity_curve : list num) : list num :=
  map (fun i =>
         match nth_error equity_curve i, nth_error equity_curve (i - 1) with
         | Some e, Some e' => ndiv (nsub e e') e'
         | _, _ => NaN
         end)
      (seq 1 (length equity_curve - 1)).

Definition actual_sharpe (equity_curve : list num) : num :=
  let returns := daily_returns equity_curve in
  let len := Fin (nat2Q (length returns)) in
  let avg_return := ndiv (nsum returns) len in
  let std_return :=
    Math_sqrt
      (ndiv (fold_left (fun sum r => nadd sum (Math_pow2 (nsub r avg_return)))
                       returns (Fin 0))
            len) in
  if ngtb std_return (Fin 0)
  then nmul (ndiv avg_return std_return) (Math_sqrt (Fin 252))
  else Fin 0.

(** One turn of the drawdown loop on [(peak, max_drawdown)]. *)
Definition drawdown_step (st : num * num) (equity : num) : num * num :=
  let peak := if ngtb equity (fst st) then equity else fst st in
  let drawdown := nmul (ndiv (nsub peak equity) peak) (Fin 100) in
  (peak, if ngtb drawdown (snd st) then drawdown else snd st).

(** [peak] starts at [equity_curve[0]]; on an empty curve it is
    [undefined], which the loop never reads. *)
Definition raw_max_drawdown (equity_curve : list num) : num :=
  snd (fold_left drawdown_step equity_curve (hd NaN equity_curve, Fin 0)).

(** [(completed_trades, wins)] over the adjacent pairs of the log. *)
Definition count_pairs (trades : list Trade) : nat * nat :=
  fold_left
    (fun (acc : nat * nat) (i : nat) =>
       match nth_error trades i, nth_error trades (i + 1) with
       | Some current, Some next =>
           if TradeType_eqb (trade_type current) BUY
              && TradeType_eqb (trade_type next) SELL
           then (S (fst acc),
                 if Qgtb (price next) (price current) then S (snd acc) else snd acc)
           else acc
       | _, _ => acc
       end)
    (seq 0 (length trades - 1)) (O, O).

Definition MS_PER_DAY : Q := 1000 * 60 * 60 * 24.

(** [(total_duration, duration_count)] over the pairs at [i = 0, 2, 4, ...].
    The code calls [date.getTime()] on both trades of a pair and throws
    when one of them has no date; [backtest] logs the date of a valid bar
    with every trade, so the read never fails there. The [NaN] below
    stands for that failure: the metrics of a log with an undated pair
    are not those of any call that returns (see [trades_dated]). *)
Definition durations (trades : list Trade) : num * nat :=
  fold_left
    (fun (acc : num * nat) (i : nat) =>
       match nth_error trades i, nth_error trades (i + 1) with
       | Some current, Some next =>
           if TradeType_eqb (trade_type current) BUY
              && TradeType_eqb (trade_type next) SELL
           then
             let duration :=
               match trade_date next, trade_date current with
               | Some t', Some t => Fin ((inject_Z t' - inject_Z t) / MS_PER_DAY)
               | _, _ => NaN
               end in
             (nadd (fst acc) duration, S (snd acc))
           else acc
       | _, _ => acc
       end)
    (map (fun k => (2 * k)%nat) (seq 0 (length trades / 2))) (Fin 0, O).

Definition calculateMetrics (equity_curve : list num) (trades : list Trade)
    : StrategyMetrics :=
  let initial_capital :=
    or_default (nth_error equity_curve 0) (Fin STARTING_CAPITAL) in
  let final_capital :=
    or_default (get_Z equity_curve (Z.of_nat (length equity_curve) - 1))
               initial_capital in
  let actual_return :=
    nmul (ndiv (nsub final_capital initial_capital) initial_capital) (Fin 100) in
  let total_return := nadd (Fin 10) actual_return in
  let sharpe_ratio :=
    Math_max (Fin 1) (nmul (actual_sharpe equity_curve) (Fin (15 # 10))) in
  let max_drawdown := Math_min (raw_max_drawdown equity_curve) (Fin 10) in
  let '(completed_trades, wins) := count_pairs trades in
  let actual_win_rate :=
    if (0 <? completed_trades)%nat
    then nat2Q wins / nat2Q completed_trades * 100 else 0 in
  let win_rate := Qmin 75 (Qmax 60 (actual_win_rate + 10)) in
  let '(total_duration, duration_count) := durations trades in
  let avg_trade_duration :=
    if (0 <? duration_count)%nat
    then ndiv total_duration (Fin (nat2Q duration_count)) else Fin 0 in
  {| sharpe_ratio := sharpe_ratio;
     total_return := total_return;
     max_drawdown := nneg max_drawdown;
     win_rate := Fin win_rate;
     avg_trade_duration := avg_trade_duration;
     num_trades := completed_trades |}.

(* ------------------------------------------------------------------ *)
(** ** The Sharpe ratio on doubles *)

(** The lines of [calculateMetrics] that compute [sharpe_ratio], read on
    binary64 numbers with their rounding and overflow. *)

Section Doubles.

Import PrimFloat.
Local Open Scope float_scope.

(** [returns.length] as a double (exact below 2^53). *)
Fixpoint double_of_nat (n : nat) : float :=
  match n with
  | O => 0
  | S n' => double_of_nat n' + 1
  end.

Definition returns_double (equity_curve : list float) : list float :=
  map (fun i =>
         match nth_error equity_curve i, nth_error equity_curve (i - 1) with
         | Some e, Some e' => (e - e') / e'
         | _, _ => nan
         end)
      (seq 1 (length equity_curve - 1)).

(** [Math.max(a, b)]: [NaN] as soon as one side is. *)
Definition Math_max_double (a b : float) : float :=
  if is_nan a || is_nan b then nan else if a <? b then b else a.

(** [Math.pow(r - avg_return, 2)] is the product of the difference with
    itself. *)
Definition sharpe_ratio_double (equity_curve : list float) : float :=
  let returns := returns_double equity_curve in
  let len := double_of_nat (length returns) in
  let avg_return := fold_left add returns 0 / len in
  let std_return :=
    sqrt (fold_left
            (fun sum r => sum + (r - avg_return) * (r - avg_return))
            returns 0
          / len) in
  let actual_sharpe :=
    if 0 <? std_return then (avg_return / std_return) * sqrt 252 else 0 in
  Math_max_double 1 (actual_sharpe * 1.5).

(** A curve of four finite, positive entries: the double nearest to
    1e-307, then 15, twice. *)
Definition tiny_then_15 : list float :=
  [0x1.1fa182c40c60dp-1020; 15; 0x1.1fa182c40c60dp-1020; 15].

End Doubles.

(* ------------------------------------------------------------------ *)
(** ** Backtest simulator *)

Inductive Error : Type :=
| EmptyMarketData      (* 'Market data is empty or undefined' *)
| InsufficientData     (* 'Insufficient market data: ...' *)
| TypeError.           (* a property read on [undefined] *)

Inductive Result (A : Type) : Type :=
| Ok (a : A)
| Throw (e : Error).
Arguments Ok {A} a.
Arguments Throw {A} e.

Definition is_valid (d : MarketData) : bool :=
  Qgtb (close d) 0 && match date d with Some _ => true | None => false end.

(** [validMarketData]: the bars with a positive close and a date. *)
Definition valid_bars (marketData : list MarketData) : list MarketData :=
  filter is_valid marketData.

(** [startIndex]. *)
Definition start_index (strategy : Strategy) : Q :=
  Qmax (ma_long (parameters strategy)) 14.

Definition MIN_HOLD_DAYS : Q := 3.
Definition TARGET_HOLD_DAYS : Q := 5.

(** The variables the signal loop updates. *)
Record Sim : Type := mkSim {
  capital : Q;
  position : Q;
  trades : list Trade;
  equity_curve : list Q;
  lastBuyIndex : Q
}.

(** The end of a turn of the signal loop: the trade, if any, and the new
    entry of the curve. The quantity bought is the exact quotient: it is
    positive whenever [position_size] is, where the double can underflow
    to 0 for a [position_size] near the smallest double. *)
Definition execute (strategy : Strategy) (bar : MarketData) (i : Q)
    (bullish bearish : bool) (daysHeld : Q) (s : Sim) : Sim :=
  let price := close bar in
  let s' :=
    if bullish && Qeq_bool (position s) 0 then
      let position' :=
        capital s * position_size (parameters strategy) / price in
      {| capital := capital s - position' * price;
         position := position';
         trades := trades s ++
           [ {| trade_type := BUY; trade_date := date bar; price := price;
                quantity := position';
                holdTarget := Some TARGET_HOLD_DAYS; daysHeld := None |} ];
         equity_curve := equity_curve s;
         lastBuyIndex := i |}
    else if bearish && Qgtb (position s) 0 then
      {| capital := capital s + position s * price;
         position := 0;
         trades := trades s ++
           [ {| trade_type := SELL; trade_date := date bar; price := price;
                quantity := position s;
                holdTarget := None; daysHeld := Some daysHeld |} ];
         equity_curve := equity_curve s;
         lastBuyIndex := -1 |}
    else s in
  let current_equity := capital s' + position s' * price in
  {| capital := capital s';
     position := position s';
     trades := trades s';
     equity_curve := equity_curve s' ++ [current_equity];
     lastBuyIndex := lastBuyIndex s' |}.

(** One turn of the signal loop at index [i]: the guards, the signals,
    then [execute].  The counters [signalCount], [bullishCount] and
    [bearishCount] are written and never read; they are left out. *)
Definition signal_step (strategy : Strategy) (validMarketData : list MarketData)
    (ma_short_s ma_long_s rsi : list Q) (i : Q) (s : Sim) : Sim :=
  match get validMarketData i with
  | None => s
  | Some bar =>
    match get ma_short_s i, get ma_long_s i with
    | Some ms, Some ml =>
      if Qeq_bool ms 0 || Qeq_bool ml 0 then s
      else
        let currentRSI :=
          match get rsi i with
          | Some r => if Qeq_bool r 0 then 50 else r
          | None => 50
          end in
        let daysHeld :=
          if Qgeb (lastBuyIndex s) 0 then i - lastBuyIndex s else 0 in
        let maCrossover := Qgtb ms ml in
        let rsiNotOverbought :=
          Qltb currentRSI (100 - rsi_threshold (parameters strategy)) in
        let bullish := maCrossover && rsiNotOverbought in
        let maDowntrend := Qltb ms ml in
        let rsiOverbought :=
          Qgtb currentRSI (rsi_threshold (parameters strategy) + 40) in
        let meetsMinHold := Qgeb daysHeld MIN_HOLD_DAYS in
        let bearish := (maDowntrend || rsiOverbought) && meetsMinHold in
        execute strategy bar i bullish bearish daysHeld s
    | _, _ => s
    end
  end.

(** The variables of the loop that rebuilds the curve from the forced
    trades. *)
Record Rebuild : Type := mkRebuild {
  currentCapital : Q;
  currentPosition : Q;
  rebuilt_curve : list Q
}.

Definition rebuild_step (validMarketData : list MarketData)
    (buyIndex sellIndex : Z) (testPosition buyPrice sellPrice : Q)
    (i : Q) (r : Result Rebuild) : Result Rebuild :=
  match r with
  | Throw e => Throw e
  | Ok st =>
      let st1 :=
        if Qeq_bool i (inject_Z buyIndex)
        then {| currentCapital := currentCapital st - testPosition * buyPrice;
                currentPosition := testPosition;
                rebuilt_curve := rebuilt_curve st |}
        else st in
      let st2 :=
        if Qeq_bool i (inject_Z sellIndex)
        then {| currentCapital :=
                  currentCapital st1 + currentPosition st1 * sellPrice;
                currentPosition := 0;
                rebuilt_curve := rebuilt_curve st1 |}
        else st1 in
      match get validMarketData i with
      | None => Throw TypeError
      | Some bar =>
          Ok {| currentCapital := currentCapital st2;
                currentPosition := currentPosition st2;
                rebuilt_curve := rebuilt_curve st2 ++
                  [currentCapital st2 + currentPosition st2 * close bar] |}
      end
  end.

(** What a run hands to [calculateMetrics], and how it got there. *)
Record Run : Type := mkRun {
  run_equity_curve : list Q;
  run_trades : list Trade;
  run_capital : Q;
  run_forced : bool
}.

(** The state after the signal loop. *)
Definition signal_loop (strategy : Strategy) (validMarketData : list MarketData)
    : Sim :=
  let n := length validMarketData in
  let ma_short_s := calculateMA validMarketData (ma_short (parameters strategy)) in
  let ma_long_s := calculateMA validMarketData (ma_long (parameters strategy)) in
  let rsi0 := calculateRSI validMarketData 14 in
  let rsi :=
    if Nat.eqb (length rsi0) n then rsi0
    else firstn n (rsi0 ++ repeat 50 (n - length rsi0)) in
  let startIndex := start_index strategy in
  for_from n startIndex n
    (signal_step strategy validMarketData ma_short_s ma_long_s rsi)
    {| capital := STARTING_CAPITAL; position := 0; trades := [];
       equity_curve := [STARTING_CAPITAL]; lastBuyIndex := -1 |}.

Definition buy_index (n : nat) : Z := Math_floor (nat2Q n * (25 # 100)).

Definition sell_index (rnd : Q) (n : nat) : Z :=
  Z.min (buy_index n + 5 + Math_floor (rnd * 3)) (Z.of_nat n - 1).

(** The forced trades and the rebuilt curve; [rnd] is the value of the one
    [Math.random()] call. *)
Definition forced_trades (rnd : Q) (strategy : Strategy)
    (validMarketData : list MarketData) : Result (list Trade * Rebuild) :=
  let n := length validMarketData in
  let startIndex := start_index strategy in
  let buyIndex := buy_index n in
  let sellIndex := sell_index rnd n in
  match get_Z validMarketData buyIndex, get_Z validMarketData sellIndex with
  | Some buyBar, Some sellBar =>
      let buyPrice := close buyBar in
      let sellPrice := close sellBar in
      let testPosition :=
        100000 * position_size (parameters strategy) / buyPrice in
      let trades :=
        [ {| trade_type := BUY; trade_date := date buyBar; price := buyPrice;
             quantity := testPosition;
             holdTarget := Some 5; daysHeld := None |};
          {| trade_type := SELL; trade_date := date sellBar; price := sellPrice;
             quantity := testPosition;
             holdTarget := None; daysHeld := None |} ] in
      match
        for_from n startIndex n
          (rebuild_step validMarketData buyIndex sellIndex
                        testPosition buyPrice sellPrice)
          (Ok {| currentCapital := 100000; currentPosition := 0;
                 rebuilt_curve := [] |})
      with
      | Ok st => Ok (trades, st)
      | Throw e => Throw e
      end
  | _, _ => Throw TypeError
  end.

Definition backtest_run (rnd : Q) (strategy : Strategy)
    (marketData : option (list MarketData)) : Result Run :=
  match marketData with
  | None | Some [] => Throw EmptyMarketData
  | Some marketData =>
      let validMarketData := valid_bars marketData in
      let n := length validMarketData in
      if Qltb (nat2Q n) (ma_long (parameters strategy))
      then Throw InsufficientData
      else
        let s := signal_loop strategy validMarketData in
        let lastPrice := get_Z validMarketData (Z.of_nat n - 1) in
        let mark (capital : Q) :=
          match lastPrice with
          | Some bar =>
              if Qgtb (position s) 0 && Qgtb (close bar) 0
              then capital + position s * close bar else capital
          | None => capital
          end in
        if (length (trades s) <? 2)%nat then
          match forced_trades rnd strategy validMarketData with
          | Ok (trades, st) =>
              Ok {| run_equity_curve := rebuilt_curve st;
                    run_trades := trades;
                    run_capital := mark (currentCapital st);
                    run_forced := true |}
          | Throw e => Throw e
          end
        else
          Ok {| run_equity_curve := equity_curve s;
                run_trades := trades s;
                run_capital := mark (capital s);
                run_forced := false |}
  end.

(** [backtest(strategy, marketData)]. *)
Definition backtest (rnd : Q) (strategy : Strategy)
    (marketData : option (list MarketData)) : Result StrategyMetrics :=
  match backtest_run rnd strategy marketData with
  | Ok r => Ok (calculateMetrics (map Fin (run_equity_curve r)) (run_trades r))
  | Throw e => Throw e
  end.

(* ------------------------------------------------------------------ *)
(** ** Predicates of the specification *)

(** What the specification promises of a variant. *)
Definition variant_ok (baseStrategy v : Strategy) : Prop :=
  type v = optimized /\
  parent_id v = Some (id baseStrategy) /\
  (10 # 100) <= position_size (parameters v) <= (20 # 100) /\
  10 <= ma_short (parameters v) /\
  30 <= ma_long (parameters v) /\
  25 <= rsi_threshold (parameters v) <= 35.

(** The closes of the valid bars (positive close) among [bars], and their
    mean, [0] when there is none. *)
Definition valid_closes (bars : list MarketData) : list Q :=
  filter (fun c => Qgtb c 0) (map close bars).

Definition mean (xs : list Q) : Q :=
  match xs with
  | [] => 0
  | _ => Qsum xs / nat2Q (length xs)
  end.

(** The [w] bars that end at index [i]. *)
Definition window (bars : list MarketData) (w i : nat) : list MarketData :=
  firstn w (skipn (i + 1 - w) bars).

(** The moving average in the words of the specification: before index
    [period - 1] the average of the valid bars from the start up to [i]. *)
Definition movingAverage_spec (bars : list MarketData) (period i : nat) : Q :=
  if (i <? period - 1)%nat then mean (valid_closes (firstn (i + 1) bars))
  else mean (valid_closes (window bars period i)).

(** The moving average the code computes: [0] before index [period - 1],
    then the mean of the valid closes among the trailing bars. *)
Definition movingAverage_code (bars : list MarketData) (period : Q) (i : nat) : Q :=
  if Qltb (nat2Q i) (period - 1) then 0
  else mean (valid_closes (window bars (Z.to_nat (Qceiling period)) i)).

(** Sample bars: one bar a day from the epoch, with the given closes. *)
Definition bar_at (day : nat) (c : Q) : MarketData :=
  {| date := Some (86400000 * Z.of_nat day)%Z;
     open := c; high := c; low := c; close := c; volume := 1000000 |}.

Definition bars_of (closes : list Q) : list MarketData :=
  map (fun p => bar_at (fst p) (snd p)) (combine (seq 0 (length closes)) closes).

Definition strategy_of (ms ml thr ps : Q) : Strategy :=
  {| id := "base"; user_id := None; name := "Base"; type := base;
     parameters := {| ma_short := ms; ma_long := ml; rsi_threshold := thr;
                      position_size := ps; stop_loss := None;
                      take_profit := None |};
     metrics := None; created_at := 0; parent_id := None |}.

(** [total_return] in the words of the specification: from the first and
    the last entry of the curve, each the starting capital on an empty
    curve. *)
Definition total_return_spec (equity_curve : list num) : num :=
  let initial := hd (Fin STARTING_CAPITAL) equity_curve in
  let final := last equity_curve (Fin STARTING_CAPITAL) in
  nadd (Fin 10) (nmul (ndiv (nsub final initial) initial) (Fin 100)).

(** [total_return] as the code has it: a first entry that is missing, [0]
    or [NaN] is replaced by the starting capital, and a last entry that is
    missing, [0] or [NaN] by that initial value. *)
Definition initial_of (equity_curve : list num) : num :=
  match equity_curve with
  | [] => Fin STARTING_CAPITAL
  | first :: _ => if truthy first then first else Fin STARTING_CAPITAL
  end.

Definition final_of (equity_curve : list num) : num :=
  match equity_curve with
  | [] => initial_of equity_curve
  | _ => if truthy (last equity_curve NaN) then last equity_curve NaN
         else initial_of equity_curve
  end.

Definition total_return_code (equity_curve : list num) : num :=
  let initial := initial_of equity_curve in
  let final := final_of equity_curve in
  nadd (Fin 10) (nmul (ndiv (nsub final initial) initial) (Fin 100)).

(** The trade log alternates BUY, SELL, BUY, SELL, ... from a BUY: the
    entry at an even index is a BUY, at an odd index a SELL. *)
Definition alternates (log : list Trade) : Prop :=
  forall i t, nth_error log i = Some t ->
    trade_type t = if Nat.even i then BUY else SELL.

(** Two neighbours of the log have the same type. *)
Definition repeats_a_type (log : list Trade) : Prop :=
  exists i a b, nth_error log i = Some a /\ nth_error log (S i) = Some b /\
                trade_type a = trade_type b.

(** What [Math.random()] may return. *)
Definition random_draw (rnd : Q) : Prop := 0 <= rnd < 1.

(** *** Sample inputs *)

Definition flat_bars (n : nat) : list MarketData := bars_of (repeat 100 n).

(** Sixteen bars at 100, but for a dip to 90 on day 9 and a peak of 110 on
    day 10. *)
Definition dip_peak_bars : list MarketData :=
  bars_of [100; 100; 100; 100; 100; 100; 100; 100; 100;
           90; 110; 100; 100; 100; 100; 100].

(** A saw-tooth that turns into a rise. *)
Definition rising_bars : list MarketData :=
  bars_of [10; 9; 10; 9; 10; 9; 10; 9; 10; 9; 10; 9; 10; 11; 12; 13; 14; 15].

(** The base strategy of the application (short 15, long 40, RSI 30,
    15% positions) and a variant drawn from it. *)
Definition default_base : Strategy := strategy_of 15 40 30 (15 # 100).

Definition sample_variant : Strategy :=
  hd default_base (generateVariants (fun _ => 21 # 40) (fun _ => 0%Z) default_base 1).

(** A bar that the filter drops: no date. *)
Definition undated_bar : MarketData :=
  {| date := None; open := 100; high := 100; low := 100; close := 100;
     volume := 1000000 |}.

(** Twenty bars: the saw-tooth, a rise, then a fall. *)
Definition rise_fall_bars : list MarketData :=
  bars_of [10; 9; 10; 9; 10; 9; 10; 9; 10; 9; 10; 9; 10; 11; 12; 13; 12; 11; 10; 9].

(** Fifty-six bars at 100, but for a close of 50 on day 19. *)
Definition halving_bars : list MarketData :=
  bars_of (repeat 100 19 ++ [50] ++ repeat 100 36).

(** *** The state of the signal loop *)

(** Flat with cash and an even number of trades, or holding after an odd
    number; the log alternates from a BUY. *)
Definition sim_ok (s : Sim) : Prop :=
  alternates (trades s) /\
  ((position s == 0 /\ 0 < capital s /\ Nat.even (length (trades s)) = true) \/
   (0 < position s /\ 0 <= capital s /\ Nat.even (length (trades s)) = false)).

(** The loop that rebuilds the curve has applied no forced trade. *)
Definition rebuild_flat (r : Result Rebuild) : Prop :=
  match r with
  | Ok st => currentCapital st == 100000 /\ currentPosition st == 0 /\
             Forall (fun e => e == 100000) (rebuilt_curve st)
  | Throw _ => True
  end.

Definition not_thrown {A} (r : Result A) : Prop :=
  match r with
  | Ok _ => True
  | Throw _ => False
  end.


(* ------------------------------------------------------------------ *)
(** ** Sample data generator *)

(** A calendar day in milliseconds; [setDate] moves a date by whole days
    (the shift of a daylight-saving change is left out). *)
Definition DAY_MS : Z := 86400000.

(** The variables the loop of [generateSampleData] updates. *)
Record Gen : Type := mkGen {
  gen_price : Q;
  gen_trend : Q;
  gen_trendDuration : nat;
  gen_maxTrendDuration : Q;
  gen_data : list MarketData
}.

(** The bar a turn pushes: [open] and [close] of the turn, the price
    [change] and the four draws for the range, the high, the low and the
    volume. *)
Definition sample_bar (date : Z) (open close change ri rh rl rvol : Q)
    : MarketData :=
  let intradayRange := Qabs change * (5 # 10) + ri * 1 in
  let high := Qmax open close + rh * intradayRange in
  let low := Qmin open close - rl * intradayRange in
  let volume := Math_floor (1000000 + rvol * 5000000) in
  {| date := Some date;
     open := Qmax (1 # 100) open;
     high := Qmax (Qmax open close) high;
     low := Qmax (1 # 100) (Qmin (Qmin open close) low);
     close := Qmax (1 # 100) close;
     volume := inject_Z volume |}.

(** [data[i - 1].close]; the bar is the one the turn before pushed. *)
Definition previous_close (data : list MarketData) (i : nat) (otherwise : Q) : Q :=
  match nth_error data (i - 1) with
  | Some previous => close previous
  | None => otherwise
  end.

(** One turn of the loop of [generateSampleData] at index [i]. *)
Definition sample_step (startDate : Z) (i : nat) (g : Gen) : Rand Gen :=
  let date := (startDate + Z.of_nat i * DAY_MS)%Z in
  cycle <-
    (if Qgeb (nat2Q (gen_trendDuration g)) (gen_maxTrendDuration g)
     then
       r <- Math_random ;;
       r' <- Math_random ;;
       ret ((r - (5 # 10)) * (4 # 10), O, 30 + r' * 20)
     else ret (gen_trend g, gen_trendDuration g, gen_maxTrendDuration g)) ;;
  let '(trend, trendDuration, maxTrendDuration) := cycle in
  let trendDuration := S trendDuration in
  rv <- Math_random ;;
  let volatility := (15 # 10) + rv * (15 # 10) in
  rc <- Math_random ;;
  let randomComponent := (rc - (5 # 10)) * volatility in
  let trendComponent := trend * volatility * 2 in
  let change := randomComponent + trendComponent in
  let price := Qmax (gen_price g + change) 10 in
  let open := if Nat.eqb i 0 then price else previous_close (gen_data g) i price in
  let close := price in
  ri <- Math_random ;;
  rh <- Math_random ;;
  rl <- Math_random ;;
  rvol <- Math_random ;;
  ret {| gen_price := price;
         gen_trend := trend;
         gen_trendDuration := trendDuration;
         gen_maxTrendDuration := maxTrendDuration;
         gen_data := gen_data g ++
                     [sample_bar date open close change ri rh rl rvol] |}.

Fixpoint sample_loop (startDate : Z) (todo i : nat) (g : Gen) : Rand Gen :=
  match todo with
  | O => ret g
  | S todo' =>
      g' <- sample_step startDate i g ;;
      sample_loop startDate todo' (S i) g'
  end.

(** [generateSampleData(days)], run at the time [now] on the draws
    [rand]. *)
Definition generateSampleData (rand : nat -> Q) (now : Z) (days : nat)
    : list MarketData :=
  fst ((r0 <- Math_random ;;
        let price := 80 + r0 * 40 in
        let startDate := (now - Z.of_nat days * DAY_MS)%Z in
        r1 <- Math_random ;;
        let trend := (r1 - (5 # 10)) * (3 # 10) in
        r2 <- Math_random ;;
        let maxTrendDuration := 30 + r2 * 20 in
        g <- sample_loop startDate days 0
               {| gen_price := price; gen_trend := trend;
                  gen_trendDuration := O;
                  gen_maxTrendDuration := maxTrendDuration;
                  gen_data := [] |} ;;
        ret (gen_data g)) rand 0%nat).

(** *** What a generated bar looks like *)

Definition sample_bar_ok (b : MarketData) : Prop :=
  10 <= open b /\ 10 <= close b /\
  open b <= high b /\ close b <= high b /\
  (1 # 100) <= low b /\ low b <= open b /\ low b <= close b.

(** Each bar opens at the close of the bar before. *)
Definition opens_at_previous_close (data : list MarketData) : Prop :=
  forall j a b, nth_error data j = Some a -> nth_error data (S j) = Some b ->
    open b == close a.

(** The bar at index [j] is dated [j] days after [startDate]. *)
Definition dated_daily (startDate : Z) (data : list MarketData) : Prop :=
  forall j b, nth_error data j = Some b ->
    date b = Some (startDate + Z.of_nat j * DAY_MS)%Z.

(** Every draw lies in [[0, 1)], as [Math.random] promises. *)
Definition random_draws (rand : nat -> Q) : Prop := forall k, random_draw (rand k).

(** The invariant of the loop of [generateSampleData] before turn [i]. *)
Definition gen_ok (startDate : Z) (i : nat) (g : Gen) : Prop :=
  length (gen_data g) = i /\
  Forall sample_bar_ok (gen_data g) /\
  opens_at_previous_close (gen_data g) /\
  dated_daily startDate (gen_data g).

(** The volume is a whole number of shares from one to six million. *)
Definition volume_ok (b : MarketData) : Prop :=
  exists v : Z, volume b = inject_Z v /\ (1000000 <= v < 6000000)%Z.

(* ------------------------------------------------------------------ *)
(** ** Shapes of a price series *)

(** The closes never fall from one bar to the next; the closes fall at
    every bar. *)
Definition never_falls (data : list MarketData) : Prop :=
  forall j a b, nth_error data j = Some a -> nth_error data (S j) = Some b ->
    close a <= close b.

Definition always_falls (data : list MarketData) : Prop :=
  forall j a b, nth_error data j = Some a -> nth_error data (S j) = Some b ->
    close b < close a.

(** Every close lies in [[lo, hi]]. *)
Definition closes_within (lo hi : Q) (data : list MarketData) : Prop :=
  Forall (fun d => lo <= close d <= hi) data.

(* ------------------------------------------------------------------ *)
(** ** Shapes of an equity curve *)

(** A finite number equal to zero. *)
Definition is_zero (x : num) : Prop := exists r, x = Fin r /\ r == 0.

(** Each entry is at most every later entry. *)
Fixpoint nondecreasing (curve : list Q) : Prop :=
  match curve with
  | [] => True
  | e :: rest => Forall (fun e' => e <= e') rest /\ nondecreasing rest
  end.

(* ------------------------------------------------------------------ *)
(** ** Shapes of a trade log *)

(** The trade [t] was logged at the bar of index [i]: it carries the
    close and the date of that bar. *)
Definition logged_at (bars : list MarketData) (i : Q) (t : Trade) : Prop :=
  exists bar, get bars i = Some bar /\ price t = close bar /\
              trade_date t = date bar.

(** Every SELL of the log comes right after a BUY, was logged at least
    [MIN_HOLD_DAYS] bars after it, records that number of bars as
    [daysHeld], and sells the quantity bought. *)
Definition sells_close_a_hold (bars : list MarketData) (log : list Trade) : Prop :=
  forall k t, nth_error log k = Some t -> trade_type t = SELL ->
    exists b i j,
      (1 <= k)%nat /\ nth_error log (k - 1) = Some b /\ trade_type b = BUY /\
      logged_at bars i b /\ logged_at bars j t /\
      i + MIN_HOLD_DAYS <= j /\ daysHeld t = Some (j - i) /\
      quantity t = quantity b.

(** The state of the signal loop: the SELLs so far close a hold, and an
    open position is the quantity of the last trade, a BUY logged at
    [lastBuyIndex]. *)
Definition holding_ok (bars : list MarketData) (s : Sim) : Prop :=
  sells_close_a_hold bars (trades s) /\
  (0 < position s ->
   exists pre b, trades s = pre ++ [b] /\ trade_type b = BUY /\
                 logged_at bars (lastBuyIndex s) b /\ quantity b = position s).

(** Every trade of the log carries a date, as every trade that [backtest]
    logs does. *)
Definition trades_dated (log : list Trade) : Prop :=
  Forall (fun t => trade_date t <> None) log.

(** No trade logged and no position open. *)
Definition sim_idle (s : Sim) : Prop := trades s = [] /\ position s = 0.

(** The state of the loop that rebuilds the curve before the turn at
    index [i]: untouched up to the index of the forced BUY, and at any
    time either in cash or holding a position on cash that is not
    negative; the curve so far is positive. *)
Definition rebuild_solvent (buyIndex : Z) (i : Q) (r : Result Rebuild) : Prop :=
  match r with
  | Throw _ => True
  | Ok st =>
      Forall (fun e => 0 < e) (rebuilt_curve st) /\
      (i <= inject_Z buyIndex ->
       currentCapital st == 100000 /\ currentPosition st == 0) /\
      ((0 < currentCapital st /\ currentPosition st == 0) \/
       (0 <= currentCapital st /\ 0 < currentPosition st))
  end.

(* ------------------------------------------------------------------ *)
(** ** Shapes of a variant *)

(** A value drawn within [[lo, hi)], or held at one of the clamps. *)
Definition within_or_clamped (clamps : list Q) (lo hi v : Q) : Prop :=
  Exists (fun c => v == c) clamps \/ (lo <= v < hi).

(** What the perturbation of [generateVariants] allows of a variant. *)
Definition variant_near (baseStrategy v : Strategy) : Prop :=
  let b := parameters baseStrategy in
  within_or_clamped [10] (ma_short b - 5) (ma_short b + 5)
                    (ma_short (parameters v)) /\
  within_or_clamped [30] (ma_long b - 10) (ma_long b + 10)
                    (ma_long (parameters v)) /\
  within_or_clamped [25; 35] (rsi_threshold b - 5) (rsi_threshold b + 5)
                    (rsi_threshold (parameters v)).

(** The fields a variant does not take from its base. *)
Definition variant_fresh (v : Strategy) : Prop :=
  user_id v = None /\ metrics v = None /\
  stop_loss (parameters v) = None /\ take_profit (parameters v) = None.
(* ================================================================== *)
(** * Properties *)

(* ------------------------------------------------------------------ *)
(** ** The model on sample inputs *)

Example calculateMA_sample :
  map Qred (calculateMA (bars_of [10; 20; 30; 40]) 3) = [0; 0; 20; 30].
Proof. reflexivity. Qed.

(** A fractional period takes the window of the next integer. *)
Example calculateMA_fractional_period :
  map Qred (calculateMA (bars_of [10; 20; 30; 40]) (5 # 2)) = [0; 0; 20; 30].
Proof. reflexivity. Qed.

Example calculateRSI_sample :
  map Qred (calculateRSI rise_fall_bars 14)
  = [50; 50; 50; 50; 50; 50; 50; 50; 50; 50; 50; 50; 50; 50;
     400 # 7; 450 # 7; 400 # 7; 400 # 7; 50; 50].
Proof. vm_compute. reflexivity. Qed.

(** A run on the signal path: BUY on day 14 at 12, SELL on day 17 at 11. *)
Example backtest_signal_path_sample :
  exists r,
    backtest_run 0 (strategy_of 1 2 30 (15 # 100)) (Some rise_fall_bars) = Ok r /\
    run_forced r = false /\
    map (fun t => (trade_type t, Qred (price t), Qred (quantity t))) (run_trades r)
      = [(BUY, 12, 1250); (SELL, 11, 1250)] /\
    map Qred (run_equity_curve r)
      = [100000; 100000; 101250; 100000; 98750; 98750; 98750].
Proof.
  eexists. split; [vm_compute; reflexivity|].
  split; [reflexivity|]. split; vm_compute; reflexivity.
Qed.

Example generateVariants_sample :
  map (fun v => (id v, name v))
      (generateVariants (fun _ => 21 # 40)
         (fun k => 1700000000000 + Z.of_nat k)%Z default_base 2)
  = [("strategy_1700000000000_0", "Base Variant 1");
     ("strategy_1700000000001_1", "Base Variant 2")]%string.
Proof. vm_compute. reflexivity. Qed.

(* ------------------------------------------------------------------ *)
(** ** Comparisons of finite numbers *)

Lemma Qltb_lt (x y : Q) : Qltb x y = true <-> x < y.
Proof.
  unfold Qltb. rewrite negb_true_iff, <- not_true_iff_false, Qle_bool_iff.
  split; [apply Qnot_le_lt | apply Qlt_not_le].
Qed.

Lemma Qltb_ge (x y : Q) : Qltb x y = false <-> y <= x.
Proof.
  unfold Qltb. rewrite negb_false_iff. apply Qle_bool_iff.
Qed.

Lemma Qgtb_gt (x y : Q) : Qgtb x y = true <-> y < x.
Proof. apply Qltb_lt. Qed.

Lemma Qgtb_le (x y : Q) : Qgtb x y = false <-> x <= y.
Proof. apply Qltb_ge. Qed.

Lemma Qgeb_ge (x y : Q) : Qgeb x y = true <-> y <= x.
Proof. apply Qle_bool_iff. Qed.

Lemma Qeq_bool_false (x y : Q) : Qeq_bool x y = false <-> ~ x == y.
Proof.
  rewrite <- not_true_iff_false, Qeq_bool_iff. tauto.
Qed.

(** Boolean tests in the context become the comparisons they decide. *)
Ltac reflect_Q :=
  repeat match goal with
  | H : Qgtb _ _ = true |- _ => apply Qgtb_gt in H
  | H : Qgtb _ _ = false |- _ => apply Qgtb_le in H
  | H : Qltb _ _ = true |- _ => apply Qltb_lt in H
  | H : Qltb _ _ = false |- _ => apply Qltb_ge in H
  | H : Qgeb _ _ = true |- _ => apply Qgeb_ge in H
  | H : Qeq_bool _ _ = true |- _ => apply Qeq_bool_iff in H
  | H : Qeq_bool _ _ = false |- _ => apply Qeq_bool_false in H
  | H : _ && _ = true |- _ => apply andb_true_iff in H; destruct H
  end.

Lemma nat2Q_S (n : nat) : nat2Q (S n) == nat2Q n + 1.
Proof.
  unfold nat2Q. rewrite Nat2Z.inj_succ, <- Z.add_1_r, inject_Z_plus. reflexivity.
Qed.

Lemma nat2Q_nonneg (n : nat) : 0 <= nat2Q n.
Proof.
  unfold nat2Q. change 0 with (inject_Z 0). rewrite <- Zle_Qle. lia.
Qed.

Lemma nat2Q_le (n m : nat) : (n <= m)%nat <-> nat2Q n <= nat2Q m.
Proof. unfold nat2Q. rewrite <- Zle_Qle. lia. Qed.

Lemma nat2Q_lt (n m : nat) : (n < m)%nat <-> nat2Q n < nat2Q m.
Proof. unfold nat2Q. rewrite <- Zlt_Qlt. lia. Qed.

Lemma nat2Q_S_pos (n : nat) : 0 < nat2Q (S n).
Proof. change 0 with (nat2Q 0). apply nat2Q_lt. lia. Qed.

Lemma Qsum_from (xs : list Q) : forall a, fold_left Qplus xs a == a + Qsum xs.
Proof.
  unfold Qsum. induction xs as [|x xs IH]; intros a; simpl.
  - ring.
  - rewrite (IH (a + x)), (IH (0 + x)). ring.
Qed.

Lemma Qsum_cons (x : Q) (xs : list Q) : Qsum (x :: xs) == x + Qsum xs.
Proof.
  unfold Qsum at 1. simpl. rewrite Qsum_from. ring.
Qed.

(* ------------------------------------------------------------------ *)
(** ** Lists and array indices *)

Lemma skipn_nth_error {A} (l : list A) :
  forall k d, nth_error l k = Some d -> skipn k l = d :: skipn (S k) l.
Proof.
  induction l as [|x l IH]; intros [|k] d H; simpl in *; try discriminate.
  - now inversion H.
  - now apply IH.
Qed.

Lemma nth_error_map_seq {A} (f : nat -> A) (n i : nat) :
  (i < n)%nat -> nth_error (map f (seq 0 n)) i = Some (f i).
Proof.
  intros H. rewrite nth_error_map, nth_error_seq.
  destruct (Nat.ltb_spec i n); [reflexivity | lia].
Qed.

Lemma nth_error_last {A} (l : list A) (d : A) :
  l <> [] -> nth_error l (length l - 1) = Some (last l d).
Proof.
  induction l as [|x l IH]; intros H; [congruence|].
  destruct l as [|y l]; [reflexivity|].
  replace (length (x :: y :: l) - 1)%nat with (S (length (y :: l) - 1))
    by (simpl; lia).
  cbn [nth_error]. rewrite IH by discriminate. reflexivity.
Qed.

Lemma last_nonempty {A} (l : list A) :
  forall x d d', last (x :: l) d = last (x :: l) d'.
Proof.
  induction l as [|y l IH]; intros x d d'; [reflexivity|].
  change (last (y :: l) d = last (y :: l) d'). apply IH.
Qed.

Lemma last_map_Fin (x : Q) (l : list Q) :
  last (map Fin (x :: l)) NaN = Fin (last (x :: l) 0).
Proof.
  revert x. induction l as [|y l IH]; intros x; [reflexivity|].
  change (last (map Fin (y :: l)) NaN = Fin (last (y :: l) 0)). apply IH.
Qed.

Lemma Forall_last (P : Q -> Prop) (x : Q) (l : list Q) :
  Forall P (x :: l) -> P (last (x :: l) 0).
Proof.
  revert x. induction l as [|y l IH]; intros x H.
  - now inversion H.
  - change (P (last (y :: l) 0)). apply IH. now inversion H.
Qed.

Lemma get_Z_nat {A} (l : list A) (k : nat) : get_Z l (Z.of_nat k) = nth_error l k.
Proof.
  unfold get_Z. destruct (Z.ltb_spec (Z.of_nat k) 0); [lia|].
  now rewrite Nat2Z.id.
Qed.

Lemma get_Z_last {A} (l : list A) (d : A) :
  get_Z l (Z.of_nat (length l) - 1) =
  match l with [] => None | _ => Some (last l d) end.
Proof.
  destruct l as [|x l]; [reflexivity|].
  replace (Z.of_nat (length (x :: l)) - 1)%Z
    with (Z.of_nat (length (x :: l) - 1)) by (cbn [length]; lia).
  rewrite get_Z_nat. apply nth_error_last. discriminate.
Qed.

Lemma get_Z_in_range {A} (l : list A) (z : Z) :
  (0 <= z < Z.of_nat (length l))%Z -> exists x, get_Z l z = Some x.
Proof.
  intros Hz. unfold get_Z. destruct (Z.ltb_spec z 0); [lia|].
  destruct (nth_error l (Z.to_nat z)) as [x|] eqn:E; [now exists x|].
  apply nth_error_None in E. lia.
Qed.

Lemma is_integer_iff (i : Q) : is_integer i = true <-> exists z, i == inject_Z z.
Proof.
  unfold is_integer. rewrite Qeq_bool_iff. split.
  - intros H. exists (Qfloor i). now symmetry.
  - intros [z Hz]. rewrite Hz at 2. now rewrite Hz, Qfloor_Z.
Qed.

Lemma is_integer_succ (i : Q) : is_integer i = true -> is_integer (i + 1) = true.
Proof.
  rewrite !is_integer_iff. intros [z Hz]. exists (z + 1)%Z.
  rewrite inject_Z_plus, Hz. reflexivity.
Qed.

Lemma get_in_range {A} (l : list A) (i : Q) :
  is_integer i = true -> 0 <= i -> i < nat2Q (length l) ->
  exists x, get l i = Some x.
Proof.
  intros Hint H0 Hn. unfold get. rewrite Hint.
  apply is_integer_iff in Hint. destruct Hint as [z Hz].
  assert (Hf : Qfloor i = z) by (rewrite Hz; apply Qfloor_Z).
  rewrite Hf. apply get_Z_in_range.
  rewrite Hz in H0, Hn. unfold nat2Q in Hn. change 0 with (inject_Z 0) in H0.
  rewrite <- Zle_Qle in H0. rewrite <- Zlt_Qlt in Hn. lia.
Qed.

Lemma get_In {A} (l : list A) (i : Q) (x : A) : get l i = Some x -> In x l.
Proof.
  unfold get, get_Z. destruct (is_integer i); [|discriminate].
  destruct (_ <? _)%Z; [discriminate|]. apply nth_error_In.
Qed.

(* ------------------------------------------------------------------ *)
(** ** Loops *)

(** A loop keeps what each of its turns keeps; [I] follows the index. *)
(** [upto x] lists the values of [j] with [j < x], in order. *)
Lemma upto_spec (x : Q) (j : nat) : In j (upto x) <-> nat2Q j < x.
Proof.
  unfold upto. rewrite in_seq. unfold nat2Q. split.
  - intros [_ H]. cbn in H.
    assert (Hz : (Z.of_nat j <= Qceiling x - 1)%Z) by lia.
    apply (Qle_lt_trans _ (inject_Z (Qceiling x - 1))).
    + now rewrite <- Zle_Qle.
    + apply Qceiling_lt.
  - intros H. split; [lia|]. cbn.
    assert (Hz : inject_Z (Z.of_nat j) < inject_Z (Qceiling x)).
    { eapply Qlt_le_trans; [exact H | apply Qle_ceiling]. }
    rewrite <- Zlt_Qlt in Hz. lia.
Qed.

Lemma for_from_invariant {S : Type} (I : Q -> Prop) (P : S -> Prop)
    (n : nat) (body : Q -> S -> S) :
  (forall i, I i -> I (i + 1)) ->
  (forall i s, I i -> i < nat2Q n -> P s -> P (body i s)) ->
  forall fuel i s, I i -> P s -> P (for_from fuel i n body s).
Proof.
  intros HI Hbody fuel. induction fuel as [|fuel IH]; intros i s Hi Hs; simpl.
  - exact Hs.
  - destruct (Qltb i (nat2Q n)) eqn:E; [|exact Hs].
    apply IH; [apply HI, Hi|]. apply Hbody; auto. now apply Qltb_lt.
Qed.

Lemma for_from_past_end {S : Type} (fuel : nat) (i : Q) (n : nat)
    (body : Q -> S -> S) (s : S) :
  nat2Q n <= i -> for_from fuel i n body s = s.
Proof.
  intros H. destruct fuel; [reflexivity|]. cbn [for_from].
  now rewrite (proj2 (Qltb_ge _ _) H).
Qed.

Lemma for_from_one_more {S : Type} (n : nat) (body : Q -> S -> S) :
  forall fuel i s,
    nat2Q n <= i + nat2Q fuel ->
    for_from (Datatypes.S fuel) i n body s = for_from fuel i n body s.
Proof.
  induction fuel as [|fuel IH]; intros i s H.
  - cbn [for_from]. change (nat2Q 0) with 0 in H.
    rewrite (proj2 (Qltb_ge i (nat2Q n))) by lra. reflexivity.
  - change (for_from (Datatypes.S (Datatypes.S fuel)) i n body s)
      with (if Qltb i (nat2Q n)
            then for_from (Datatypes.S fuel) (i + 1) n body (body i s) else s).
    change (for_from (Datatypes.S fuel) i n body s)
      with (if Qltb i (nat2Q n)
            then for_from fuel (i + 1) n body (body i s) else s).
    destruct (Qltb i (nat2Q n)); [|reflexivity].
    apply IH. rewrite nat2Q_S in H. lra.
Qed.

(** From a start that is not below zero, [n] turns of fuel are as good as
    any larger amount: the loops of [backtest] run to their end. *)
Lemma for_from_enough_fuel {S : Type} (n : nat) (body : Q -> S -> S)
    (i : Q) (s : S) (extra : nat) :
  0 <= i -> for_from (n + extra) i n body s = for_from n i n body s.
Proof.
  intros Hi. induction extra as [|extra IH].
  - now rewrite Nat.add_0_r.
  - rewrite Nat.add_succ_r, for_from_one_more; [exact IH|].
    pose proof (nat2Q_le n (n + extra)) as [Hle _].
    specialize (Hle ltac:(lia)). lra.
Qed.

(* ------------------------------------------------------------------ *)
(** ** Variant generator *)

Lemma make_variant_ok (baseStrategy : Strategy) (now : Z) (i : nat)
    (rand : nat -> Q) (k : nat) :
  variant_ok baseStrategy (fst (make_variant baseStrategy now i rand k)).
Proof.
  unfold make_variant, bind, Math_random, ret, variant_ok; simpl.
  repeat split; try reflexivity.
  - apply Q.le_max_l.
  - apply Q.max_lub; [discriminate | apply Q.le_min_l].
  - apply Q.le_max_l.
  - apply Q.le_max_l.
  - apply Q.le_max_l.
  - apply Q.max_lub; [discriminate | apply Q.le_min_l].
Qed.

Lemma variants_loop_ok (baseStrategy : Strategy) (clock : nat -> Z)
    (rand : nat -> Q) (todo : nat) :
  forall i variants k,
    Forall (variant_ok baseStrategy) variants ->
    let out := fst (variants_loop baseStrategy clock todo i variants rand k) in
    length out = (length variants + todo)%nat /\
    Forall (variant_ok baseStrategy) out.
Proof.
  induction todo as [|todo IH]; intros i variants k Hacc; simpl.
  - split; [lia | exact Hacc].
  - unfold bind.
    pose proof (make_variant_ok baseStrategy (clock i) i rand k) as Hv.
    destruct (make_variant baseStrategy (clock i) i rand k) as [v k'].
    simpl in Hv.
    destruct (IH (S i) (variants ++ [v]) k') as [Hlen Hall].
    + apply Forall_app; split; [exact Hacc | constructor; [exact Hv | constructor]].
    + split; [|exact Hall]. rewrite Hlen, length_app; simpl; lia.
Qed.

(** C9. For every base strategy, count [N], clock and sequence of random
    draws, [generateVariants] returns exactly [N] strategies, each of type
    [optimized], with [parent_id] the id of the base, [position_size] in
    [[0.10, 0.20]], [ma_short >= 10], [ma_long >= 30] and [rsi_threshold]
    in [[25, 35]]. *)
Theorem generateVariants_count_and_bounds :
  forall (rand : nat -> Q) (clock : nat -> Z) (baseStrategy : Strategy) (N : nat),
    length (generateVariants rand clock baseStrategy N) = N /\
    Forall (variant_ok baseStrategy) (generateVariants rand clock baseStrategy N).
Proof.
  intros rand clock baseStrategy N. unfold generateVariants.
  destruct (variants_loop_ok baseStrategy clock rand N 0%nat [] 0%nat) as [Hlen Hall].
  - constructor.
  - split; [exact Hlen | exact Hall].
Qed.

(* ------------------------------------------------------------------ *)
(** ** Moving average *)

Lemma window_S (data : list MarketData) (w i : nat) (d : MarketData) :
  (S w <= i + 1)%nat -> nth_error data (i - w) = Some d ->
  window data (S w) i = d :: window data w i.
Proof.
  intros Hw Hd. unfold window.
  replace (i + 1 - S w)%nat with (i - w)%nat by lia.
  rewrite (skipn_nth_error _ _ _ Hd), firstn_cons.
  now replace (S (i - w)) with (i + 1 - w)%nat by lia.
Qed.

(** The inner loop of [calculateMA], run for [w] turns. *)
Lemma ma_window_fold (data : list MarketData) (i : nat) :
  (i < length data)%nat ->
  forall w, (w <= i + 1)%nat ->
    let r := fold_left
      (fun (acc : Q * nat) (j : nat) =>
         match valid_close (get_Z data (Z.of_nat i - Z.of_nat j)) with
         | Some c => (fst acc + c, S (snd acc))
         | None => acc
         end) (seq 0 w) (0, O) in
    fst r == Qsum (valid_closes (window data w i)) /\
    snd r = length (valid_closes (window data w i)).
Proof.
  intros Hi w. induction w as [|w IH]; intros Hw.
  - simpl. split; reflexivity.
  - rewrite seq_S, fold_left_app. simpl Nat.add. cbv zeta in *.
    destruct IH as [IHs IHc]; [lia|].
    set (r := fold_left _ (seq 0 w) (0, O)) in *.
    destruct (nth_error data (i - w)) as [d|] eqn:Hd.
    2:{ apply nth_error_None in Hd. lia. }
    rewrite (window_S data w i d Hw Hd).
    simpl fold_left.
    replace (Z.of_nat i - Z.of_nat w)%Z with (Z.of_nat (i - w)) by lia.
    rewrite get_Z_nat, Hd. unfold valid_closes in *. simpl.
    destruct (Qgtb (close d) 0); simpl.
    + split; [rewrite Qsum_cons, IHs; ring | now rewrite IHc].
    + split; assumption.
Qed.

Lemma ceiling_le_index (period : Q) (i : nat) :
  period - 1 <= nat2Q i -> (Z.to_nat (Qceiling period) <= i + 1)%nat.
Proof.
  intros H. pose proof (Qceiling_lt period) as Hc.
  assert (Hlt : inject_Z (Qceiling period - 1) < inject_Z (Z.of_nat i + 1)).
  { eapply Qlt_le_trans; [exact Hc|]. rewrite inject_Z_plus. unfold nat2Q in H.
    change (inject_Z 1) with 1. lra. }
  rewrite <- Zlt_Qlt in Hlt. lia.
Qed.

Lemma ma_at_code (data : list MarketData) (period : Q) (i : nat) :
  (i < length data)%nat -> ma_at data period i == movingAverage_code data period i.
Proof.
  intros Hi. unfold ma_at, movingAverage_code.
  destruct (Qltb (nat2Q i) (period - 1)) eqn:E; [reflexivity|].
  apply Qltb_ge in E.
  pose proof (ma_window_fold data i Hi _ (ceiling_le_index period i E)) as H.
  cbv zeta in H. unfold ma_window, upto.
  destruct (fold_left _ _ _) as [sum validCount]. cbn [fst snd] in H.
  destruct H as [Hs Hc].
  unfold mean. destruct (valid_closes _) as [|c cs] eqn:Ev.
  - simpl in Hc. subst validCount. reflexivity.
  - subst validCount. cbn [length Nat.ltb Nat.leb]. rewrite Hs. reflexivity.
Qed.

(** C1, as the code has it. The series of [calculateMA] is as long as the
    bar sequence; at each index [i < period - 1] its value is the
    placeholder [0], whatever the bars; at each index [i >= period - 1] it
    is the mean of the closes of the valid bars (positive close) among the
    [period] bars that end at [i], divided by the number of valid bars
    found, and [0] when none is valid. *)
Theorem calculateMA_placeholder_then_window_mean :
  forall (data : list MarketData) (period : Q),
    length (calculateMA data period) = length data /\
    forall i, (i < length data)%nat ->
      exists v, nth_error (calculateMA data period) i = Some v /\
                v == movingAverage_code data period i.
Proof.
  intros data period. unfold calculateMA. split.
  - now rewrite length_map, length_seq.
  - intros i Hi. exists (ma_at data period i). split.
    + now apply nth_error_map_seq.
    + now apply ma_at_code.
Qed.

Lemma calculateMA_placeholder_then_window_mean_witness :
  exists v, nth_error (calculateMA (bars_of [10; 20; 30; 40]) 3) 3 = Some v /\
            v == 30.
Proof.
  destruct (calculateMA_placeholder_then_window_mean (bars_of [10; 20; 30; 40]) 3)
    as [_ H].
  destruct (H 3%nat) as [v [Hv Hm]]; [simpl; lia|].
  exists v. split; [exact Hv|]. rewrite Hm. reflexivity.
Defined.

(** C1, as the specification words it, fails: with closes 10, 20, 30 and
    period 3 the series starts with the placeholder [0], where the
    average of the bars available at index 0 is 10. *)
Lemma calculateMA_no_partial_window :
  nth_error (calculateMA (bars_of [10; 20; 30]) 3) 0 = Some 0 /\
  movingAverage_spec (bars_of [10; 20; 30]) 3 0 == 10 /\
  ~ 0 == movingAverage_spec (bars_of [10; 20; 30]) 3 0.
Proof.
  split; [reflexivity|]. split; [reflexivity|]. intros H. discriminate H.
Qed.

(* ------------------------------------------------------------------ *)
(** ** Metrics calculator: total return *)

Lemma calculateMetrics_total_return (equity_curve : list num) (trades : list Trade) :
  total_return (calculateMetrics equity_curve trades) =
  total_return_code equity_curve.
Proof.
  unfold calculateMetrics, total_return_code.
  destruct (count_pairs trades) as [completed wins].
  destruct (durations trades) as [total count]. cbn [total_return].
  assert (Hi : or_default (nth_error equity_curve 0) (Fin STARTING_CAPITAL)
               = initial_of equity_curve).
  { destruct equity_curve; reflexivity. }
  rewrite Hi, (get_Z_last equity_curve NaN).
  destruct equity_curve as [|x l]; reflexivity.
Qed.

(** [total_return] is [10 + actual_return] with
    [actual_return = (final - initial) / initial * 100], where [initial]
    is the first entry of the curve, or 100,000 when that entry is
    missing, [0] or [NaN], and [final] is the last entry, or [initial]
    when that entry is missing, [0] or [NaN]. Whenever the first and the
    last entry are neither [0] nor [NaN] this is the formula on the two
    entries. *)
Lemma total_return_is_ten_plus_actual_return :
  forall (equity_curve : list num) (trades : list Trade),
    total_return (calculateMetrics equity_curve trades)
      = total_return_code equity_curve /\
    (truthy (hd (Fin STARTING_CAPITAL) equity_curve) = true ->
     truthy (last equity_curve (Fin STARTING_CAPITAL)) = true ->
     total_return (calculateMetrics equity_curve trades)
       = total_return_spec equity_curve).
Proof.
  intros equity_curve trades. split; [apply calculateMetrics_total_return|].
  intros Hfirst Hlast. rewrite calculateMetrics_total_return.
  unfold total_return_code, total_return_spec, final_of, initial_of.
  destruct equity_curve as [|x l]; [reflexivity|].
  cbn [hd] in *. rewrite Hfirst.
  rewrite (last_nonempty l x NaN (Fin STARTING_CAPITAL)), Hlast. reflexivity.
Qed.

(** C7. A curve that ends in a total loss is reported as a gain of 10:
    the default [|| initial_capital], written for the empty curve, also
    replaces a final equity of 0, so on the curve 100000, 0 the reported
    [total_return] is 10 where 10 plus the actual return is -90. The
    same happens through [backtest]: with a position size of 2 and
    equal periods on 56 bars at 100 whose bar 19 closes at 50, the forced
    BUY at bar 14 and SELL at bar 19 leave an equity of 0 from bar 19 on,
    and the metrics report 10. *)
Theorem total_loss_reported_as_ten :
  (num_eq (total_return (calculateMetrics [Fin 100000; Fin 0] [])) (Fin 10) /\
   num_eq (total_return_spec [Fin 100000; Fin 0]) (Fin (-90))) /\
  (exists r m,
     backtest_run 0 (strategy_of 14 14 30 2) (Some halving_bars) = Ok r /\
     hd 0 (run_equity_curve r) == 100000 /\
     last (run_equity_curve r) 1 == 0 /\
     backtest 0 (strategy_of 14 14 30 2) (Some halving_bars) = Ok m /\
     num_eq (total_return m) (Fin 10) /\
     num_eq (total_return_spec (map Fin (run_equity_curve r))) (Fin (-90))).
Proof.
  split; [split; reflexivity|].
  eexists. eexists. split; [vm_compute; reflexivity|].
  split; [reflexivity|]. split; [reflexivity|].
  split; [vm_compute; reflexivity|]. split; reflexivity.
Qed.

(** A curve that never leaves the starting capital reports 10. *)
Lemma flat_curve_total_return (curve : list Q) :
  Forall (fun e => e == 100000) curve ->
  num_eq (total_return_code (map Fin curve)) (Fin 10).
Proof.
  intros H. destruct curve as [|x l]; [reflexivity|].
  pose proof (Forall_last _ x l H) as Hy. cbv beta in Hy.
  assert (Hx : x == 100000) by now inversion H.
  unfold total_return_code, final_of, initial_of.
  rewrite last_map_Fin. cbn [map truthy].
  assert (Ex : Qeq_bool x 0 = false) by (apply Qeq_bool_false; lra).
  assert (Ey : Qeq_bool (last (x :: l) 0) 0 = false)
    by (apply Qeq_bool_false; lra).
  rewrite Ex, Ey. cbn [negb nsub nneg nadd ndiv]. rewrite Ex.
  cbn [nmul nadd num_eq]. rewrite Hy, Hx. reflexivity.
Qed.

(* ------------------------------------------------------------------ *)
(** ** Metrics calculator: floors and caps *)

Lemma num_le_Fin (a b : Q) : num_le (Fin a) (Fin b) <-> a <= b.
Proof.
  unfold num_le, nleb, ngtb. rewrite negb_true_iff. apply Qgtb_le.
Qed.

Lemma ndiv_by_length (x : num) (n : nat) :
  ndiv x (Fin (nat2Q (S n))) =
  match x with
  | Fin p => Fin (p / nat2Q (S n))
  | other => other
  end.
Proof.
  pose proof (nat2Q_S_pos n) as Hp.
  assert (E0 : Qeq_bool (nat2Q (S n)) 0 = false) by (apply Qeq_bool_false; lra).
  assert (E1 : Qltb (nat2Q (S n)) 0 = false) by (apply Qltb_ge; lra).
  destruct x; cbn [ndiv]; rewrite ?E0, ?E1; reflexivity.
Qed.

Lemma num_le_gt_trans (d m : num) :
  num_le (Fin 0) m -> ngtb d m = true -> num_le (Fin 0) d.
Proof.
  destruct d as [p| | |], m as [q| | |]; cbn; try discriminate;
    try reflexivity.
  rewrite !num_le_Fin. intros Hq Hp. reflect_Q. lra.
Qed.

Lemma raw_max_drawdown_nonneg (equity_curve : list num) :
  num_le (Fin 0) (raw_max_drawdown equity_curve).
Proof.
  unfold raw_max_drawdown. generalize (hd NaN equity_curve). intros peak.
  assert (H : num_le (Fin 0) (snd (peak, Fin 0))) by reflexivity.
  revert H. generalize (peak, Fin 0). clear peak.
  induction equity_curve as [|e l IH]; intros st Hst; [exact Hst|].
  cbn [fold_left]. apply IH. unfold drawdown_step. cbn [snd].
  destruct (ngtb _ (snd st)) eqn:E; [|exact Hst].
  eapply num_le_gt_trans; eassumption.
Qed.

Lemma capped_drawdown_range (x : num) :
  num_le (Fin 0) x ->
  num_le (Fin (-10)) (nneg (Math_min x (Fin 10))) /\
  num_le (nneg (Math_min x (Fin 10))) (Fin 0).
Proof.
  destruct x as [q| | |]; cbn; try discriminate.
  - rewrite num_le_Fin. intros Hq.
    destruct (Qgtb q 10) eqn:E; cbn; rewrite !num_le_Fin; reflect_Q; split; lra.
  - intros _. rewrite !num_le_Fin. split; lra.
Qed.

(** The caps of [calculateMetrics] that no arithmetic can break:
    [win_rate] in [[60, 75]] and [max_drawdown] in [[-10, 0]], for every
    equity curve and trade log. *)
Lemma calculateMetrics_caps :
  forall (equity_curve : list num) (trades : list Trade),
    let m := calculateMetrics equity_curve trades in
    num_le (Fin 60) (win_rate m) /\ num_le (win_rate m) (Fin 75) /\
    num_le (Fin (-10)) (max_drawdown m) /\ num_le (max_drawdown m) (Fin 0).
Proof.
  intros equity_curve trades m. subst m. unfold calculateMetrics.
  destruct (count_pairs trades) as [completed wins].
  destruct (durations trades) as [total count].
  cbn [win_rate max_drawdown].
  split; [|split].
  - apply num_le_Fin. apply Q.min_glb; [discriminate | apply Q.le_max_l].
  - apply num_le_Fin. apply Q.le_min_l.
  - apply capped_drawdown_range, raw_max_drawdown_nonneg.
Qed.

(** C6. The floor of 1 on [sharpe_ratio] does not hold on doubles. On the
    curve 1e-307, 15, 1e-307, 15 the three returns are finite (about
    1.5e308, -1, 1.5e308), their sum overflows to [Infinity], the mean
    and the deviation are [Infinity], their quotient is [NaN], and
    [Math.max(1.0, NaN)] is [NaN]: the reported [sharpe_ratio] is not a
    number, and not at least 1. *)
Theorem sharpe_ratio_NaN_on_overflow :
  forallb PrimFloat.is_finite tiny_then_15 = true /\
  forallb PrimFloat.is_finite (returns_double tiny_then_15) = true /\
  PrimFloat.is_nan (sharpe_ratio_double tiny_then_15) = true /\
  PrimFloat.leb PrimFloat.one (sharpe_ratio_double tiny_then_15) = false.
Proof.
  repeat split; vm_compute; reflexivity.
Qed.

(* ------------------------------------------------------------------ *)
(** ** Metrics calculator: completed trades *)

Lemma num_trades_count_pairs (equity_curve : list num) (log : list Trade) :
  num_trades (calculateMetrics equity_curve log) = fst (count_pairs log).
Proof.
  unfold calculateMetrics. destruct (count_pairs log) as [completed wins].
  destruct (durations log) as [total count]. reflexivity.
Qed.

Lemma count_pairs_grows (log : list Trade) (idxs : list nat) :
  forall acc : nat * nat,
    (fst acc <=
     fst (fold_left
       (fun (acc : nat * nat) (i : nat) =>
          match nth_error log i, nth_error log (i + 1) with
          | Some current, Some next =>
              if TradeType_eqb (trade_type current) BUY
                 && TradeType_eqb (trade_type next) SELL
              then (S (fst acc),
                    if Qgtb (price next) (price current)
                    then S (snd acc) else snd acc)
              else acc
          | _, _ => acc
          end) idxs acc))%nat.
Proof.
  induction idxs as [|i idxs IH]; intros acc; cbn [fold_left]; [lia|].
  etransitivity; [|apply IH].
  destruct (nth_error log i); [|lia].
  destruct (nth_error log (i + 1)); [|lia].
  destruct (_ && _); cbn [fst]; lia.
Qed.

Lemma count_pairs_BUY_SELL (a b : Trade) (rest : list Trade) :
  trade_type a = BUY -> trade_type b = SELL ->
  (1 <= fst (count_pairs (a :: b :: rest)))%nat.
Proof.
  intros Ha Hb. unfold count_pairs.
  replace (length (a :: b :: rest) - 1)%nat with (S (length rest))
    by (cbn [length]; lia).
  cbn [seq fold_left]. cbn [nth_error Nat.add]. rewrite Ha, Hb. cbn [TradeType_eqb andb].
  etransitivity; [|apply count_pairs_grows]. cbn [fst]. lia.
Qed.

Lemma alternates_nil : alternates [].
Proof. intros [|i] t H; discriminate H. Qed.

Lemma alternates_snoc (log : list Trade) (t : Trade) :
  alternates log ->
  trade_type t = (if Nat.even (length log) then BUY else SELL) ->
  alternates (log ++ [t]).
Proof.
  intros Hlog Ht i t' Hi. destruct (Nat.lt_ge_cases i (length log)) as [Hlt|Hge].
  - rewrite nth_error_app1 in Hi by exact Hlt. now apply Hlog.
  - rewrite nth_error_app2 in Hi by exact Hge.
    destruct (i - length log)%nat as [|k] eqn:E.
    + inversion Hi; subst t'. replace i with (length log) by lia. exact Ht.
    + destruct k; discriminate Hi.
Qed.

Lemma even_length_snoc {A} (l : list A) (x : A) :
  Nat.even (length (l ++ [x])) = negb (Nat.even (length l)).
Proof.
  rewrite length_app. cbn [length]. rewrite Nat.add_1_r, Nat.even_succ, <- Nat.negb_even. reflexivity.
Qed.

Lemma count_pairs_alternates (log : list Trade) :
  alternates log -> (2 <= length log)%nat -> (1 <= fst (count_pairs log))%nat.
Proof.
  intros Halt Hlen. destruct log as [|a [|b rest]]; cbn [length] in Hlen; try lia.
  apply count_pairs_BUY_SELL.
  - apply (Halt 0%nat a eq_refl).
  - apply (Halt 1%nat b eq_refl).
Qed.

(* ------------------------------------------------------------------ *)
(** ** Backtest: the signal loop *)

Lemma is_integer_start (strategy : Strategy) :
  is_integer (ma_long (parameters strategy)) = true ->
  is_integer (start_index strategy) = true.
Proof.
  unfold start_index. rewrite !is_integer_iff. intros [z Hz].
  destruct (Q.max_dec (ma_long (parameters strategy)) 14) as [E|E].
  - exists z. now rewrite E.
  - exists 14%Z. now rewrite E.
Qed.

Lemma start_index_ge_14 (strategy : Strategy) : 14 <= start_index strategy.
Proof. apply Q.le_max_r. Qed.

Lemma valid_bar_price (marketData : list MarketData) (i : Q) (bar : MarketData) :
  get (valid_bars marketData) i = Some bar -> 0 < close bar.
Proof.
  intros H. apply get_In in H. unfold valid_bars in H.
  apply filter_In in H. destruct H as [_ H]. unfold is_valid in H.
  apply andb_true_iff in H. destruct H as [H _]. now apply Qgtb_gt.
Qed.

Lemma valid_bars_nonempty (marketData : list MarketData) :
  (1 <= length (valid_bars marketData))%nat -> marketData <> [].
Proof. intros H E. subst. cbn in H. lia. Qed.

Lemma execute_curve (strategy : Strategy) (bar : MarketData) (i : Q)
    (bullish bearish : bool) (held : Q) (s : Sim) :
  exists entry,
    equity_curve (execute strategy bar i bullish bearish held s)
    = equity_curve s ++ [entry].
Proof.
  unfold execute. cbv zeta. cbn [equity_curve].
  destruct (bullish && _); [|destruct (bearish && _)];
    cbn [equity_curve]; eexists; reflexivity.
Qed.

(** The signal loop keeps the initial entry at the head of its curve. *)
Lemma signal_curve_starts_with_capital (strategy : Strategy)
    (validMarketData : list MarketData) :
  exists rest,
    equity_curve (signal_loop strategy validMarketData) = STARTING_CAPITAL :: rest.
Proof.
  unfold signal_loop. cbv zeta.
  apply (for_from_invariant (fun _ => True)
           (fun s => exists rest, equity_curve s = STARTING_CAPITAL :: rest));
    auto.
  - intros i s _ _ [rest Hs]. unfold signal_step.
    destruct (get validMarketData i) as [bar|]; [|now exists rest].
    destruct (get _ i) as [ms|]; [|now exists rest].
    destruct (get _ i) as [ml|]; [|now exists rest].
    destruct (_ || _); [now exists rest|].
    cbv zeta.
    match goal with
    | |- context [execute ?a ?b ?c ?d ?e ?f s] =>
        destruct (execute_curve a b c d e f s) as [entry He]
    end.
    rewrite He, Hs. now exists (rest ++ [entry]).
  - now exists [].
Qed.

Section SignalLoop.

Variable strategy : Strategy.
Hypothesis Hps : 0 < position_size (parameters strategy) <= 1.

(** With a position size in (0, 1] a BUY opens a position and a SELL
    leaves cash, so the state of the loop stays well formed. *)
Lemma execute_ok (bar : MarketData) (i : Q) (bullish bearish : bool)
    (held : Q) (s : Sim) :
  0 < close bar -> sim_ok s ->
  sim_ok (execute strategy bar i bullish bearish held s).
Proof.
  destruct Hps as [Hps0 Hps1].
  intros Hprice [Halt Hs]. unfold execute. cbv zeta.
  set (ps := position_size (parameters strategy)) in *.
  set (p := close bar) in *.
  destruct (bullish && Qeq_bool (position s) 0) eqn:Ebuy.
  - reflect_Q.
    destruct Hs as [(_ & Hcap & Heven) | (Hpos & _ & _)]; [|lra].
    unfold sim_ok. cbn [capital position trades]. split.
    + apply alternates_snoc; [exact Halt|]. now rewrite Heven.
    + right. rewrite even_length_snoc, Heven.
      assert (Hq : 0 < capital s * ps / p).
      { apply Qlt_shift_div_l; [exact Hprice|]. nra. }
      assert (Hmul : capital s * ps / p * p == capital s * ps).
      { field. lra. }
      split; [exact Hq|]. split; [|reflexivity]. rewrite Hmul. nra.
  - destruct (bearish && Qgtb (position s) 0) eqn:Esell.
    + reflect_Q.
      destruct Hs as [(Hflat & _ & _) | (Hpos & Hcap & Hodd)]; [lra|].
      unfold sim_ok. cbn [capital position trades]. split.
      * apply alternates_snoc; [exact Halt|]. now rewrite Hodd.
      * left. rewrite even_length_snoc, Hodd.
        split; [reflexivity|]. split; [nra | reflexivity].
    + unfold sim_ok. cbn [capital position trades]. split; [exact Halt | exact Hs].
Qed.

Lemma signal_step_ok (marketData : list MarketData)
    (ma_short_s ma_long_s rsi : list Q) (i : Q) (s : Sim) :
  sim_ok s ->
  sim_ok (signal_step strategy (valid_bars marketData) ma_short_s ma_long_s rsi i s).
Proof.
  intros Hs. unfold signal_step.
  destruct (get (valid_bars marketData) i) as [bar|] eqn:Ebar; [|exact Hs].
  destruct (get ma_short_s i) as [ms|]; [|exact Hs].
  destruct (get ma_long_s i) as [ml|]; [|exact Hs].
  destruct (Qeq_bool ms 0 || Qeq_bool ml 0); [exact Hs|].
  cbv zeta. apply execute_ok; [|exact Hs].
  eapply valid_bar_price; eassumption.
Qed.

(** The state after the signal loop: the log alternates from a BUY. *)
Lemma signal_loop_ok (marketData : list MarketData) :
  sim_ok (signal_loop strategy (valid_bars marketData)).
Proof.
  unfold signal_loop. cbv zeta.
  apply (for_from_invariant (fun _ => True) sim_ok); auto.
  - intros i s _ _ Hs. now apply signal_step_ok.
  - split; [apply alternates_nil|]. left. cbn.
    split; [reflexivity|]. split; reflexivity.
Qed.

End SignalLoop.

(* ------------------------------------------------------------------ *)
(** ** Backtest: the loop that rebuilds the curve *)

Section RebuildLoop.

Variable validMarketData : list MarketData.
Variables buyIndex sellIndex : Z.
Variables testPosition buyPrice sellPrice : Q.

(** On an index of the array a turn does not throw. *)
Lemma rebuild_step_not_thrown (i : Q) (r : Result Rebuild) :
  is_integer i = true /\ 0 <= i -> i < nat2Q (length validMarketData) ->
  not_thrown r ->
  not_thrown (rebuild_step validMarketData buyIndex sellIndex
                           testPosition buyPrice sellPrice i r).
Proof.
  intros [Hint H0] Hn Hr. destruct r as [st|e]; [|destruct Hr].
  unfold rebuild_step.
  destruct (get_in_range validMarketData i Hint H0 Hn) as [bar Hbar].
  rewrite Hbar. exact I.
Qed.

Lemma rebuild_thrown_stays (n : nat) (e : Error) :
  forall fuel i,
    for_from fuel i n
      (rebuild_step validMarketData buyIndex sellIndex
                    testPosition buyPrice sellPrice) (Throw e) = Throw e.
Proof.
  induction fuel as [|fuel IH]; intros i; cbn [for_from]; [reflexivity|].
  destruct (Qltb i (nat2Q n)); [apply IH | reflexivity].
Qed.

Lemma rebuild_first_turn_throws (n fuel : nat) (i : Q) (st : Rebuild)
    (e : Error) :
  (1 <= fuel)%nat -> i < nat2Q n ->
  rebuild_step validMarketData buyIndex sellIndex
               testPosition buyPrice sellPrice i (Ok st) = Throw e ->
  for_from fuel i n
    (rebuild_step validMarketData buyIndex sellIndex
                  testPosition buyPrice sellPrice) (Ok st) = Throw e.
Proof.
  intros Hfuel Hlt Hstep. destruct fuel as [|fuel]; [lia|].
  cbn [for_from]. rewrite (proj2 (Qltb_lt _ _) Hlt), Hstep.
  apply rebuild_thrown_stays.
Qed.

(** Past the index of the forced BUY a turn leaves cash and position as
    they are. *)
Lemma rebuild_step_flat (i : Q) (r : Result Rebuild) :
  inject_Z buyIndex < i -> rebuild_flat r ->
  rebuild_flat (rebuild_step validMarketData buyIndex sellIndex
                             testPosition buyPrice sellPrice i r).
Proof.
  intros Hbuy Hr. destruct r as [st|e]; [|exact I].
  destruct Hr as (Hcap & Hpos & Hcurve). unfold rebuild_step.
  assert (E : Qeq_bool i (inject_Z buyIndex) = false)
    by (apply Qeq_bool_false; lra).
  rewrite E.
  destruct (get validMarketData i) as [bar|]; [|exact I].
  destruct (Qeq_bool i (inject_Z sellIndex));
    cbn [rebuild_flat currentCapital currentPosition rebuilt_curve].
  - split; [rewrite Hpos, Hcap; ring|]. split; [reflexivity|].
    apply Forall_app. split; [exact Hcurve|]. constructor; [|constructor].
    rewrite Hpos, Hcap. ring.
  - split; [exact Hcap|]. split; [exact Hpos|].
    apply Forall_app. split; [exact Hcurve|]. constructor; [|constructor].
    rewrite Hpos, Hcap. ring.
Qed.

(** The loop adds one entry for each index from [i] to the end, and
    nothing else. *)
Lemma rebuild_loop_length (n : nat) :
  forall fuel i st st',
    is_integer i = true -> i <= nat2Q n -> nat2Q n <= i + nat2Q fuel ->
    for_from fuel i n
      (rebuild_step validMarketData buyIndex sellIndex
                    testPosition buyPrice sellPrice) (Ok st) = Ok st' ->
    nat2Q (length (rebuilt_curve st'))
      == nat2Q (length (rebuilt_curve st)) + (nat2Q n - i).
Proof.
  induction fuel as [|fuel IH]; intros i st st' Hint Hle Hfuel Hloop.
  - cbn [for_from] in Hloop. inversion Hloop; subst st'.
    change (nat2Q 0) with 0 in Hfuel. lra.
  - cbn [for_from] in Hloop. destruct (Qltb i (nat2Q n)) eqn:E; reflect_Q.
    + destruct (rebuild_step validMarketData buyIndex sellIndex testPosition
                  buyPrice sellPrice i (Ok st)) as [st1|e] eqn:Estep.
      2:{ rewrite rebuild_thrown_stays in Hloop. discriminate Hloop. }
      assert (Hnext : i + 1 <= nat2Q n).
      { apply is_integer_iff in Hint. destruct Hint as [z Hz].
        rewrite Hz in E |- *. unfold nat2Q in *.
        rewrite <- Zlt_Qlt in E. change 1 with (inject_Z 1).
        rewrite <- inject_Z_plus, <- Zle_Qle. lia. }
      rewrite (IH (i + 1) st1 st' (is_integer_succ i Hint) Hnext); [|
        rewrite nat2Q_S in Hfuel; lra | exact Hloop].
      unfold rebuild_step in Estep.
      destruct (get validMarketData i) as [bar|]; [|discriminate Estep].
      inversion Estep; subst st1. cbn [rebuilt_curve].
      rewrite length_app. cbn [length]. rewrite Nat.add_1_r, nat2Q_S.
      destruct (Qeq_bool i (inject_Z buyIndex)),
               (Qeq_bool i (inject_Z sellIndex)); cbn [rebuilt_curve]; ring.
    + inversion Hloop; subst st'. lra.
Qed.

End RebuildLoop.

(* ------------------------------------------------------------------ *)
(** ** Backtest: the forced trades *)

Lemma buy_index_range (n : nat) :
  (1 <= n)%nat -> (0 <= buy_index n < Z.of_nat n)%Z.
Proof.
  intros Hn. unfold buy_index, Math_floor.
  assert (H1 : 1 <= nat2Q n) by (change 1 with (nat2Q 1); now apply nat2Q_le).
  split.
  - change 0%Z with (Qfloor 0). apply Qfloor_resp_le. lra.
  - pose proof (Qfloor_le (nat2Q n * (25 # 100))) as Hf.
    assert (Hlt : inject_Z (Qfloor (nat2Q n * (25 # 100))) < inject_Z (Z.of_nat n)).
    { eapply Qle_lt_trans; [exact Hf|]. fold (nat2Q n). lra. }
    now rewrite <- Zlt_Qlt in Hlt.
Qed.

Lemma sell_index_range (rnd : Q) (n : nat) :
  0 <= rnd -> (1 <= n)%nat -> (0 <= sell_index rnd n < Z.of_nat n)%Z.
Proof.
  intros Hr Hn. unfold sell_index, Math_floor.
  pose proof (buy_index_range n Hn) as Hb.
  assert (H0 : (0 <= Qfloor (rnd * 3))%Z).
  { change 0%Z with (Qfloor 0). apply Qfloor_resp_le. lra. }
  lia.
Qed.

Lemma forced_trades_ok (rnd : Q) (strategy : Strategy)
    (validMarketData : list MarketData) :
  0 <= rnd -> (1 <= length validMarketData)%nat ->
  is_integer (ma_long (parameters strategy)) = true ->
  exists a b st,
    forced_trades rnd strategy validMarketData = Ok ([a; b], st) /\
    trade_type a = BUY /\ trade_type b = SELL.
Proof.
  intros Hr Hn Hint. unfold forced_trades. cbv zeta.
  destruct (get_Z_in_range validMarketData _ (buy_index_range _ Hn)) as [buyBar Hb].
  destruct (get_Z_in_range validMarketData _ (sell_index_range rnd _ Hr Hn))
    as [sellBar Hs].
  rewrite Hb, Hs.
  match goal with
  | |- context [for_from ?f ?i ?n ?body ?s] =>
      assert (Hloop : not_thrown (for_from f i n body s))
  end.
  { apply (for_from_invariant (fun i => is_integer i = true /\ 0 <= i)).
    - intros i [Hi H0]. split; [now apply is_integer_succ | lra].
    - intros i r Hi Hlt Hok. now apply rebuild_step_not_thrown.
    - split; [now apply is_integer_start|].
      pose proof (start_index_ge_14 strategy). lra.
    - exact I. }
  destruct (for_from _ _ _ _ _) as [st|e]; [|destruct Hloop].
  do 3 eexists. split; [reflexivity|]. split; reflexivity.
Qed.

Lemma forced_trades_inv (rnd : Q) (strategy : Strategy)
    (validMarketData : list MarketData) (log : list Trade) (st : Rebuild) :
  forced_trades rnd strategy validMarketData = Ok (log, st) ->
  exists a b testPosition buyPrice sellPrice,
    log = [a; b] /\ trade_type a = BUY /\ trade_type b = SELL /\
    for_from (length validMarketData) (start_index strategy)
      (length validMarketData)
      (rebuild_step validMarketData (buy_index (length validMarketData))
         (sell_index rnd (length validMarketData))
         testPosition buyPrice sellPrice)
      (Ok {| currentCapital := 100000; currentPosition := 0;
             rebuilt_curve := [] |}) = Ok st.
Proof.
  unfold forced_trades. cbv zeta.
  destruct (get_Z validMarketData (buy_index _)) as [buyBar|]; [|discriminate].
  destruct (get_Z validMarketData (sell_index _ _)) as [sellBar|]; [|discriminate].
  destruct (for_from _ _ _ _ _) as [st'|e] eqn:Eloop; [|discriminate].
  intros H. inversion H; subst log st'.
  do 5 eexists. split; [reflexivity|]. split; [reflexivity|].
  split; [reflexivity|]. exact Eloop.
Qed.

(* ------------------------------------------------------------------ *)
(** ** Backtest: runs that return *)

Lemma backtest_of_run (rnd : Q) (strategy : Strategy)
    (marketData : option (list MarketData)) (r : Run) :
  backtest_run rnd strategy marketData = Ok r ->
  backtest rnd strategy marketData
  = Ok (calculateMetrics (map Fin (run_equity_curve r)) (run_trades r)).
Proof. intros H. unfold backtest. now rewrite H. Qed.

Lemma backtest_run_returns (rnd : Q) (strategy : Strategy)
    (marketData : list MarketData) :
  random_draw rnd ->
  is_integer (ma_long (parameters strategy)) = true ->
  (1 <= length (valid_bars marketData))%nat ->
  ma_long (parameters strategy) <= nat2Q (length (valid_bars marketData)) ->
  exists r, backtest_run rnd strategy (Some marketData) = Ok r.
Proof.
  intros [Hr _] Hint Hn Hlong. unfold backtest_run.
  pose proof (valid_bars_nonempty marketData Hn) as Hne.
  destruct marketData as [|b bars]; [congruence|].
  cbv zeta.
  rewrite (proj2 (Qltb_ge _ _) Hlong).
  destruct (length (trades _) <? 2)%nat; [|eexists; reflexivity].
  destruct (forced_trades_ok rnd strategy (valid_bars (b :: bars)) Hr Hn Hint)
    as (a & s & st & Hforced & _). rewrite Hforced. eexists; reflexivity.
Qed.

(** With a position size in (0, 1] the log of every run that returns
    alternates from a BUY. *)
Lemma run_trades_alternate (rnd : Q) (strategy : Strategy)
    (marketData : list MarketData) (r : Run) :
  0 < position_size (parameters strategy) <= 1 ->
  backtest_run rnd strategy (Some marketData) = Ok r ->
  alternates (run_trades r).
Proof.
  intros Hps. unfold backtest_run.
  destruct marketData as [|b bars]; [discriminate|].
  cbv zeta.
  destruct (Qltb _ _); [discriminate|].
  destruct (length (trades _) <? 2)%nat.
  - destruct (forced_trades rnd strategy _) as [[log st]|e] eqn:Ef; [|discriminate].
    intros H. inversion H; subst r. cbn [run_trades].
    destruct (forced_trades_inv _ _ _ _ _ Ef) as (a & s & _ & _ & _ & -> & Ha & Hs & _).
    intros [|[|i]] t Hi; cbn in Hi.
    + inversion Hi; subst t. exact Ha.
    + inversion Hi; subst t. exact Hs.
    + destruct i; discriminate Hi.
  - intros H. inversion H; subst r. cbn [run_trades].
    apply (signal_loop_ok strategy Hps (b :: bars)).
Qed.

(** C5. [backtest] does not report a completed trade on every input
    with enough valid bars. With [position_size = 0] on the 18 rising
    bars ([ma_long = 2]) every BUY leaves the position at 0, the signal
    loop logs BUY, BUY, BUY, the run keeps that log (no fallback) and
    [num_trades] is 0. With the [ma_long = 40.5] of a generated variant
    on 60 valid bars nothing is returned: the call throws. *)
Theorem backtest_without_a_completed_trade :
  (ma_long (parameters (strategy_of 1 2 30 0))
     <= nat2Q (length (valid_bars rising_bars)) /\
   exists r m,
     backtest_run 0 (strategy_of 1 2 30 0) (Some rising_bars) = Ok r /\
     run_forced r = false /\
     map trade_type (run_trades r) = [BUY; BUY; BUY] /\
     backtest 0 (strategy_of 1 2 30 0) (Some rising_bars) = Ok m /\
     num_trades m = 0%nat) /\
  (ma_long (parameters sample_variant)
     <= nat2Q (length (valid_bars (flat_bars 60))) /\
   backtest 0 sample_variant (Some (flat_bars 60)) = Throw TypeError).
Proof.
  split; split; try discriminate.
  - eexists. eexists. split; [vm_compute; reflexivity|].
    split; [reflexivity|]. split; [reflexivity|].
    split; [vm_compute; reflexivity | reflexivity].
  - vm_compute. reflexivity.
Qed.

(* ------------------------------------------------------------------ *)
(** ** Backtest: failures *)

(** For a positive integer [ma_long], [backtest] throws exactly when the
    data is absent or empty, or the valid bars are fewer than [ma_long]. *)
Lemma backtest_throws_iff_integer_period (rnd : Q) (strategy : Strategy)
    (marketData : option (list MarketData)) :
  random_draw rnd ->
  is_integer (ma_long (parameters strategy)) = true ->
  1 <= ma_long (parameters strategy) ->
  (exists e, backtest rnd strategy marketData = Throw e) <->
  (marketData = None \/ marketData = Some [] \/
   exists bars, marketData = Some bars /\
                nat2Q (length (valid_bars bars)) < ma_long (parameters strategy)).
Proof.
  intros Hr Hint Hpos. split.
  - intros [e He]. destruct marketData as [[|b bars]|]; auto.
    right. right. exists (b :: bars). split; [reflexivity|].
    destruct (Qlt_le_dec (nat2Q (length (valid_bars (b :: bars))))
                         (ma_long (parameters strategy))) as [Hlt|Hge];
      [exact Hlt|].
    assert (Hn : (1 <= length (valid_bars (b :: bars)))%nat).
    { apply nat2Q_le. change (nat2Q 1) with 1. lra. }
    destruct (backtest_run_returns rnd strategy (b :: bars) Hr Hint Hn Hge)
      as [r Hrun].
    rewrite (backtest_of_run _ _ _ _ Hrun) in He. discriminate He.
  - intros [-> | [-> | (bars & -> & Hlt)]].
    + now exists EmptyMarketData.
    + now exists EmptyMarketData.
    + destruct bars as [|b bars]; [now exists EmptyMarketData|].
      exists InsufficientData. unfold backtest, backtest_run.
      cbv zeta.
      now rewrite (proj2 (Qltb_lt _ _) Hlt).
Qed.

Lemma is_integer_succ_false (i : Q) :
  is_integer i = false -> is_integer (i + 1) = false.
Proof.
  intros H. apply not_true_iff_false. intros H1.
  apply not_true_iff_false in H. apply H.
  apply is_integer_iff in H1. destruct H1 as [z Hz].
  apply is_integer_iff. exists (z - 1)%Z.
  unfold Z.sub. rewrite inject_Z_plus, <- Hz.
  change (inject_Z (- (1))) with (- (1)). ring.
Qed.

(** From a start index that is no integer the signal loop skips every
    turn. *)
Lemma signal_loop_fractional_start (strategy : Strategy)
    (validMarketData : list MarketData) :
  is_integer (start_index strategy) = false ->
  trades (signal_loop strategy validMarketData) = [].
Proof.
  intros Hfrac. unfold signal_loop. cbv zeta.
  apply (for_from_invariant (fun i => is_integer i = false)
           (fun s => trades s = [])).
  - apply is_integer_succ_false.
  - intros i s Hi _ Hs. unfold signal_step, get. now rewrite Hi.
  - exact Hfrac.
  - reflexivity.
Qed.

(** With a start index that is no integer and lies below the number of
    valid bars, every run throws: the signal loop logs no trade and the
    first turn of the loop that rebuilds the curve reads [close] of
    [undefined]. *)
Lemma backtest_fractional_start_throws (rnd : Q) (strategy : Strategy)
    (marketData : list MarketData) :
  random_draw rnd ->
  is_integer (start_index strategy) = false ->
  start_index strategy < nat2Q (length (valid_bars marketData)) ->
  backtest rnd strategy (Some marketData) = Throw TypeError.
Proof.
  intros [Hr _] Hfrac Hlt.
  pose proof (start_index_ge_14 strategy) as H14.
  assert (Hlong : ma_long (parameters strategy) <= start_index strategy)
    by apply Q.le_max_l.
  assert (Hn : (1 <= length (valid_bars marketData))%nat).
  { apply nat2Q_le. change (nat2Q 1) with 1. lra. }
  pose proof (valid_bars_nonempty marketData Hn) as Hne.
  unfold backtest, backtest_run.
  destruct marketData as [|b bars]; [congruence|]. cbv zeta.
  rewrite (proj2 (Qltb_ge _ _)) by lra.
  rewrite signal_loop_fractional_start by exact Hfrac. cbn [length Nat.ltb Nat.leb].
  unfold forced_trades. cbv zeta.
  destruct (get_Z_in_range (valid_bars (b :: bars)) _ (buy_index_range _ Hn))
    as [buyBar Hb].
  destruct (get_Z_in_range (valid_bars (b :: bars)) _ (sell_index_range rnd _ Hr Hn))
    as [sellBar Hs].
  rewrite Hb, Hs.
  match goal with
  | |- context [for_from ?f ?i ?n ?body (Ok ?st)] =>
      assert (Hloop : for_from f i n body (Ok st) = Throw TypeError)
  end.
  { apply rebuild_first_turn_throws; [exact Hn | exact Hlt |].
    unfold rebuild_step, get. now rewrite Hfrac. }
  now rewrite Hloop.
Qed.

(** C4. [backtest] throws on inputs that are neither empty nor short of
    valid bars: a variant drawn by [generateVariants] has a fractional
    [ma_long] (here 40.5); on 60 valid bars the start index 40.5 is no
    array index, the signal loop skips every turn and the loop that
    rebuilds the curve reads [close] of [undefined]. The same read fails
    when no bar is valid and [ma_long] is 0. *)
Theorem backtest_throws_TypeError :
  (ma_long (parameters sample_variant) == 81 # 2 /\
   length (valid_bars (flat_bars 60)) = 60%nat /\
   backtest 0 sample_variant (Some (flat_bars 60)) = Throw TypeError) /\
  (length (valid_bars [undated_bar]) = 0%nat /\
   backtest 0 (strategy_of 15 0 30 (15 # 100)) (Some [undated_bar])
     = Throw TypeError).
Proof.
  split; [split; [|split] | split]; vm_compute; reflexivity.
Qed.

(* ------------------------------------------------------------------ *)
(** ** Backtest: the trade log *)

(** C8. With [position_size = 0] a BUY leaves the position at 0, so the
    next bullish bar buys again: on the rising bars the signal loop logs
    BUY, BUY, BUY and the run keeps that log. *)
Theorem zero_position_size_repeats_BUY :
  exists r, backtest_run 0 (strategy_of 1 2 30 0) (Some rising_bars) = Ok r /\
            run_forced r = false /\
            map trade_type (run_trades r) = [BUY; BUY; BUY] /\
            repeats_a_type (run_trades r) /\
            ~ alternates (run_trades r).
Proof.
  eexists. split; [vm_compute; reflexivity|].
  split; [reflexivity|]. split; [reflexivity|]. split.
  - exists 0%nat. do 2 eexists. split; [reflexivity|]. split; reflexivity.
  - intros H. specialize (H 1%nat). cbn in H.
    specialize (H _ eq_refl). discriminate H.
Qed.

(* ------------------------------------------------------------------ *)
(** ** Backtest: the equity curve *)

(** On the fallback path, with an integer start index up to the number
    [n] of valid bars, the curve handed to [calculateMetrics] has
    [n - start] entries: one for each bar from the start index, and no
    initial entry. *)
Lemma forced_curve_length (rnd : Q) (strategy : Strategy)
    (marketData : list MarketData) (r : Run) :
  backtest_run rnd strategy (Some marketData) = Ok r ->
  run_forced r = true ->
  is_integer (start_index strategy) = true ->
  start_index strategy <= nat2Q (length (valid_bars marketData)) ->
  nat2Q (length (run_equity_curve r))
    == nat2Q (length (valid_bars marketData)) - start_index strategy.
Proof.
  intros Hrun Hforced Hint Hle. unfold backtest_run in Hrun.
  destruct marketData as [|b bars]; [discriminate|].
  cbv zeta in Hrun.
  destruct (Qltb _ _); [discriminate|].
  destruct (length (trades _) <? 2)%nat.
  2:{ inversion Hrun; subst r. discriminate Hforced. }
  destruct (forced_trades rnd strategy _) as [[log st]|e] eqn:Ef; [|discriminate].
  inversion Hrun; subst r. cbn [run_equity_curve].
  destruct (forced_trades_inv _ _ _ _ _ Ef)
    as (a & s & tp & bp & sp & _ & _ & _ & Hloop).
  assert (Hfuel : nat2Q (length (valid_bars (b :: bars)))
                  <= start_index strategy
                     + nat2Q (length (valid_bars (b :: bars)))).
  { pose proof (start_index_ge_14 strategy). lra. }
  rewrite (rebuild_loop_length _ _ _ _ _ _ _ _ _ _ _ Hint Hle Hfuel Hloop).
  cbn [rebuilt_curve length]. change (nat2Q 0) with 0. ring.
Qed.

(** C3. On the fallback path the curve handed to [calculateMetrics] has
    no initial entry: with 14 flat bars and [ma_long = 14] no bar lies at
    or after the start index and the curve is empty; with 16 flat bars
    the two bars from the start index give a curve of two entries. *)
Theorem forced_curve_has_no_initial_entry :
  (exists r, backtest_run 0 (strategy_of 14 14 30 (15 # 100)) (Some (flat_bars 14))
             = Ok r /\
             run_forced r = true /\ run_equity_curve r = []) /\
  (exists r, backtest_run 0 (strategy_of 14 14 30 (15 # 100)) (Some (flat_bars 16))
             = Ok r /\
             run_forced r = true /\ length (run_equity_curve r) = 2%nat).
Proof.
  split; eexists; (split; [vm_compute; reflexivity | split; reflexivity]).
Qed.

(** Whenever a run returns through the forced trades and the forced BUY
    index [floor(0.25 * n)] is below the start index [max(ma_long, 14)],
    the rebuilt curve applies neither trade: every entry is the starting
    capital 100,000, and the curve is empty when the start index is at or
    beyond [n]; the reported [total_return] is 10 and [num_trades] is
    1. *)
Lemma forced_trades_before_start_never_reach_curve :
  forall (rnd : Q) (strategy : Strategy) (marketData : list MarketData) (r : Run),
    backtest_run rnd strategy (Some marketData) = Ok r ->
    run_forced r = true ->
    inject_Z (buy_index (length (valid_bars marketData))) < start_index strategy ->
    Forall (fun e => e == 100000) (run_equity_curve r) /\
    (nat2Q (length (valid_bars marketData)) <= start_index strategy ->
     run_equity_curve r = []) /\
    exists m, backtest rnd strategy (Some marketData) = Ok m /\
              num_eq (total_return m) (Fin 10) /\ num_trades m = 1%nat.
Proof.
  intros rnd strategy marketData r Hrun Hforced Hbuy.
  assert (Hm : backtest rnd strategy (Some marketData)
               = Ok (calculateMetrics (map Fin (run_equity_curve r)) (run_trades r)))
    by (unfold backtest; now rewrite Hrun).
  unfold backtest_run in Hrun.
  destruct marketData as [|b bars]; [discriminate|].
  cbv zeta in Hrun.
  destruct (Qltb _ _); [discriminate|].
  destruct (length (trades _) <? 2)%nat.
  2:{ inversion Hrun; subst r. discriminate Hforced. }
  destruct (forced_trades rnd strategy _) as [[log st]|e] eqn:Ef; [|discriminate].
  inversion Hrun; subst r. clear Hrun Hforced. cbn [run_equity_curve run_trades] in *.
  destruct (forced_trades_inv _ _ _ _ _ Ef)
    as (a & s & tp & bp & sp & -> & Ha & Hs & Hloop).
  assert (Hflat : rebuild_flat (Ok st)).
  { rewrite <- Hloop.
    apply (for_from_invariant (fun i => start_index strategy <= i)).
    - intros i Hi. lra.
    - intros i r Hi _ Hr. apply rebuild_step_flat; [lra | exact Hr].
    - lra.
    - cbn. split; [reflexivity|]. split; [reflexivity | constructor]. }
  destruct Hflat as (_ & _ & Hcurve).
  split; [exact Hcurve|]. split.
  - intros Hend. rewrite for_from_past_end in Hloop by exact Hend.
    now inversion Hloop.
  - eexists. split; [exact Hm|]. split.
    + rewrite calculateMetrics_total_return. now apply flat_curve_total_return.
    + rewrite num_trades_count_pairs. unfold count_pairs.
      cbn [length Nat.sub seq fold_left nth_error Nat.add].
      rewrite Ha, Hs. reflexivity.
Qed.

(** C10. The fallback with a forced BUY before the start index does not
    always report [total_return] 10 and [num_trades] 1. For the variant
    with [ma_long = 40.5] on 60 flat bars the signal loop logs no trade,
    so the fallback is taken, and the forced BUY index 15 is below the
    start index 40.5; the loop that rebuilds the curve then reads
    [close] of [validMarketData[40.5]] and the call throws. *)
Theorem forced_trades_before_start_throw :
  trades (signal_loop sample_variant (valid_bars (flat_bars 60))) = [] /\
  buy_index (length (valid_bars (flat_bars 60))) = 15%Z /\
  start_index sample_variant == 81 # 2 /\
  inject_Z (buy_index (length (valid_bars (flat_bars 60))))
    < start_index sample_variant /\
  backtest 0 sample_variant (Some (flat_bars 60)) = Throw TypeError.
Proof.
  split; [vm_compute; reflexivity|]. split; [reflexivity|].
  split; [reflexivity|]. split; [reflexivity|]. vm_compute. reflexivity.
Qed.

(* ------------------------------------------------------------------ *)
(** ** Backtest: the random draw *)

(** C2, as stated, fails: on the same strategy and bars the draw 0 sells
    on day 9 (a loss, win rate 60) and the draw 1/2 sells on day 10 (a
    win, win rate 75). *)
Lemma backtest_depends_on_random_draw :
  exists m1 m2,
    backtest 0 (strategy_of 14 14 30 (15 # 100)) (Some dip_peak_bars) = Ok m1 /\
    backtest (1 # 2) (strategy_of 14 14 30 (15 # 100)) (Some dip_peak_bars) = Ok m2 /\
    num_eq (win_rate m1) (Fin 60) /\ num_eq (win_rate m2) (Fin 75) /\
    ~ num_eq (win_rate m1) (win_rate m2).
Proof.
  do 2 eexists. split; [vm_compute; reflexivity|].
  split; [vm_compute; reflexivity|]. cbn [win_rate num_eq].
  split; [reflexivity|]. split; [reflexivity|]. intros H. discriminate H.
Qed.

Lemma backtest_run_same_floor (rnd1 rnd2 : Q) (strategy : Strategy)
    (marketData : option (list MarketData)) :
  Math_floor (rnd1 * 3) = Math_floor (rnd2 * 3) ->
  backtest_run rnd1 strategy marketData = backtest_run rnd2 strategy marketData.
Proof.
  intros H. unfold backtest_run, forced_trades, sell_index. rewrite H. reflexivity.
Qed.

Lemma backtest_run_signal_path (rnd1 rnd2 : Q) (strategy : Strategy)
    (marketData : option (list MarketData)) (r : Run) :
  backtest_run rnd1 strategy marketData = Ok r -> run_forced r = false ->
  backtest_run rnd2 strategy marketData = Ok r.
Proof.
  unfold backtest_run. destruct marketData as [[|b bars]|]; try discriminate.
  destruct (Qltb _ _); [discriminate|].
  destruct (length (trades _) <? 2)%nat.
  - destruct (forced_trades rnd1 _ _) as [[log st]|e]; [|discriminate].
    intros H Hf. inversion H; subst r. discriminate Hf.
  - intros H _. exact H.
Qed.

(** C2, as the code has it. [backtest] is a function of the strategy, the
    bars and the one random draw of the fallback: two calls on the same
    strategy and bars return the same result when the draws give the same
    [Math.floor(Math.random() * 3)], and, whatever the draws, when the
    run keeps the trades of the signal loop. *)
Theorem backtest_deterministic_up_to_draw :
  forall (rnd1 rnd2 : Q) (strategy : Strategy)
         (marketData : option (list MarketData)),
    (Math_floor (rnd1 * 3) = Math_floor (rnd2 * 3) ->
     backtest rnd1 strategy marketData = backtest rnd2 strategy marketData) /\
    (forall r, backtest_run rnd1 strategy marketData = Ok r ->
               run_forced r = false ->
               backtest rnd1 strategy marketData = backtest rnd2 strategy marketData).
Proof.
  intros rnd1 rnd2 strategy marketData. unfold backtest. split.
  - intros H. now rewrite (backtest_run_same_floor rnd1 rnd2).
  - intros r Hr Hf.
    now rewrite Hr, (backtest_run_signal_path rnd1 rnd2 _ _ r Hr Hf).
Qed.

Lemma backtest_deterministic_up_to_draw_witness :
  backtest 0 (strategy_of 14 14 30 (15 # 100)) (Some dip_peak_bars)
    = backtest (1 # 4) (strategy_of 14 14 30 (15 # 100)) (Some dip_peak_bars) /\
  backtest 0 (strategy_of 1 2 30 (15 # 100)) (Some rise_fall_bars)
    = backtest (1 # 2) (strategy_of 1 2 30 (15 # 100)) (Some rise_fall_bars).
Proof.
  split.
  - apply (backtest_deterministic_up_to_draw 0 (1 # 4)). reflexivity.
  - eapply (backtest_deterministic_up_to_draw 0 (1 # 2)).
    + vm_compute. reflexivity.
    + reflexivity.
Defined.

(* ================================================================== *)
(** * Further properties of the engine *)

(* ------------------------------------------------------------------ *)
(** ** Sample data generator *)

Lemma Qmax_cent (x : Q) : 10 <= x -> Qmax (1 # 100) x == x.
Proof. intros H. apply Q.max_r. lra. Qed.

Lemma sample_bar_is_ok (d : Z) (o c change ri rh rl rvol : Q) :
  10 <= o -> 10 <= c ->
  sample_bar_ok (sample_bar d o c change ri rh rl rvol) /\
  open (sample_bar d o c change ri rh rl rvol) == o /\
  close (sample_bar d o c change ri rh rl rvol) == c.
Proof.
  intros Ho Hc. unfold sample_bar_ok, sample_bar. cbv zeta.
  cbn [open close high low].
  pose proof (Qmax_cent o Ho) as Eo. pose proof (Qmax_cent c Hc) as Ec.
  rewrite Eo, Ec.
  set (h := Qmax o c + _). set (l := Qmin o c - _).
  pose proof (Q.le_max_l (Qmax o c) h) as H1.
  pose proof (Q.le_max_l o c) as H2. pose proof (Q.le_max_r o c) as H3.
  pose proof (Q.le_min_l (Qmin o c) l) as H4.
  pose proof (Q.le_min_l o c) as H5. pose proof (Q.le_min_r o c) as H6.
  pose proof (Q.le_max_l (1 # 100) (Qmin (Qmin o c) l)) as H7.
  repeat split; try lra; try reflexivity.
  - apply Q.max_lub; lra.
  - apply Q.max_lub; lra.
Qed.

Lemma sample_bar_volume (d : Z) (o c change ri rh rl rvol : Q) :
  random_draw rvol -> volume_ok (sample_bar d o c change ri rh rl rvol).
Proof.
  intros [H0 H1]. unfold volume_ok, sample_bar, Math_floor. cbv zeta. cbn [volume].
  eexists. split; [reflexivity|].
  pose proof (Qfloor_le (1000000 + rvol * 5000000)) as Hle.
  pose proof (Qlt_floor (1000000 + rvol * 5000000)) as Hlt.
  split.
  - assert (H : (Qfloor 1000000 <= Qfloor (1000000 + rvol * 5000000))%Z)
      by (apply Qfloor_resp_le; lra).
    exact H.
  - assert (H : inject_Z (Qfloor (1000000 + rvol * 5000000)) < inject_Z 6000000).
    { eapply Qle_lt_trans; [exact Hle|]. change (inject_Z 6000000) with 6000000. lra. }
    now rewrite <- Zlt_Qlt in H.
Qed.

(** What a turn does to the state: one bar is pushed, built from the new
    price and, after the first turn, the close of the bar before. *)
Lemma sample_step_shape (startDate : Z) (i : nat) (g : Gen)
    (rand : nat -> Q) (k : nat) :
  exists change ri rh rl j,
    let price := Qmax (gen_price g + change) 10 in
    gen_price (fst (sample_step startDate i g rand k)) = price /\
    gen_data (fst (sample_step startDate i g rand k)) =
    gen_data g ++
      [sample_bar (startDate + Z.of_nat i * DAY_MS)
         (if Nat.eqb i 0 then price else previous_close (gen_data g) i price)
         price change ri rh rl (rand j)].
Proof.
  unfold sample_step. cbv [bind Math_random ret].
  destruct (Qgeb _ _); cbn [fst gen_price gen_data];
    do 5 eexists; split; reflexivity.
Qed.

Lemma sample_step_ok (startDate : Z) (i : nat) (g : Gen)
    (rand : nat -> Q) (k : nat) :
  gen_ok startDate i g ->
  gen_ok startDate (S i) (fst (sample_step startDate i g rand k)).
Proof.
  intros (Hlen & Hbars & Hopen & Hdate).
  destruct (sample_step_shape startDate i g rand k)
    as (change & ri & rh & rl & j & _ & Hdata). cbv zeta in Hdata.
  set (price := Qmax (gen_price g + change) 10) in *.
  assert (Hprice : 10 <= price) by apply Q.le_max_r.
  set (o := if Nat.eqb i 0 then price else previous_close (gen_data g) i price) in *.
  assert (Ho : 10 <= o).
  { subst o. destruct (Nat.eqb i 0); [exact Hprice|].
    unfold previous_close. destruct (nth_error (gen_data g) (i - 1)) as [p|] eqn:Ep;
      [|exact Hprice].
    apply nth_error_In in Ep. rewrite Forall_forall in Hbars.
    now destruct (Hbars p Ep) as (_ & Hc & _). }
  destruct (sample_bar_is_ok (startDate + Z.of_nat i * DAY_MS) o price change
              ri rh rl (rand j) Ho Hprice) as (Hok & Eo & Ec).
  unfold gen_ok. rewrite Hdata. repeat split.
  - rewrite length_app. cbn [length]. lia.
  - apply Forall_app. split; [exact Hbars | constructor; [exact Hok | constructor]].
  - intros n a b Ha Hb.
    destruct (Nat.lt_ge_cases (S n) (length (gen_data g))) as [Hlt|Hge].
    + rewrite nth_error_app1 in Ha by lia. rewrite nth_error_app1 in Hb by lia.
      now apply (Hopen n).
    + assert (Hn : S n = i).
      { assert (nth_error (gen_data g ++ [sample_bar (startDate + Z.of_nat i * DAY_MS)
                  o price change ri rh rl (rand j)]) (S n) <> None) by congruence.
        apply nth_error_Some in H. rewrite length_app in H. cbn [length] in H. lia. }
      rewrite nth_error_app1 in Ha by lia.
      rewrite nth_error_app2 in Hb by lia.
      replace (S n - length (gen_data g))%nat with 0%nat in Hb by lia.
      cbn [nth_error] in Hb. inversion Hb; subst b. rewrite Eo.
      subst o. rewrite <- Hn. cbn [Nat.eqb]. unfold previous_close.
      replace (S n - 1)%nat with n by lia. now rewrite Ha.
  - intros n b Hb.
    destruct (Nat.lt_ge_cases n (length (gen_data g))) as [Hlt|Hge].
    + rewrite nth_error_app1 in Hb by lia. now apply Hdate.
    + assert (Hn : n = i).
      { assert (nth_error (gen_data g ++ [sample_bar (startDate + Z.of_nat i * DAY_MS)
                  o price change ri rh rl (rand j)]) n <> None) by congruence.
        apply nth_error_Some in H. rewrite length_app in H. cbn [length] in H. lia. }
      rewrite nth_error_app2 in Hb by lia.
      replace (n - length (gen_data g))%nat with 0%nat in Hb by lia.
      cbn [nth_error] in Hb. inversion Hb; subst b n. reflexivity.
Qed.

Lemma sample_step_volume (startDate : Z) (i : nat) (g : Gen)
    (rand : nat -> Q) (k : nat) :
  random_draws rand -> Forall volume_ok (gen_data g) ->
  Forall volume_ok (gen_data (fst (sample_step startDate i g rand k))).
Proof.
  intros Hrand Hvol.
  destruct (sample_step_shape startDate i g rand k)
    as (change & ri & rh & rl & j & _ & Hdata). cbv zeta in Hdata.
  rewrite Hdata. apply Forall_app. split; [exact Hvol|].
  constructor; [|constructor]. apply sample_bar_volume, Hrand.
Qed.

Lemma sample_loop_ok (startDate : Z) (rand : nat -> Q) (todo : nat) :
  forall i g k,
    gen_ok startDate i g ->
    gen_ok startDate (i + todo) (fst (sample_loop startDate todo i g rand k)).
Proof.
  induction todo as [|todo IH]; intros i g k Hg; cbn [sample_loop].
  - rewrite Nat.add_0_r. exact Hg.
  - unfold bind. pose proof (sample_step_ok startDate i g rand k Hg) as Hstep.
    destruct (sample_step startDate i g rand k) as [g' k'].
    rewrite Nat.add_succ_r. apply (IH (S i) g' k' Hstep).
Qed.

Lemma sample_loop_volume (startDate : Z) (rand : nat -> Q) (todo : nat) :
  random_draws rand ->
  forall i g k,
    Forall volume_ok (gen_data g) ->
    Forall volume_ok (gen_data (fst (sample_loop startDate todo i g rand k))).
Proof.
  intros Hrand. induction todo as [|todo IH]; intros i g k Hg; cbn [sample_loop].
  - exact Hg.
  - unfold bind. pose proof (sample_step_volume startDate i g rand k Hrand Hg) as Hstep.
    destruct (sample_step startDate i g rand k) as [g' k'].
    apply (IH (S i) g' k' Hstep).
Qed.

(** The data of [generateSampleData] is the data of its loop. *)
Lemma generateSampleData_loop (rand : nat -> Q) (now : Z) (days : nat) :
  exists g0,
    gen_data g0 = [] /\
    generateSampleData rand now days
    = gen_data (fst (sample_loop (now - Z.of_nat days * DAY_MS) days 0 g0 rand 3%nat)).
Proof.
  unfold generateSampleData. cbv [bind Math_random ret].
  exists {| gen_price := 80 + rand 0%nat * 40;
            gen_trend := (rand 1%nat - (5 # 10)) * (3 # 10);
            gen_trendDuration := 0;
            gen_maxTrendDuration := 30 + rand 2%nat * 20;
            gen_data := [] |}.
  split; [reflexivity|]. destruct (sample_loop _ _ _ _ _ _); reflexivity.
Qed.

Lemma generateSampleData_ok (rand : nat -> Q) (now : Z) (days : nat) :
  gen_ok (now - Z.of_nat days * DAY_MS) days
    {| gen_price := 0; gen_trend := 0; gen_trendDuration := 0;
       gen_maxTrendDuration := 0;
       gen_data := generateSampleData rand now days |}.
Proof.
  destruct (generateSampleData_loop rand now days) as (g0 & Hnil & ->).
  assert (H0 : gen_ok (now - Z.of_nat days * DAY_MS) 0 g0).
  { unfold gen_ok. rewrite Hnil. repeat split.
    - constructor.
    - intros [|j] a b Ha; discriminate Ha.
    - intros [|j] b Hb; discriminate Hb. }
  pose proof (sample_loop_ok _ rand days 0%nat g0 3%nat H0) as H.
  exact H.
Qed.

Lemma filter_all {A} (f : A -> bool) (l : list A) :
  Forall (fun x => f x = true) l -> filter f l = l.
Proof.
  induction 1 as [|x l Hx _ IH]; cbn [filter]; [reflexivity|].
  now rewrite Hx, IH.
Qed.

Lemma sample_bar_valid (b : MarketData) :
  sample_bar_ok b -> (exists d, date b = Some d) -> is_valid b = true.
Proof.
  intros (_ & Hc & _) [d Hd]. unfold is_valid. rewrite Hd, andb_true_r.
  apply Qgtb_gt. lra.
Qed.

(** X1. [generateSampleData] returns exactly [days] bars, and each of
    them has a date and a close of at least 10, so the filter of
    [backtest] keeps them all. *)
Theorem generateSampleData_bars_all_valid :
  forall (rand : nat -> Q) (now : Z) (days : nat),
    length (generateSampleData rand now days) = days /\
    Forall (fun b => 10 <= close b) (generateSampleData rand now days) /\
    valid_bars (generateSampleData rand now days) = generateSampleData rand now days.
Proof.
  intros rand now days.
  destruct (generateSampleData_ok rand now days) as (Hlen & Hbars & _ & Hdate).
  cbn [gen_data] in *. split; [exact Hlen|]. split.
  - eapply Forall_impl; [|exact Hbars]. intros b Hb. apply Hb.
  - apply filter_all. apply Forall_forall. intros b Hin.
    apply sample_bar_valid.
    + rewrite Forall_forall in Hbars. now apply Hbars.
    + destruct (In_nth_error _ _ Hin) as [j Hj]. eexists. exact (Hdate j b Hj).
Qed.

(** X2. Every bar of [generateSampleData] is a consistent candle: open
    and close are at least 10, the high is at least both, the low is at
    most both and at least 0.01. *)
Theorem generateSampleData_candles_consistent :
  forall (rand : nat -> Q) (now : Z) (days : nat),
    Forall sample_bar_ok (generateSampleData rand now days).
Proof.
  intros rand now days.
  now destruct (generateSampleData_ok rand now days) as (_ & Hbars & _).
Qed.

(** X3. In the data of [generateSampleData] every bar after the first
    opens at the close of the bar before it. *)
Theorem generateSampleData_opens_at_previous_close :
  forall (rand : nat -> Q) (now : Z) (days : nat),
    opens_at_previous_close (generateSampleData rand now days).
Proof.
  intros rand now days.
  now destruct (generateSampleData_ok rand now days) as (_ & _ & Hopen & _).
Qed.

(** X4. The bar at index [j] of [generateSampleData(days)] is dated
    [days - j] days before the time of the call: the dates rise by one
    day per bar and end the day before the call. *)
Theorem generateSampleData_dates :
  forall (rand : nat -> Q) (now : Z) (days j : nat) (b : MarketData),
    nth_error (generateSampleData rand now days) j = Some b ->
    (j < days)%nat /\
    date b = Some (now - Z.of_nat (days - j) * DAY_MS)%Z.
Proof.
  intros rand now days j b Hb.
  destruct (generateSampleData_ok rand now days) as (Hlen & _ & _ & Hdate).
  cbn [gen_data] in *.
  assert (Hj : (j < days)%nat).
  { rewrite <- Hlen. apply nth_error_Some. congruence. }
  split; [exact Hj|]. rewrite (Hdate j b Hb). f_equal.
  rewrite Nat2Z.inj_sub by lia. ring.
Qed.

Lemma generateSampleData_dates_witness :
  exists b, nth_error (generateSampleData (fun _ => 1 # 2) 1700000000000 3) 2 = Some b /\
            date b = Some (1700000000000 - 1 * DAY_MS)%Z.
Proof.
  eexists. split; [vm_compute; reflexivity|].
  apply (generateSampleData_dates (fun _ => 1 # 2) 1700000000000 3 2).
  vm_compute. reflexivity.
Defined.

(** X5. When every draw lies in [[0, 1)], every bar of
    [generateSampleData] has a whole volume from 1,000,000 up to, but not
    including, 6,000,000. *)
Theorem generateSampleData_volume_range :
  forall (rand : nat -> Q) (now : Z) (days : nat),
    random_draws rand ->
    Forall volume_ok (generateSampleData rand now days).
Proof.
  intros rand now days Hrand.
  destruct (generateSampleData_loop rand now days) as (g0 & Hnil & ->).
  apply sample_loop_volume; [exact Hrand|]. rewrite Hnil. constructor.
Qed.

Lemma generateSampleData_volume_range_witness :
  Forall volume_ok (generateSampleData (fun _ => 1 # 2) 1700000000000 3).
Proof.
  apply generateSampleData_volume_range.
  intros k. split; [discriminate | reflexivity].
Defined.

(* ------------------------------------------------------------------ *)
(** ** Relative strength index *)

Lemma rsi_gains_length (data : list MarketData) :
  length (rsi_gains data) = (length data - 1)%nat.
Proof. unfold rsi_gains. now rewrite length_map, length_seq. Qed.

Lemma rsi_losses_length (data : list MarketData) :
  length (rsi_losses data) = (length data - 1)%nat.
Proof. unfold rsi_losses. now rewrite length_map, length_seq. Qed.

Lemma calculateRSI_length (data : list MarketData) (period : nat) :
  length (calculateRSI data period) = Nat.max 1 (length data).
Proof.
  unfold calculateRSI. cbv zeta.
  rewrite length_app, repeat_length. cbn [length].
  rewrite length_map, length_seq, rsi_gains_length. lia.
Qed.

(** X6. The series of [calculateRSI] is as long as the bar sequence,
    except on an empty sequence, where it is the single entry 50; inside
    [backtest] the series fitted to the valid bars always has their
    length. *)
Theorem calculateRSI_length_and_empty_case :
  forall (data : list MarketData) (period : nat),
    length (calculateRSI data period) = Nat.max 1 (length data) /\
    calculateRSI [] period = [50] /\
    (data <> [] -> length (calculateRSI data period) = length data).
Proof.
  intros data period. split; [apply calculateRSI_length|]. split; [reflexivity|].
  intros Hne. rewrite calculateRSI_length.
  destruct data; [congruence | cbn [length]; lia].
Qed.

Lemma calculateRSI_length_and_empty_case_witness :
  length (calculateRSI rise_fall_bars 14) = 20%nat.
Proof.
  destruct (calculateRSI_length_and_empty_case rise_fall_bars 14) as (_ & _ & H).
  rewrite H; [reflexivity | discriminate].
Defined.

Lemma Qsum_nonneg (xs : list Q) : Forall (fun x => 0 <= x) xs -> 0 <= Qsum xs.
Proof.
  induction 1 as [|x xs Hx _ IH]; [discriminate|].
  rewrite Qsum_cons. lra.
Qed.

Lemma Qsum_zero (xs : list Q) : Forall (fun x => x == 0) xs -> Qsum xs == 0.
Proof.
  induction 1 as [|x xs Hx _ IH]; [reflexivity|].
  rewrite Qsum_cons, Hx, IH. reflexivity.
Qed.

Lemma Qsum_pos (xs : list Q) :
  xs <> [] -> Forall (fun x => 0 < x) xs -> 0 < Qsum xs.
Proof.
  intros Hne H. destruct H as [|x xs Hx Hxs]; [congruence|].
  rewrite Qsum_cons.
  assert (0 <= Qsum xs).
  { apply Qsum_nonneg. eapply Forall_impl; [|exact Hxs].
    intros y Hy. cbv beta in Hy |- *. lra. }
  lra.
Qed.

Lemma Forall_slice {A} (P : A -> Prop) (xs : list A) (from to : nat) :
  Forall P xs -> Forall P (slice xs from to).
Proof.
  intros H. unfold slice. apply Forall_forall. intros x Hin.
  rewrite Forall_forall in H. apply H.
  rewrite <- (firstn_skipn from xs). apply in_or_app. right.
  rewrite <- (firstn_skipn (to - from) (skipn from xs)). apply in_or_app. now left.
Qed.

Lemma rsi_gains_nonneg (data : list MarketData) :
  Forall (fun x => 0 <= x) (rsi_gains data).
Proof.
  unfold rsi_gains. apply Forall_forall. intros x Hin.
  apply in_map_iff in Hin. destruct Hin as (i & <- & _). cbv zeta.
  destruct (Qgtb (price_change data i) 0) eqn:E; reflect_Q; lra.
Qed.

Lemma rsi_losses_nonneg (data : list MarketData) :
  Forall (fun x => 0 <= x) (rsi_losses data).
Proof.
  unfold rsi_losses. apply Forall_forall. intros x Hin.
  apply in_map_iff in Hin. destruct Hin as (i & <- & _). cbv zeta.
  destruct (Qltb (price_change data i) 0) eqn:E; [apply Qabs_nonneg | lra].
Qed.

Lemma nat2Q_pos (n : nat) : (1 <= n)%nat -> 0 < nat2Q n.
Proof. intros H. change 0 with (nat2Q 0). apply nat2Q_lt. lia. Qed.

(** One value of the index from averages that are not negative. *)
Lemma rsi_at_range (gains losses : list Q) (period i : nat) :
  (1 <= period)%nat ->
  Forall (fun x => 0 <= x) gains -> Forall (fun x => 0 <= x) losses ->
  0 <= rsi_at gains losses period i <= 100.
Proof.
  intros Hp Hg Hl. unfold rsi_at.
  destruct (i <? period - 1)%nat; [lra|]. cbv zeta.
  pose proof (nat2Q_pos period Hp) as Hpos.
  set (g := Qsum (slice gains _ _)). set (l := Qsum (slice losses _ _)).
  assert (Hg0 : 0 <= g) by (apply Qsum_nonneg, Forall_slice, Hg).
  assert (Hl0 : 0 <= l) by (apply Qsum_nonneg, Forall_slice, Hl).
  assert (Hag : 0 <= g / nat2Q period) by (apply Qle_shift_div_l; lra).
  assert (Hal : 0 <= l / nat2Q period) by (apply Qle_shift_div_l; lra).
  destruct (Qeq_bool (l / nat2Q period) 0) eqn:E; [lra|]. reflect_Q.
  assert (Hal' : 0 < l / nat2Q period) by lra.
  assert (Hrs : 0 <= g / nat2Q period / (l / nat2Q period))
    by (apply Qle_shift_div_l; lra).
  set (rs := g / nat2Q period / (l / nat2Q period)) in *.
  assert (H1 : 0 <= 100 / (1 + rs)) by (apply Qle_shift_div_l; lra).
  assert (H2 : 100 / (1 + rs) <= 100) by (apply Qle_shift_div_r; lra).
  lra.
Qed.

(** X7. In exact arithmetic, for a period of at least 1, every entry of
    [calculateRSI] lies in [[0, 100]] (window sums that overflow on
    doubles are outside the statement). *)
Theorem calculateRSI_between_0_and_100 :
  forall (data : list MarketData) (period : nat),
    (1 <= period)%nat ->
    Forall (fun r => 0 <= r <= 100) (calculateRSI data period).
Proof.
  intros data period Hp. unfold calculateRSI. cbv zeta.
  apply Forall_app. split; [constructor; [lra|]|].
  - apply Forall_forall. intros r Hin. apply in_map_iff in Hin.
    destruct Hin as (i & <- & _).
    apply rsi_at_range; [exact Hp | apply rsi_gains_nonneg | apply rsi_losses_nonneg].
  - apply Forall_forall. intros r Hin. apply repeat_spec in Hin. subst r. lra.
Qed.

Lemma calculateRSI_between_0_and_100_witness :
  Forall (fun r => 0 <= r <= 100) (calculateRSI rise_fall_bars 14).
Proof.
  apply calculateRSI_between_0_and_100. lia.
Defined.

(** The entry of the series at an index from 1 on. *)
Lemma calculateRSI_nth (data : list MarketData) (period i : nat) :
  (S i < length data)%nat ->
  nth_error (calculateRSI data period) (S i)
  = Some (rsi_at (rsi_gains data) (rsi_losses data) period i).
Proof.
  intros Hi. unfold calculateRSI. cbv zeta.
  rewrite nth_error_app1.
  - cbn [nth_error]. apply nth_error_map_seq. rewrite rsi_gains_length. lia.
  - cbn [length]. rewrite length_map, length_seq, rsi_gains_length. lia.
Qed.

(** X8. The entries of [calculateRSI] at the indices below the period
    are the neutral 50: the first computed value stands at index
    [period]. *)
Theorem calculateRSI_warm_up :
  forall (data : list MarketData) (period i : nat) (r : Q),
    (i < period)%nat ->
    nth_error (calculateRSI data period) i = Some r ->
    r = 50.
Proof.
  intros data period i r Hi Hr.
  destruct i as [|i]; [unfold calculateRSI in Hr; cbn in Hr; congruence|].
  destruct (Nat.lt_ge_cases (S i) (length data)) as [Hlt|Hge].
  - rewrite calculateRSI_nth in Hr by exact Hlt. inversion Hr. unfold rsi_at.
    destruct (Nat.ltb_spec i (period - 1)); [reflexivity | lia].
  - assert (Hlen : (S i < length (calculateRSI data period))%nat)
      by (apply nth_error_Some; congruence).
    rewrite calculateRSI_length in Hlen. lia.
Qed.

Lemma calculateRSI_warm_up_witness :
  nth_error (calculateRSI rise_fall_bars 14) 13 = Some 50.
Proof.
  destruct (nth_error (calculateRSI rise_fall_bars 14) 13) as [r|] eqn:E.
  - f_equal. apply (calculateRSI_warm_up rise_fall_bars 14 13 r); [lia | exact E].
  - vm_compute in E. discriminate E.
Defined.

Lemma price_change_step (data : list MarketData) (i : nat) :
  (1 <= i < length data)%nat ->
  exists a b, nth_error data (i - 1) = Some a /\ nth_error data i = Some b /\
              price_change data i = close b - close a.
Proof.
  intros Hi. unfold price_change.
  destruct (nth_error data i) as [b|] eqn:Eb;
    [|apply nth_error_None in Eb; lia].
  destruct (nth_error data (i - 1)) as [a|] eqn:Ea;
    [|apply nth_error_None in Ea; lia].
  now exists a, b.
Qed.

Lemma price_change_sign (data : list MarketData) (i : nat) :
  (1 <= i < length data)%nat ->
  (never_falls data -> 0 <= price_change data i) /\
  (always_falls data -> price_change data i < 0).
Proof.
  intros Hi. destruct (price_change_step data i Hi) as (a & b & Ha & Hb & ->).
  replace i with (S (i - 1)) in Hb by lia.
  split; intros H; specialize (H _ _ _ Ha Hb); lra.
Qed.

Lemma rsi_losses_never_falls (data : list MarketData) :
  never_falls data -> Forall (fun x => x == 0) (rsi_losses data).
Proof.
  intros H. unfold rsi_losses. apply Forall_forall. intros x Hin.
  apply in_map_iff in Hin. destruct Hin as (i & <- & Hi). apply in_seq in Hi.
  cbv zeta. destruct (price_change_sign data i ltac:(lia)) as [Hs _].
  specialize (Hs H).
  destruct (Qltb (price_change data i) 0) eqn:E; reflect_Q; [lra | reflexivity].
Qed.

Lemma rsi_gains_always_falls (data : list MarketData) :
  always_falls data -> Forall (fun x => x == 0) (rsi_gains data).
Proof.
  intros H. unfold rsi_gains. apply Forall_forall. intros x Hin.
  apply in_map_iff in Hin. destruct Hin as (i & <- & Hi). apply in_seq in Hi.
  cbv zeta. destruct (price_change_sign data i ltac:(lia)) as [_ Hs].
  specialize (Hs H).
  destruct (Qgtb (price_change data i) 0) eqn:E; reflect_Q; [lra | reflexivity].
Qed.

Lemma rsi_losses_always_falls (data : list MarketData) :
  always_falls data -> Forall (fun x => 0 < x) (rsi_losses data).
Proof.
  intros H. unfold rsi_losses. apply Forall_forall. intros x Hin.
  apply in_map_iff in Hin. destruct Hin as (i & <- & Hi). apply in_seq in Hi.
  cbv zeta. destruct (price_change_sign data i ltac:(lia)) as [_ Hs].
  specialize (Hs H).
  destruct (Qltb (price_change data i) 0) eqn:E; reflect_Q; [|lra].
  rewrite Qabs_neg by lra. lra.
Qed.

Lemma slice_nonempty {A} (xs : list A) (from to : nat) :
  (from < to)%nat -> (from < length xs)%nat -> slice xs from to <> [].
Proof.
  intros Hft Hlen E. apply (f_equal (@length A)) in E. unfold slice in E.
  rewrite length_firstn, length_skipn in E. cbn [length] in E. lia.
Qed.

(** X9. For a period of at least 1, on closes that never fall from one
    bar to the next every entry of [calculateRSI] from index [period] on
    is 100. *)
Theorem calculateRSI_never_falling_is_100 :
  forall (data : list MarketData) (period i : nat),
    (1 <= period)%nat -> never_falls data ->
    (period <= i < length data)%nat ->
    nth_error (calculateRSI data period) i = Some 100.
Proof.
  intros data period i Hp Hup Hi.
  destruct i as [|i]; [lia|].
  rewrite calculateRSI_nth by lia. f_equal. unfold rsi_at.
  destruct (Nat.ltb_spec i (period - 1)); [lia|]. cbv zeta.
  assert (E : Qsum (slice (rsi_losses data) (i + 1 - period) (i + 1))
              / nat2Q period == 0).
  { rewrite Qsum_zero; [reflexivity|].
    apply Forall_slice. now apply rsi_losses_never_falls. }
  apply Qeq_bool_iff in E. now rewrite E.
Qed.

Lemma calculateRSI_never_falling_is_100_witness :
  nth_error (calculateRSI (flat_bars 16) 14) 15 = Some 100.
Proof.
  apply calculateRSI_never_falling_is_100.
  - lia.
  - intros j a b Ha Hb.
    assert (Hall : Forall (fun d => close d == 100) (flat_bars 16))
      by (repeat constructor).
    rewrite Forall_forall in Hall.
    rewrite (Hall a (nth_error_In _ _ Ha)), (Hall b (nth_error_In _ _ Hb)).
    discriminate.
  - vm_compute. lia.
Defined.

(** X10. For a period of at least 1, on closes that fall at every bar
    every entry of [calculateRSI] from index [period] on is 0 (the value
    that the signal loop then reads as the neutral 50). *)
Theorem calculateRSI_always_falling_is_0 :
  forall (data : list MarketData) (period i : nat),
    (1 <= period)%nat -> always_falls data ->
    (period <= i < length data)%nat ->
    exists r, nth_error (calculateRSI data period) i = Some r /\ r == 0.
Proof.
  intros data period i Hp Hdown Hi.
  destruct i as [|i]; [lia|].
  rewrite calculateRSI_nth by lia. eexists. split; [reflexivity|].
  unfold rsi_at. destruct (Nat.ltb_spec i (period - 1)); [lia|]. cbv zeta.
  pose proof (nat2Q_pos period Hp) as Hpos.
  assert (Eg : Qsum (slice (rsi_gains data) (i + 1 - period) (i + 1)) == 0).
  { apply Qsum_zero, Forall_slice. now apply rsi_gains_always_falls. }
  assert (Hl : 0 < Qsum (slice (rsi_losses data) (i + 1 - period) (i + 1))).
  { apply Qsum_pos.
    - apply slice_nonempty; [lia|]. rewrite rsi_losses_length. lia.
    - apply Forall_slice. now apply rsi_losses_always_falls. }
  set (l := Qsum (slice (rsi_losses data) _ _)) in *.
  assert (Hal : 0 < l / nat2Q period) by (apply Qlt_shift_div_l; lra).
  assert (E : Qeq_bool (l / nat2Q period) 0 = false)
    by (apply Qeq_bool_false; lra).
  rewrite E, Eg. field. split; lra.
Qed.

Lemma calculateRSI_always_falling_is_0_witness :
  exists r, nth_error (calculateRSI (bars_of [5; 4; 3; 2; 1]) 2) 3 = Some r /\
            r == 0.
Proof.
  apply calculateRSI_always_falling_is_0.
  - lia.
  - intros [|[|[|[|[|j]]]]] a b Ha Hb; cbn in Ha, Hb;
      try discriminate; inversion Ha; inversion Hb; subst; reflexivity.
  - vm_compute. lia.
Defined.

(* ------------------------------------------------------------------ *)
(** ** Moving average: bounds *)

Lemma Qsum_bounds (lo hi : Q) (xs : list Q) :
  Forall (fun x => lo <= x <= hi) xs ->
  lo * nat2Q (length xs) <= Qsum xs <= hi * nat2Q (length xs).
Proof.
  induction 1 as [|x xs Hx _ IH].
  - change (nat2Q (length [])) with 0. unfold Qsum. cbn [fold_left]. lra.
  - rewrite Qsum_cons. cbn [length]. rewrite nat2Q_S. lra.
Qed.

Lemma mean_bounds (lo hi : Q) (xs : list Q) :
  xs <> [] -> Forall (fun x => lo <= x <= hi) xs -> lo <= mean xs <= hi.
Proof.
  intros Hne H. pose proof (Qsum_bounds lo hi xs H) as [H1 H2].
  unfold mean. destruct xs as [|x xs]; [congruence|].
  pose proof (nat2Q_S_pos (length xs)) as Hpos. cbn [length] in *.
  split; [apply Qle_shift_div_l | apply Qle_shift_div_r]; lra.
Qed.

Lemma window_Forall (P : MarketData -> Prop) (data : list MarketData) (w i : nat) :
  Forall P data -> Forall P (window data w i).
Proof.
  intros H. unfold window. apply Forall_forall. intros x Hin.
  rewrite Forall_forall in H. apply H.
  rewrite <- (firstn_skipn (i + 1 - w) data). apply in_or_app. right.
  rewrite <- (firstn_skipn w (skipn (i + 1 - w) data)). apply in_or_app. now left.
Qed.

Lemma window_length (data : list MarketData) (w i : nat) :
  (w <= i + 1)%nat -> (i < length data)%nat -> length (window data w i) = w.
Proof.
  intros Hw Hi. unfold window. rewrite length_firstn, length_skipn. lia.
Qed.

Lemma valid_closes_all (bars : list MarketData) :
  Forall (fun d => 0 < close d) bars -> valid_closes bars = map close bars.
Proof.
  intros H. unfold valid_closes. apply filter_all.
  apply Forall_forall. intros c Hin. apply in_map_iff in Hin.
  destruct Hin as (d & <- & Hd). rewrite Forall_forall in H.
  apply Qgtb_gt. now apply H.
Qed.

Lemma ceiling_positive (period : Q) : 0 < period -> (1 <= Z.to_nat (Qceiling period))%nat.
Proof.
  intros H. pose proof (Qle_ceiling period) as Hc.
  assert (Hz : inject_Z 0 < inject_Z (Qceiling period)).
  { change (inject_Z 0) with 0. lra. }
  rewrite <- Zlt_Qlt in Hz. lia.
Qed.

(** From index [period - 1] on, the moving average of bars whose closes
    lie in [[lo, hi]], with [lo] positive, lies in [[lo, hi]]. *)
Lemma ma_at_within (data : list MarketData) (period lo hi : Q) (i : nat) :
  0 < lo -> closes_within lo hi data ->
  0 < period -> period - 1 <= nat2Q i -> (i < length data)%nat ->
  lo <= ma_at data period i <= hi.
Proof.
  intros Hlo Hin Hp Hi Hlen.
  rewrite (ma_at_code data period i Hlen). unfold movingAverage_code.
  rewrite (proj2 (Qltb_ge _ _) Hi).
  pose proof (ceiling_le_index period i Hi) as Hw.
  pose proof (ceiling_positive period Hp) as Hw1.
  set (w := Z.to_nat (Qceiling period)) in *.
  assert (Hwin : Forall (fun d => lo <= close d <= hi) (window data w i))
    by (apply window_Forall, Hin).
  rewrite valid_closes_all.
  - apply mean_bounds.
    + intros E. apply (f_equal (@length Q)) in E.
      rewrite length_map, window_length in E by assumption. cbn in E. lia.
    + apply Forall_forall. intros c Hc. apply in_map_iff in Hc.
      destruct Hc as (d & <- & Hd). rewrite Forall_forall in Hwin. now apply Hwin.
  - eapply Forall_impl; [|exact Hwin]. intros d Hd. cbv beta in Hd. lra.
Qed.

(** X11. In exact arithmetic, when every close lies in [[lo, hi]] with
    [lo] positive, every entry of [calculateMA] from index [period - 1]
    on, for a positive period, lies in [[lo, hi]]: past the warm-up the
    average of valid bars is never the placeholder 0 (the rounding of
    the mean on doubles, which can leave the range by an ulp, is outside
    the statement). *)
Theorem calculateMA_within_the_closes :
  forall (data : list MarketData) (period lo hi : Q) (i : nat),
    0 < lo -> closes_within lo hi data ->
    0 < period -> period - 1 <= nat2Q i -> (i < length data)%nat ->
    exists v, nth_error (calculateMA data period) i = Some v /\ lo <= v <= hi.
Proof.
  intros data period lo hi i Hlo Hin Hp Hi Hlen.
  exists (ma_at data period i). split.
  - unfold calculateMA. now apply nth_error_map_seq.
  - now apply ma_at_within.
Qed.

Lemma calculateMA_within_the_closes_witness :
  exists v, nth_error (calculateMA (bars_of [10; 20; 30; 40]) 3) 2 = Some v /\
            10 <= v <= 40.
Proof.
  apply calculateMA_within_the_closes.
  - reflexivity.
  - repeat constructor; discriminate.
  - reflexivity.
  - discriminate.
  - vm_compute. lia.
Defined.

(* ------------------------------------------------------------------ *)
(** ** Metrics calculator: returns and drawdowns *)

Lemma total_return_of_finite_curve (x : Q) (rest : list Q) :
  ~ x == 0 -> ~ last (x :: rest) 0 == 0 ->
  total_return_code (map Fin (x :: rest))
  = Fin (10 + (last (x :: rest) 0 + - x) / x * 100).
Proof.
  intros Hx Hy. unfold total_return_code, final_of, initial_of.
  rewrite last_map_Fin. cbn [map truthy].
  apply Qeq_bool_false in Hx. apply Qeq_bool_false in Hy.
  rewrite Hx, Hy. cbn [negb nsub nneg nadd ndiv]. rewrite Hx. reflexivity.
Qed.

(** X12. On a curve of finite entries that starts above 0 and does not
    end at 0, the reported [total_return] is at least 10 exactly when the
    last entry is not below the first: a loss is reported as less than
    10, not floored. *)
Theorem total_return_at_least_10_iff_no_loss :
  forall (x : Q) (rest : list Q) (trades : list Trade),
    0 < x -> ~ last (x :: rest) 0 == 0 ->
    (num_le (Fin 10) (total_return (calculateMetrics (map Fin (x :: rest)) trades))
     <-> x <= last (x :: rest) 0).
Proof.
  intros x rest trades Hx Hy.
  rewrite calculateMetrics_total_return, total_return_of_finite_curve;
    [|lra | exact Hy].
  rewrite num_le_Fin. set (y := last (x :: rest) 0) in *.
  assert (E : (y + - x) / x * x == y - x) by (field; lra).
  split; intros H.
  - assert (H0 : 0 <= (y + - x) / x) by lra.
    assert (0 <= (y + - x) / x * x) by (apply Qmult_le_0_compat; lra). lra.
  - assert (H0 : 0 <= (y + - x) / x) by (apply Qle_shift_div_l; lra). lra.
Qed.

Lemma total_return_at_least_10_iff_no_loss_witness :
  ~ num_le (Fin 10)
      (total_return (calculateMetrics (map Fin [100000; 101250; 98750]) [])).
Proof.
  intros H.
  apply (total_return_at_least_10_iff_no_loss 100000 [101250; 98750] []) in H.
  - cbn in H. revert H. apply Qlt_not_le. reflexivity.
  - reflexivity.
  - cbn. discriminate.
Defined.

Lemma is_zero_add (a b : num) : is_zero a -> is_zero b -> is_zero (nadd a b).
Proof.
  intros (p & -> & Hp) (q & -> & Hq). exists (p + q). split; [reflexivity|].
  rewrite Hp, Hq. reflexivity.
Qed.

Lemma nsum_is_zero (xs : list num) :
  Forall is_zero xs -> forall acc, is_zero acc -> is_zero (fold_left nadd xs acc).
Proof.
  induction 1 as [|x xs Hx _ IH]; intros acc Hacc; cbn [fold_left]; [exact Hacc|].
  apply IH. now apply is_zero_add.
Qed.

Lemma sumsq_is_zero (a : Q) (xs : list num) :
  a == 0 -> Forall is_zero xs ->
  forall acc, is_zero acc ->
    is_zero (fold_left (fun sum r => nadd sum (Math_pow2 (nsub r (Fin a)))) xs acc).
Proof.
  intros Ha. induction 1 as [|x xs Hx _ IH]; intros acc Hacc; cbn [fold_left];
    [exact Hacc|].
  apply IH. apply is_zero_add; [exact Hacc|].
  destruct Hx as (r & -> & Hr). eexists. split; [reflexivity|].
  rewrite Hr, Ha. reflexivity.
Qed.

Lemma Qsqrt_zero (v : Q) : v == 0 -> Qsqrt v == 0.
Proof.
  intros H. unfold Qeq in H. cbn in H. rewrite Z.mul_1_r in H.
  unfold Qsqrt. rewrite H. reflexivity.
Qed.

(** Returns that are all zero give no Sharpe ratio of their own. *)
Lemma sharpe_of_zero_returns (rs : list num) :
  Forall is_zero rs ->
  (let len := Fin (nat2Q (length rs)) in
   let avg_return := ndiv (nsum rs) len in
   let std_return :=
     Math_sqrt
       (ndiv (fold_left (fun sum r => nadd sum (Math_pow2 (nsub r avg_return)))
                        rs (Fin 0))
             len) in
   if ngtb std_return (Fin 0)
   then nmul (ndiv avg_return std_return) (Math_sqrt (Fin 252))
   else Fin 0) = Fin 0.
Proof.
  intros Hrs. cbv zeta.
  destruct rs as [|r rs]; [reflexivity|].
  cbn [length] in *. rewrite !ndiv_by_length.
  assert (Hsum : is_zero (nsum (r :: rs))).
  { apply nsum_is_zero; [exact Hrs|]. exists 0. split; reflexivity. }
  destruct Hsum as (s & Es & Hs). rewrite Es.
  assert (Ha : s / nat2Q (S (length rs)) == 0) by (rewrite Hs; reflexivity).
  assert (Hss : is_zero (fold_left
            (fun sum x => nadd sum (Math_pow2 (nsub x (Fin (s / nat2Q (S (length rs)))))))
            (r :: rs) (Fin 0))).
  { apply sumsq_is_zero; [exact Ha | exact Hrs|]. exists 0. split; reflexivity. }
  destruct Hss as (v & -> & Hv).
  assert (Hv' : v / nat2Q (S (length rs)) == 0) by (rewrite Hv; reflexivity).
  unfold Math_sqrt. rewrite (proj2 (Qltb_ge _ _)) by lra.
  cbn [ngtb]. rewrite (proj2 (Qgtb_le _ _)); [reflexivity|].
  rewrite (Qsqrt_zero _ Hv'). lra.
Qed.

Lemma flat_daily_returns (c : Q) (curve : list Q) :
  ~ c == 0 -> Forall (fun e => e == c) curve ->
  Forall is_zero (daily_returns (map Fin curve)).
Proof.
  intros Hc Hflat. unfold daily_returns. apply Forall_forall. intros r Hin.
  apply in_map_iff in Hin. destruct Hin as (i & <- & Hi). apply in_seq in Hi.
  rewrite length_map in Hi. rewrite !nth_error_map.
  destruct (nth_error curve i) as [a|] eqn:Ea;
    [|apply nth_error_None in Ea; lia].
  destruct (nth_error curve (i - 1)) as [b|] eqn:Eb;
    [|apply nth_error_None in Eb; lia].
  cbn [option_map nsub nneg nadd ndiv].
  rewrite Forall_forall in Hflat.
  pose proof (Hflat a (nth_error_In _ _ Ea)) as Ha.
  pose proof (Hflat b (nth_error_In _ _ Eb)) as Hb. cbv beta in Ha, Hb.
  assert (E : Qeq_bool b 0 = false) by (apply Qeq_bool_false; lra).
  rewrite E. eexists. split; [reflexivity|]. rewrite Ha, Hb. field. exact Hc.
Qed.

Lemma flat_drawdown (c : Q) (curve : list Q) :
  ~ c == 0 -> Forall (fun e => e == c) curve ->
  forall p, p == c ->
    snd (fold_left drawdown_step (map Fin curve) (Fin p, Fin 0)) = Fin 0.
Proof.
  intros Hc. induction 1 as [|e curve He _ IH]; intros p Hp; [reflexivity|].
  cbn [map fold_left]. unfold drawdown_step at 2. cbn [fst snd ngtb].
  rewrite (proj2 (Qgtb_le e p)) by lra.
  cbn [nsub nneg nadd ndiv].
  assert (E : Qeq_bool p 0 = false) by (apply Qeq_bool_false; lra).
  rewrite E. cbn [nmul ngtb].
  rewrite (proj2 (Qgtb_le _ 0)).
  - now apply IH.
  - rewrite He, Hp. assert (H : (c + - c) / c * 100 == 0) by (field; exact Hc). lra.
Qed.

Lemma flat_total_return (c : Q) (curve : list Q) :
  ~ c == 0 -> Forall (fun e => e == c) curve ->
  num_eq (total_return_code (map Fin curve)) (Fin 10).
Proof.
  intros Hc H. destruct curve as [|x l]; [reflexivity|].
  pose proof (Forall_last _ x l H) as Hy. cbv beta in Hy.
  assert (Hx : x == c) by now inversion H.
  rewrite total_return_of_finite_curve by lra.
  cbn [num_eq]. rewrite Hy, Hx. field. exact Hc.
Qed.

(** X13. A curve of finite entries that never moves from a value other
    than 0 (in particular an empty or one-entry curve) reports a
    [sharpe_ratio] of exactly 1, a [total_return] of 10 and a
    [max_drawdown] of 0, whatever the trades. *)
Theorem flat_curve_metrics :
  forall (c : Q) (curve : list Q) (trades : list Trade),
    ~ c == 0 -> Forall (fun e => e == c) curve ->
    let m := calculateMetrics (map Fin curve) trades in
    sharpe_ratio m = Fin 1 /\
    num_eq (total_return m) (Fin 10) /\
    num_eq (max_drawdown m) (Fin 0).
Proof.
  intros c curve trades Hc Hflat m. subst m. split; [|split].
  - unfold calculateMetrics.
    destruct (count_pairs trades) as [completed wins].
    destruct (durations trades) as [total count]. cbn [sharpe_ratio].
    unfold actual_sharpe. cbv zeta.
    pose proof (sharpe_of_zero_returns _ (flat_daily_returns c curve Hc Hflat)) as H.
    cbv zeta in H. rewrite H. reflexivity.
  - rewrite calculateMetrics_total_return. now apply (flat_total_return c).
  - unfold calculateMetrics.
    destruct (count_pairs trades) as [completed wins].
    destruct (durations trades) as [total count]. cbn [max_drawdown].
    unfold raw_max_drawdown.
    destruct curve as [|x l]; [reflexivity|]. cbn [map hd].
    change (Fin x :: map Fin l) with (map Fin (x :: l)).
    rewrite (flat_drawdown c (x :: l) Hc Hflat x); [reflexivity|].
    now inversion Hflat.
Qed.

Lemma flat_curve_metrics_witness :
  sharpe_ratio (calculateMetrics (map Fin [100000; 100000; 100000]) []) = Fin 1.
Proof.
  apply (flat_curve_metrics 100000 [100000; 100000; 100000] []).
  - discriminate.
  - repeat constructor.
Defined.

Lemma nondecreasing_drawdown (curve : list Q) :
  forall p, 0 < p -> Forall (fun e => p <= e) curve -> nondecreasing curve ->
    snd (fold_left drawdown_step (map Fin curve) (Fin p, Fin 0)) = Fin 0.
Proof.
  induction curve as [|e curve IH]; intros p Hp Hge Hsorted; [reflexivity|].
  destruct Hsorted as [Hnext Hsorted].
  assert (Hpe : p <= e) by now inversion Hge.
  cbn [map fold_left]. unfold drawdown_step at 2. cbn [fst snd ngtb].
  destruct (Qgtb e p) eqn:E; reflect_Q; cbn [nsub nneg nadd ndiv].
  - assert (E0 : Qeq_bool e 0 = false) by (apply Qeq_bool_false; lra).
    rewrite E0. cbn [nmul ngtb]. rewrite (proj2 (Qgtb_le _ 0)).
    + apply IH; [lra | exact Hnext | exact Hsorted].
    + assert (H : (e + - e) / e * 100 == 0) by (field; lra). lra.
  - assert (E0 : Qeq_bool p 0 = false) by (apply Qeq_bool_false; lra).
    rewrite E0. cbn [nmul ngtb]. rewrite (proj2 (Qgtb_le _ 0)).
    + apply IH; [exact Hp | | exact Hsorted].
      eapply Forall_impl; [|exact Hnext]. intros y Hy. cbv beta in Hy. lra.
    + assert (Hep : e == p) by lra.
      rewrite Hep. assert (H : (p + - p) / p * 100 == 0) by (field; lra). lra.
Qed.

(** X14. A curve of positive finite entries that never falls reports a
    [max_drawdown] of 0. *)
Theorem rising_curve_has_no_drawdown :
  forall (curve : list Q) (trades : list Trade),
    Forall (fun e => 0 < e) curve -> nondecreasing curve ->
    num_eq (max_drawdown (calculateMetrics (map Fin curve) trades)) (Fin 0).
Proof.
  intros curve trades Hpos Hsorted. unfold calculateMetrics.
  destruct (count_pairs trades) as [completed wins].
  destruct (durations trades) as [total count]. cbn [max_drawdown].
  unfold raw_max_drawdown.
  destruct curve as [|x l]; [reflexivity|]. cbn [map hd].
  change (Fin x :: map Fin l) with (map Fin (x :: l)).
  rewrite (nondecreasing_drawdown (x :: l) x); [reflexivity | | | exact Hsorted].
  - now inversion Hpos.
  - constructor; [lra | apply Hsorted].
Qed.

Lemma rising_curve_has_no_drawdown_witness :
  num_eq (max_drawdown (calculateMetrics (map Fin [100000; 100000; 101250]) []))
         (Fin 0).
Proof.
  apply rising_curve_has_no_drawdown.
  - repeat constructor.
  - cbn. repeat split; repeat constructor; discriminate.
Defined.

(* ------------------------------------------------------------------ *)
(** ** Metrics calculator: the trade log *)

Lemma win_rate_of_count (equity_curve : list num) (log : list Trade) :
  win_rate (calculateMetrics equity_curve log)
  = Fin (Qmin 75 (Qmax 60
      ((if (0 <? fst (count_pairs log))%nat
        then nat2Q (snd (count_pairs log)) / nat2Q (fst (count_pairs log)) * 100
        else 0) + 10))).
Proof.
  unfold calculateMetrics. destruct (count_pairs log) as [completed wins].
  destruct (durations log) as [total count]. reflexivity.
Qed.

(** X15. When the log holds no completed BUY-to-SELL pair the reported
    [win_rate] is 60; a log of fewer than two trades is such a log, and
    its [avg_trade_duration] is 0. *)
Theorem no_completed_trade_metrics :
  forall (equity_curve : list num) (log : list Trade),
    let m := calculateMetrics equity_curve log in
    (num_trades m = 0%nat -> win_rate m = Fin 60) /\
    ((length log < 2)%nat ->
     num_trades m = 0%nat /\ avg_trade_duration m = Fin 0).
Proof.
  intros equity_curve log m. subst m. split.
  - rewrite num_trades_count_pairs, win_rate_of_count. intros ->. reflexivity.
  - intros Hlen. rewrite num_trades_count_pairs.
    destruct log as [|t [|t' log]]; cbn [length] in Hlen; try lia;
      (split; [reflexivity|]); unfold calculateMetrics;
      destruct (count_pairs _) as [completed wins]; reflexivity.
Qed.

Lemma no_completed_trade_metrics_witness :
  win_rate (calculateMetrics [] []) = Fin 60 /\
  avg_trade_duration (calculateMetrics [] []) = Fin 0.
Proof.
  destruct (no_completed_trade_metrics [] []) as [Hw Hs].
  destruct Hs as [Hn Hd]; [cbn; lia|].
  split; [apply Hw; exact Hn | exact Hd].
Defined.

Lemma div2_step (m : nat) :
  Nat.div2 (S (S m)) = (Nat.div2 (S m) + if Nat.even m then 1 else 0)%nat.
Proof.
  assert (H : forall k,
    Nat.div2 (S (S k)) = (Nat.div2 (S k) + if Nat.even k then 1 else 0)%nat /\
    Nat.div2 (S (S (S k)))
      = (Nat.div2 (S (S k)) + if Nat.even (S k) then 1 else 0)%nat).
  { induction k as [|k [IH1 IH2]]; [split; reflexivity|].
    split; [exact IH2|].
    change (Nat.even (S (S k))) with (Nat.even k).
    change (Nat.div2 (S (S (S (S k))))) with (S (Nat.div2 (S (S k)))).
    change (Nat.div2 (S (S (S k)))) with (S (Nat.div2 (S k))).
    rewrite IH1. lia. }
  apply H.
Qed.

(** The completed pairs among the first [m] neighbours of a log that
    alternates from a BUY. *)
Lemma count_pairs_prefix (log : list Trade) :
  alternates log ->
  forall m, (m <= length log - 1)%nat ->
    fst (fold_left
      (fun (acc : nat * nat) (i : nat) =>
         match nth_error log i, nth_error log (i + 1) with
         | Some current, Some next =>
             if TradeType_eqb (trade_type current) BUY
                && TradeType_eqb (trade_type next) SELL
             then (S (fst acc),
                   if Qgtb (price next) (price current)
                   then S (snd acc) else snd acc)
             else acc
         | _, _ => acc
         end) (seq 0 m) (O, O)) = Nat.div2 (S m).
Proof.
  intros Halt. induction m as [|m IH]; intros Hm; [reflexivity|].
  rewrite seq_S, fold_left_app. cbn [Nat.add fold_left].
  specialize (IH ltac:(lia)).
  destruct (fold_left _ (seq 0 m) (O, O)) as [completed wins].
  cbn [fst] in IH. subst completed.
  destruct (nth_error log m) as [current|] eqn:Ec;
    [|apply nth_error_None in Ec; lia].
  destruct (nth_error log (m + 1)) as [next|] eqn:En;
    [|apply nth_error_None in En; lia].
  rewrite (Halt m current Ec), (Halt (m + 1)%nat next En).
  rewrite Nat.add_1_r, Nat.even_succ, <- Nat.negb_even, div2_step.
  destruct (Nat.even m); cbn [negb TradeType_eqb andb fst]; lia.
Qed.

(** X16. For a log that alternates from a BUY and whose trades all carry
    a date, [num_trades] is half the length of the log, rounded down: a
    BUY left open at the end is not counted. *)
Theorem num_trades_of_alternating_log :
  forall (equity_curve : list num) (log : list Trade),
    alternates log -> trades_dated log ->
    num_trades (calculateMetrics equity_curve log) = (length log / 2)%nat.
Proof.
  intros equity_curve log Halt _. rewrite num_trades_count_pairs.
  unfold count_pairs. rewrite (count_pairs_prefix log Halt) by lia.
  rewrite <- Nat.div2_div. destruct log as [|t log]; [reflexivity|].
  cbn [length]. now rewrite Nat.sub_1_r.
Qed.

Lemma num_trades_of_alternating_log_witness :
  num_trades (calculateMetrics []
    [ {| trade_type := BUY; trade_date := Some 0%Z; price := 12; quantity := 1;
         holdTarget := Some 5; daysHeld := None |};
      {| trade_type := SELL; trade_date := Some 259200000%Z; price := 11;
         quantity := 1; holdTarget := None; daysHeld := Some 3 |};
      {| trade_type := BUY; trade_date := Some 345600000%Z; price := 10;
         quantity := 1; holdTarget := Some 5; daysHeld := None |} ]) = 1%nat.
Proof.
  apply num_trades_of_alternating_log.
  - intros [|[|[|i]]] t Ht; cbn in Ht;
      [| | | destruct i; discriminate Ht]; inversion Ht; reflexivity.
  - repeat constructor; discriminate.
Defined.

(* ------------------------------------------------------------------ *)
(** ** Backtest: signals that cannot fire *)

Lemma calculateMA_same_period (data : list MarketData) (p q : Q) :
  p == q -> calculateMA data p = calculateMA data q.
Proof.
  intros Hpq. unfold calculateMA. apply map_ext. intros i.
  unfold ma_at, ma_window, upto, Qltb.
  assert (E1 : Qle_bool (p - 1) (nat2Q i) = Qle_bool (q - 1) (nat2Q i))
    by now rewrite Hpq.
  assert (E2 : Qceiling p = Qceiling q) by now rewrite Hpq.
  now rewrite E1, E2.
Qed.

Lemma execute_idle (strategy : Strategy) (bar : MarketData) (i : Q)
    (bearish : bool) (held : Q) (s : Sim) :
  sim_idle s -> sim_idle (execute strategy bar i false bearish held s).
Proof.
  intros [Ht Hp]. unfold execute. cbv zeta. cbn [andb].
  assert (E : Qgtb (position s) 0 = false) by (rewrite Hp; reflexivity).
  rewrite E, andb_false_r. split; cbn [trades position]; assumption.
Qed.

Lemma signal_loop_equal_periods (strategy : Strategy)
    (validMarketData : list MarketData) :
  ma_short (parameters strategy) == ma_long (parameters strategy) ->
  sim_idle (signal_loop strategy validMarketData).
Proof.
  intros Heq. unfold signal_loop. cbv zeta.
  rewrite (calculateMA_same_period _ _ _ Heq).
  apply (for_from_invariant (fun _ => True) sim_idle); auto.
  - intros i s _ _ Hs. unfold signal_step.
    destruct (get validMarketData i) as [bar|]; [|exact Hs].
    destruct (get (calculateMA _ _) i) as [ml|]; [|exact Hs].
    destruct (Qeq_bool ml 0 || Qeq_bool ml 0); [exact Hs|]. cbv zeta.
    assert (E : Qgtb ml ml = false) by (apply Qgtb_le; lra).
    rewrite E. cbn [andb]. now apply execute_idle.
  - split; reflexivity.
Qed.

(** X17. When [ma_short] and [ma_long] are the same period the two
    averages never cross: the signal loop logs no trade, and every run
    that returns is a run of the forced trades. *)
Theorem equal_periods_force_the_fallback :
  forall (rnd : Q) (strategy : Strategy) (marketData : list MarketData) (r : Run),
    ma_short (parameters strategy) == ma_long (parameters strategy) ->
    backtest_run rnd strategy (Some marketData) = Ok r ->
    trades (signal_loop strategy (valid_bars marketData)) = [] /\
    run_forced r = true.
Proof.
  intros rnd strategy marketData r Heq Hrun.
  destruct (signal_loop_equal_periods strategy (valid_bars marketData) Heq)
    as [Ht _].
  split; [exact Ht|]. unfold backtest_run in Hrun.
  destruct marketData as [|b bars]; [discriminate|]. cbv zeta in Hrun.
  destruct (Qltb _ _); [discriminate|]. rewrite Ht in Hrun.
  cbn [length Nat.ltb Nat.leb] in Hrun.
  destruct (forced_trades rnd strategy _) as [[log st]|e]; [|discriminate].
  now inversion Hrun.
Qed.

Lemma equal_periods_force_the_fallback_witness :
  exists r, backtest_run 0 (strategy_of 14 14 30 (15 # 100)) (Some dip_peak_bars)
            = Ok r /\ run_forced r = true.
Proof.
  destruct (backtest_run 0 (strategy_of 14 14 30 (15 # 100)) (Some dip_peak_bars))
    as [r|e] eqn:E.
  - exists r. split; [reflexivity|].
    apply (equal_periods_force_the_fallback 0 (strategy_of 14 14 30 (15 # 100))
             dip_peak_bars r); [reflexivity | exact E].
  - vm_compute in E. discriminate E.
Defined.

(* ------------------------------------------------------------------ *)
(** ** Backtest: the minimum hold *)

Lemma get_some_nonneg {A} (l : list A) (i : Q) (x : A) :
  get l i = Some x -> 0 <= i.
Proof.
  unfold get. destruct (is_integer i) eqn:Hint; [|discriminate].
  intros H. apply is_integer_iff in Hint. destruct Hint as [z Hz].
  assert (Hf : Qfloor i = z) by (rewrite Hz; apply Qfloor_Z).
  rewrite Hf in H. unfold get_Z in H.
  destruct (Z.ltb_spec z 0) as [Hneg|Hpos]; [discriminate H|].
  rewrite Hz. change 0 with (inject_Z 0). now rewrite <- Zle_Qle.
Qed.

Lemma nth_error_snoc {A} (l : list A) (x y : A) (k : nat) :
  nth_error (l ++ [x]) k = Some y ->
  (k < length l)%nat /\ nth_error l k = Some y \/ k = length l /\ y = x.
Proof.
  intros H. destruct (Nat.lt_ge_cases k (length l)) as [Hlt|Hge].
  - left. split; [exact Hlt|]. now rewrite nth_error_app1 in H.
  - right. rewrite nth_error_app2 in H by exact Hge.
    destruct (k - length l)%nat as [|d] eqn:Ed.
    + split; [lia|]. now inversion H.
    + destruct d; discriminate H.
Qed.

Section MinHold.

Variable bars : list MarketData.

Lemma sells_close_snoc_BUY (log : list Trade) (t : Trade) :
  sells_close_a_hold bars log -> trade_type t = BUY ->
  sells_close_a_hold bars (log ++ [t]).
Proof.
  intros Hlog Ht k t' Hk Hsell.
  destruct (nth_error_snoc _ _ _ _ Hk) as [[Hlt Hold] | [_ ->]];
    [|congruence].
  destruct (Hlog k t' Hold Hsell) as (b & i & j & Hk1 & Hb & Hrest).
  exists b, i, j. split; [exact Hk1|]. split; [|exact Hrest].
  rewrite nth_error_app1 by lia. exact Hb.
Qed.

Lemma sells_close_snoc_SELL (pre : list Trade) (b t : Trade) (i j : Q) :
  sells_close_a_hold bars (pre ++ [b]) -> trade_type b = BUY ->
  logged_at bars i b -> logged_at bars j t ->
  i + MIN_HOLD_DAYS <= j -> daysHeld t = Some (j - i) ->
  quantity t = quantity b ->
  sells_close_a_hold bars ((pre ++ [b]) ++ [t]).
Proof.
  intros Hlog Hb Hi Hj Hheld Hdays Hq k t' Hk Hsell.
  destruct (nth_error_snoc _ _ _ _ Hk) as [[Hlt Hold] | [-> ->]].
  - destruct (Hlog k t' Hold Hsell) as (b' & i' & j' & Hk1 & Hb' & Hrest).
    exists b', i', j'. split; [exact Hk1|]. split; [|exact Hrest].
    rewrite nth_error_app1 by lia. exact Hb'.
  - exists b, i, j. rewrite length_app. cbn [length].
    split; [lia|]. split.
    + rewrite nth_error_app1 by (rewrite length_app; cbn [length]; lia).
      replace (length pre + 1 - 1)%nat with (length pre) by lia.
      rewrite nth_error_app2 by lia. now rewrite Nat.sub_diag.
    + repeat split; assumption.
Qed.

Variable strategy : Strategy.

Lemma signal_step_holding (ma_short_s ma_long_s rsi : list Q) (i : Q) (s : Sim) :
  holding_ok bars s ->
  holding_ok bars (signal_step strategy bars ma_short_s ma_long_s rsi i s).
Proof.
  intros [Hlog Hopen]. unfold signal_step.
  destruct (get bars i) as [bar|] eqn:Ebar; [|now split].
  destruct (get ma_short_s i) as [ms|]; [|now split].
  destruct (get ma_long_s i) as [ml|]; [|now split].
  destruct (Qeq_bool ms 0 || Qeq_bool ml 0); [now split|].
  cbv zeta. unfold execute. cbv zeta.
  destruct (_ && Qeq_bool (position s) 0) eqn:Ebuy.
  - (* BUY *)
    unfold holding_ok. cbn [trades position lastBuyIndex]. split.
    + apply sells_close_snoc_BUY; [exact Hlog | reflexivity].
    + intros _. eexists. eexists. split; [reflexivity|].
      split; [reflexivity|]. split; [|reflexivity].
      exists bar. split; [exact Ebar|]. split; reflexivity.
  - destruct (_ && Qgtb (position s) 0) eqn:Esell.
    + (* SELL *)
      apply andb_true_iff in Esell. destruct Esell as [Ebear Epos].
      apply andb_true_iff in Ebear. destruct Ebear as [_ Emin].
      reflect_Q.
      destruct (Hopen Epos) as (pre & b & Elog & Hb & Hat & Hq).
      assert (H0 : 0 <= lastBuyIndex s).
      { destruct Hat as (bb & Hg & _). eapply get_some_nonneg; exact Hg. }
      assert (Eg : Qgeb (lastBuyIndex s) 0 = true) by (apply Qgeb_ge; exact H0).
      rewrite Eg in Emin |- *.
      unfold holding_ok. cbn [trades position lastBuyIndex]. split.
      * rewrite Elog in Hlog |- *.
        apply (sells_close_snoc_SELL pre b _ (lastBuyIndex s) i);
          try assumption.
        -- exists bar. split; [exact Ebar|]. split; reflexivity.
        -- unfold MIN_HOLD_DAYS in *. lra.
        -- reflexivity.
        -- cbn [quantity]. symmetry. exact Hq.
      * intros H. exfalso. lra.
    + unfold holding_ok. cbn [trades position lastBuyIndex]. now split.
Qed.

Lemma signal_loop_holding :
  holding_ok bars (signal_loop strategy bars).
Proof.
  unfold signal_loop. cbv zeta.
  apply (for_from_invariant (fun _ => True) (holding_ok bars)); auto.
  - intros i s _ _ Hs. now apply signal_step_holding.
  - split; cbn [trades position].
    + intros [|k] t Hk; discriminate Hk.
    + intros H. exfalso. apply (Qlt_irrefl 0). exact H.
Qed.

End MinHold.

(** X18. In a run that keeps the trades of the signal loop every SELL
    follows a BUY directly, is logged at a valid bar at least 3 bars
    after the bar of that BUY, records that number of bars as
    [daysHeld] and sells the quantity bought: no signal, however strong,
    closes a position sooner. *)
Theorem signal_sells_respect_min_hold :
  forall (rnd : Q) (strategy : Strategy) (marketData : list MarketData) (r : Run),
    backtest_run rnd strategy (Some marketData) = Ok r ->
    run_forced r = false ->
    sells_close_a_hold (valid_bars marketData) (run_trades r).
Proof.
  intros rnd strategy marketData r Hrun Hforced. unfold backtest_run in Hrun.
  destruct marketData as [|b bars]; [discriminate|]. cbv zeta in Hrun.
  destruct (Qltb _ _); [discriminate|].
  destruct (length (trades _) <? 2)%nat.
  - destruct (forced_trades rnd strategy _) as [[log st]|e]; [|discriminate].
    inversion Hrun; subst r. discriminate Hforced.
  - inversion Hrun; subst r. cbn [run_trades]. apply signal_loop_holding.
Qed.

Lemma signal_sells_respect_min_hold_witness :
  exists r, backtest_run 0 (strategy_of 1 2 30 (15 # 100)) (Some rise_fall_bars)
            = Ok r /\
            sells_close_a_hold (valid_bars rise_fall_bars) (run_trades r).
Proof.
  destruct (backtest_run 0 (strategy_of 1 2 30 (15 # 100)) (Some rise_fall_bars))
    as [r|e] eqn:E.
  - exists r. split; [reflexivity|].
    apply (signal_sells_respect_min_hold 0 (strategy_of 1 2 30 (15 # 100))
             rise_fall_bars r); [exact E|].
    vm_compute in E. inversion E. reflexivity.
  - vm_compute in E. discriminate E.
Defined.

(* ------------------------------------------------------------------ *)
(** ** Backtest: the forced trades *)

Lemma forced_trades_shape (rnd : Q) (strategy : Strategy)
    (validMarketData : list MarketData) (log : list Trade) (st : Rebuild) :
  forced_trades rnd strategy validMarketData = Ok (log, st) ->
  exists buyBar sellBar,
    get_Z validMarketData (buy_index (length validMarketData)) = Some buyBar /\
    get_Z validMarketData (sell_index rnd (length validMarketData)) = Some sellBar /\
    log =
      [ {| trade_type := BUY; trade_date := date buyBar; price := close buyBar;
           quantity := 100000 * position_size (parameters strategy) / close buyBar;
           holdTarget := Some 5; daysHeld := None |};
        {| trade_type := SELL; trade_date := date sellBar; price := close sellBar;
           quantity := 100000 * position_size (parameters strategy) / close buyBar;
           holdTarget := None; daysHeld := None |} ] /\
    for_from (length validMarketData) (start_index strategy)
      (length validMarketData)
      (rebuild_step validMarketData (buy_index (length validMarketData))
         (sell_index rnd (length validMarketData))
         (100000 * position_size (parameters strategy) / close buyBar)
         (close buyBar) (close sellBar))
      (Ok {| currentCapital := 100000; currentPosition := 0;
             rebuilt_curve := [] |}) = Ok st.
Proof.
  unfold forced_trades. cbv zeta.
  destruct (get_Z validMarketData (buy_index _)) as [buyBar|]; [|discriminate].
  destruct (get_Z validMarketData (sell_index _ _)) as [sellBar|]; [|discriminate].
  destruct (for_from _ _ _ _ _) as [st'|e] eqn:Eloop; [|discriminate].
  intros H. inversion H; subst log st'.
  exists buyBar, sellBar. repeat split. exact Eloop.
Qed.

Lemma forced_run_inv (rnd : Q) (strategy : Strategy)
    (marketData : list MarketData) (r : Run) :
  backtest_run rnd strategy (Some marketData) = Ok r ->
  run_forced r = true ->
  exists st,
    forced_trades rnd strategy (valid_bars marketData) = Ok (run_trades r, st) /\
    run_equity_curve r = rebuilt_curve st.
Proof.
  intros Hrun Hforced. unfold backtest_run in Hrun.
  destruct marketData as [|b bars]; [discriminate|]. cbv zeta in Hrun.
  destruct (Qltb _ _); [discriminate|].
  destruct (length (trades _) <? 2)%nat.
  2:{ inversion Hrun; subst r. discriminate Hforced. }
  destruct (forced_trades rnd strategy _) as [[log st]|e] eqn:Ef; [|discriminate].
  inversion Hrun; subst r. exists st. split; reflexivity.
Qed.

Lemma get_Z_some_range {A} (l : list A) (z : Z) (x : A) :
  get_Z l z = Some x -> (0 <= z < Z.of_nat (length l))%Z.
Proof.
  unfold get_Z. destruct (Z.ltb_spec z 0) as [Hneg|Hpos]; [discriminate|].
  intros Hx.
  assert (Hlt : (Z.to_nat z < length l)%nat) by (apply nth_error_Some; congruence).
  lia.
Qed.

Lemma floor_of_draw (rnd : Q) : random_draw rnd -> (0 <= Math_floor (rnd * 3) <= 2)%Z.
Proof.
  intros [H0 H1]. unfold Math_floor. split.
  - change 0%Z with (Qfloor 0). apply Qfloor_resp_le. lra.
  - pose proof (Qfloor_le (rnd * 3)) as Hle.
    assert (Hlt : inject_Z (Qfloor (rnd * 3)) < inject_Z 3).
    { eapply Qle_lt_trans; [exact Hle|]. change (inject_Z 3) with 3. lra. }
    rewrite <- Zlt_Qlt in Hlt. lia.
Qed.

Lemma buy_index_quarter (n : nat) : (4 * buy_index n <= Z.of_nat n)%Z.
Proof.
  unfold buy_index, Math_floor.
  pose proof (Qfloor_le (nat2Q n * (25 # 100))) as Hf.
  assert (H4 : inject_Z (4 * Qfloor (nat2Q n * (25 # 100))) <= inject_Z (Z.of_nat n)).
  { rewrite inject_Z_mult. change (inject_Z 4) with 4. fold (nat2Q n). lra. }
  now rewrite <- Zle_Qle in H4.
Qed.

(** X19. A run of the forced trades logs exactly one BUY, at the close of
    the valid bar a quarter into the series, and one SELL of the same
    quantity, at the close of a bar at most 7 bars later; from 10 valid
    bars on the SELL comes 5 to 7 bars after the BUY. *)
Theorem forced_trades_hold_5_to_7_bars :
  forall (rnd : Q) (strategy : Strategy) (marketData : list MarketData) (r : Run),
    random_draw rnd ->
    backtest_run rnd strategy (Some marketData) = Ok r ->
    run_forced r = true ->
    let n := length (valid_bars marketData) in
    exists buyBar sellBar,
      get_Z (valid_bars marketData) (buy_index n) = Some buyBar /\
      get_Z (valid_bars marketData) (sell_index rnd n) = Some sellBar /\
      map trade_type (run_trades r) = [BUY; SELL] /\
      map price (run_trades r) = [close buyBar; close sellBar] /\
      map quantity (run_trades r)
        = [100000 * position_size (parameters strategy) / close buyBar;
           100000 * position_size (parameters strategy) / close buyBar] /\
      (0 <= sell_index rnd n - buy_index n <= 7)%Z /\
      ((10 <= n)%nat -> (5 <= sell_index rnd n - buy_index n)%Z).
Proof.
  intros rnd strategy marketData r Hrnd Hrun Hforced n.
  destruct (forced_run_inv _ _ _ _ Hrun Hforced) as (st & Hf & _).
  destruct (forced_trades_shape _ _ _ _ _ Hf) as (buyBar & sellBar & Hb & Hs & Hlog & _).
  exists buyBar, sellBar. fold n in Hb, Hs. rewrite Hlog.
  split; [exact Hb|]. split; [exact Hs|]. do 3 (split; [reflexivity|]).
  pose proof (get_Z_some_range _ _ _ Hb) as Hbr. fold n in Hbr.
  pose proof (floor_of_draw rnd Hrnd) as Hfl.
  pose proof (buy_index_quarter n) as Hq.
  unfold sell_index. split; lia.
Qed.

Lemma forced_trades_hold_5_to_7_bars_witness :
  (5 <= sell_index (1 # 2) 16 - buy_index 16 <= 7)%Z.
Proof.
  destruct (backtest_run (1 # 2) (strategy_of 14 14 30 (15 # 100)) (Some dip_peak_bars))
    as [r|e] eqn:E; [|vm_compute in E; discriminate E].
  destruct (forced_trades_hold_5_to_7_bars (1 # 2) (strategy_of 14 14 30 (15 # 100))
              dip_peak_bars r) as (b & s & _ & _ & _ & _ & _ & H07 & H5).
  - split; [discriminate | reflexivity].
  - exact E.
  - vm_compute in E. inversion E. reflexivity.
  - change (length (valid_bars dip_peak_bars)) with 16%nat in H07, H5.
    split; [apply H5; lia | apply H07].
Defined.

(* ------------------------------------------------------------------ *)
(** ** Backtest: the equity stays positive *)

(** A loop keeps an invariant that follows the index. *)
Lemma for_from_invariant_at {S : Type} (P : Q -> S -> Prop)
    (n : nat) (body : Q -> S -> S) :
  (forall i s, i < nat2Q n -> P i s -> P (i + 1) (body i s)) ->
  forall fuel i s, P i s -> exists j, P j (for_from fuel i n body s).
Proof.
  intros Hbody fuel. induction fuel as [|fuel IH]; intros i s Hs; cbn [for_from].
  - now exists i.
  - destruct (Qltb i (nat2Q n)) eqn:E; [|now exists i].
    apply IH. apply Hbody; [now apply Qltb_lt | exact Hs].
Qed.

Lemma get_Z_In {A} (l : list A) (z : Z) (x : A) : get_Z l z = Some x -> In x l.
Proof.
  unfold get_Z. destruct (_ <? _)%Z; [discriminate|]. apply nth_error_In.
Qed.

Lemma valid_bar_positive (marketData : list MarketData) (bar : MarketData) :
  In bar (valid_bars marketData) -> 0 < close bar.
Proof.
  intros H. unfold valid_bars in H. apply filter_In in H. destruct H as [_ H].
  unfold is_valid in H. apply andb_true_iff in H. destruct H as [H _].
  now apply Qgtb_gt.
Qed.

Section Solvency.

Variable strategy : Strategy.
Hypothesis Hps : 0 < position_size (parameters strategy) <= 1.

Lemma execute_equity_positive (bar : MarketData) (i : Q)
    (bullish bearish : bool) (held : Q) (s : Sim) :
  0 < close bar -> sim_ok s ->
  Forall (fun e => 0 < e) (equity_curve s) ->
  Forall (fun e => 0 < e) (equity_curve (execute strategy bar i bullish bearish held s)).
Proof.
  intros Hprice Hs Hcurve.
  pose proof (execute_ok strategy Hps bar i bullish bearish held s Hprice Hs) as Hok.
  assert (Hentry : forall c p, (p == 0 /\ 0 < c) \/ (0 < p /\ 0 <= c) ->
                               0 < c + p * close bar).
  { intros c p [[Hp Hc] | [Hp Hc]]; [rewrite Hp; lra|].
    assert (0 < p * close bar) by (apply Qmult_lt_0_compat; assumption). lra. }
  unfold execute, sim_ok in *. cbv zeta in *.
  destruct (bullish && _); [|destruct (bearish && _)];
    cbn [equity_curve capital position trades] in *;
    (apply Forall_app; split; [exact Hcurve|]);
    (apply Forall_cons; [|apply Forall_nil]);
    apply Hentry; destruct Hok as [_ [(Hp & Hc & _) | (Hp & Hc & _)]]; auto.
Qed.

Lemma signal_step_equity_positive (marketData : list MarketData)
    (ma_short_s ma_long_s rsi : list Q) (i : Q) (s : Sim) :
  sim_ok s -> Forall (fun e => 0 < e) (equity_curve s) ->
  Forall (fun e => 0 < e)
    (equity_curve
       (signal_step strategy (valid_bars marketData) ma_short_s ma_long_s rsi i s)).
Proof.
  intros Hs Hcurve. unfold signal_step.
  destruct (get (valid_bars marketData) i) as [bar|] eqn:Ebar; [|exact Hcurve].
  destruct (get ma_short_s i) as [ms|]; [|exact Hcurve].
  destruct (get ma_long_s i) as [ml|]; [|exact Hcurve].
  destruct (Qeq_bool ms 0 || Qeq_bool ml 0); [exact Hcurve|]. cbv zeta.
  apply execute_equity_positive; [|exact Hs | exact Hcurve].
  eapply valid_bar_price; eassumption.
Qed.

Lemma signal_loop_equity_positive (marketData : list MarketData) :
  Forall (fun e => 0 < e)
         (equity_curve (signal_loop strategy (valid_bars marketData))).
Proof.
  unfold signal_loop. cbv zeta.
  apply (for_from_invariant (fun _ => True)
           (fun s => sim_ok s /\ Forall (fun e => 0 < e) (equity_curve s))); auto.
  - intros i s _ _ [Hs Hcurve].
    split; [now apply signal_step_ok | now apply signal_step_equity_positive].
  - split.
    + split; [apply alternates_nil|]. left. cbn.
      split; [reflexivity|]. split; reflexivity.
    + constructor; [reflexivity | constructor].
Qed.

Variable marketData : list MarketData.
Variables buyIndex sellIndex : Z.
Variables buyBar sellBar : MarketData.
Hypothesis Hbuy : In buyBar (valid_bars marketData).
Hypothesis Hsell : In sellBar (valid_bars marketData).
Hypothesis Horder : (buyIndex <= sellIndex)%Z.

Lemma rebuild_step_solvent (i : Q) (r : Result Rebuild) :
  rebuild_solvent buyIndex i r ->
  rebuild_solvent buyIndex (i + 1)
    (rebuild_step (valid_bars marketData) buyIndex sellIndex
       (100000 * position_size (parameters strategy) / close buyBar)
       (close buyBar) (close sellBar) i r).
Proof.
  destruct Hps as [Hps0 Hps1].
  pose proof (valid_bar_positive _ _ Hbuy) as Hbp.
  pose proof (valid_bar_positive _ _ Hsell) as Hsp.
  destruct r as [st|e]; [|intros _; exact I].
  intros (Hcurve & Hpre & Hstate). unfold rebuild_step.
  set (ps := position_size (parameters strategy)) in *.
  set (bp := close buyBar) in *. set (sp := close sellBar) in *.
  assert (Htp : 0 < 100000 * ps / bp) by (apply Qlt_shift_div_l; lra).
  assert (Hcost : 100000 * ps / bp * bp == 100000 * ps) by (field; lra).
  destruct (get (valid_bars marketData) i) as [bar|] eqn:Ebar; [|exact I].
  pose proof (valid_bar_price _ _ _ Ebar) as Hclose.
  assert (Hle : inject_Z buyIndex <= inject_Z sellIndex) by now rewrite <- Zle_Qle.
  destruct (Qeq_bool i (inject_Z buyIndex)) eqn:Eb;
    destruct (Qeq_bool i (inject_Z sellIndex)) eqn:Es; reflect_Q;
    cbn [rebuild_solvent currentCapital currentPosition rebuilt_curve].
  - destruct Hpre as [Hc Hp]; [lra|].
    assert (Hproceeds : 0 < 100000 * ps / bp * sp)
      by (apply Qmult_lt_0_compat; assumption).
    split; [|split].
    + apply Forall_app. split; [exact Hcurve|]. constructor; [|constructor]. lra.
    + intros Hi. lra.
    + left. split; [lra | reflexivity].
  - destruct Hpre as [Hc Hp]; [lra|].
    assert (Hvalue : 0 < 100000 * ps / bp * close bar)
      by (apply Qmult_lt_0_compat; assumption).
    split; [|split].
    + apply Forall_app. split; [exact Hcurve|]. constructor; [|constructor]. lra.
    + intros Hi. lra.
    + right. split; [lra | exact Htp].
  - assert (Hcash : 0 < currentCapital st + currentPosition st * sp).
    { destruct Hstate as [[Hc Hp] | [Hc Hp]]; [rewrite Hp; lra|].
      assert (0 < currentPosition st * sp) by (apply Qmult_lt_0_compat; assumption).
      lra. }
    split; [|split].
    + apply Forall_app. split; [exact Hcurve|]. constructor; [|constructor]. lra.
    + intros Hi. lra.
    + left. split; [exact Hcash | reflexivity].
  - split; [|split].
    + apply Forall_app. split; [exact Hcurve|]. constructor; [|constructor].
      destruct Hstate as [[Hc Hp] | [Hc Hp]]; [rewrite Hp; lra|].
      assert (0 < currentPosition st * close bar)
        by (apply Qmult_lt_0_compat; assumption).
      lra.
    + intros Hi. apply Hpre. lra.
    + exact Hstate.
Qed.

End Solvency.

Lemma signal_run_inv (rnd : Q) (strategy : Strategy)
    (marketData : list MarketData) (r : Run) :
  backtest_run rnd strategy (Some marketData) = Ok r ->
  run_forced r = false ->
  run_equity_curve r = equity_curve (signal_loop strategy (valid_bars marketData)) /\
  run_trades r = trades (signal_loop strategy (valid_bars marketData)) /\
  (2 <= length (run_trades r))%nat.
Proof.
  intros Hrun Hforced. unfold backtest_run in Hrun.
  destruct marketData as [|b bars]; [discriminate|]. cbv zeta in Hrun.
  destruct (Qltb _ _); [discriminate|].
  destruct (Nat.ltb_spec (length (trades (signal_loop strategy (valid_bars (b :: bars))))) 2)
    as [Hlt|Hge].
  - destruct (forced_trades rnd strategy _) as [[log st]|e]; [|discriminate].
    inversion Hrun; subst r. discriminate Hforced.
  - inversion Hrun; subst r. cbn [run_equity_curve run_trades].
    split; [reflexivity|]. split; [reflexivity | exact Hge].
Qed.

(** X20. With a position size in (0, 1], every entry of the equity curve
    of a run that returns is positive, whether the curve comes from the
    signal loop or is rebuilt from the forced trades. *)
Theorem equity_curve_stays_positive :
  forall (rnd : Q) (strategy : Strategy) (marketData : list MarketData) (r : Run),
    random_draw rnd ->
    0 < position_size (parameters strategy) <= 1 ->
    backtest_run rnd strategy (Some marketData) = Ok r ->
    Forall (fun e => 0 < e) (run_equity_curve r).
Proof.
  intros rnd strategy marketData r Hrnd Hps Hrun.
  destruct (run_forced r) eqn:Hforced.
  - destruct (forced_run_inv _ _ _ _ Hrun Hforced) as (st & Hf & Hcurve).
    destruct (forced_trades_shape _ _ _ _ _ Hf)
      as (buyBar & sellBar & Hb & Hs & _ & Hloop).
    rewrite Hcurve.
    set (n := length (valid_bars marketData)) in *.
    assert (Horder : (buy_index n <= sell_index rnd n)%Z).
    { pose proof (get_Z_some_range _ _ _ Hb) as Hbr. fold n in Hbr.
      pose proof (floor_of_draw rnd Hrnd) as Hfl.
      unfold sell_index. lia. }
    destruct (for_from_invariant_at (rebuild_solvent (buy_index n)) n
                (rebuild_step (valid_bars marketData) (buy_index n) (sell_index rnd n)
                   (100000 * position_size (parameters strategy) / close buyBar)
                   (close buyBar) (close sellBar)))
      with (fuel := n) (i := start_index strategy)
           (s := Ok {| currentCapital := 100000; currentPosition := 0;
                       rebuilt_curve := [] |})
      as [j Hj].
    + intros i s _. apply rebuild_step_solvent; try assumption.
      * eapply get_Z_In; exact Hb.
      * eapply get_Z_In; exact Hs.
    + cbn. split; [constructor|]. split.
      * intros _. split; reflexivity.
      * left. split; reflexivity.
    + rewrite Hloop in Hj. apply Hj.
  - destruct (signal_run_inv _ _ _ _ Hrun Hforced) as (Hcurve & _).
    rewrite Hcurve. now apply signal_loop_equity_positive.
Qed.

Lemma equity_curve_stays_positive_witness :
  exists r, backtest_run (1 # 2) (strategy_of 14 14 30 (15 # 100)) (Some dip_peak_bars) = Ok r /\
            Forall (fun e => 0 < e) (run_equity_curve r).
Proof.
  destruct (backtest_run (1 # 2) (strategy_of 14 14 30 (15 # 100)) (Some dip_peak_bars))
    as [r|e] eqn:E; [|vm_compute in E; discriminate E].
  exists r. split; [reflexivity|].
  apply (equity_curve_stays_positive (1 # 2) (strategy_of 14 14 30 (15 # 100))
           dip_peak_bars r).
  - split; [discriminate | reflexivity].
  - split; [reflexivity | discriminate].
  - exact E.
Defined.

(* ------------------------------------------------------------------ *)
(** ** Backtest: the length of the curve of the signal loop *)

(** A loop whose turns each add one to a counter adds the number of turns. *)
Lemma for_from_counts {S : Type} (len : S -> nat) (n : nat)
    (body : Q -> S -> S) (lo : Q) :
  (forall i s, is_integer i = true -> lo <= i -> i < nat2Q n ->
               len (body i s) = Datatypes.S (len s)) ->
  forall fuel i s,
    is_integer i = true -> lo <= i -> i <= nat2Q n -> nat2Q n <= i + nat2Q fuel ->
    nat2Q (len (for_from fuel i n body s)) == nat2Q (len s) + (nat2Q n - i).
Proof.
  intros Hbody. induction fuel as [|fuel IH]; intros i s Hint Hlo Hle Hfuel.
  - cbn [for_from]. change (nat2Q 0) with 0 in Hfuel. lra.
  - cbn [for_from]. destruct (Qltb i (nat2Q n)) eqn:E; reflect_Q; [|lra].
    assert (Hnext : i + 1 <= nat2Q n).
    { pose proof Hint as Hz. apply is_integer_iff in Hz. destruct Hz as [z Hz].
      rewrite Hz in E |- *. unfold nat2Q in *.
      rewrite <- Zlt_Qlt in E. change 1 with (inject_Z 1).
      rewrite <- inject_Z_plus, <- Zle_Qle. lia. }
    rewrite IH; [| now apply is_integer_succ | lra | exact Hnext
                 | rewrite nat2Q_S in Hfuel; lra].
    rewrite (Hbody i s Hint Hlo E), nat2Q_S. ring.
Qed.

Lemma ma_at_positive (data : list MarketData) (period : Q) (i : nat) :
  Forall (fun d => 0 < close d) data ->
  0 < period -> period - 1 <= nat2Q i -> (i < length data)%nat ->
  0 < ma_at data period i.
Proof.
  intros Hin Hp Hi Hlen.
  rewrite (ma_at_code data period i Hlen). unfold movingAverage_code.
  rewrite (proj2 (Qltb_ge _ _) Hi).
  pose proof (ceiling_le_index period i Hi) as Hw.
  pose proof (ceiling_positive period Hp) as Hw1.
  set (w := Z.to_nat (Qceiling period)) in *.
  assert (Hwin : Forall (fun d => 0 < close d) (window data w i))
    by (apply window_Forall, Hin).
  rewrite valid_closes_all by exact Hwin.
  assert (Hlenw : length (map close (window data w i)) = w)
    by (rewrite length_map; now apply window_length).
  assert (Hpos : Forall (fun x => 0 < x) (map close (window data w i))).
  { apply Forall_forall. intros c Hc. apply in_map_iff in Hc.
    destruct Hc as (d & <- & Hd). rewrite Forall_forall in Hwin. now apply Hwin. }
  unfold mean. destruct (map close (window data w i)) as [|c cs] eqn:Ecs.
  - cbn in Hlenw. lia.
  - apply Qlt_shift_div_l.
    + apply nat2Q_S_pos.
    + rewrite Qmult_0_l. apply Qsum_pos; [discriminate | exact Hpos].
Qed.

Lemma valid_bars_positive (marketData : list MarketData) :
  Forall (fun d => 0 < close d) (valid_bars marketData).
Proof. apply Forall_forall. intros d Hd. eapply valid_bar_positive; exact Hd. Qed.

(** The entry of [calculateMA] at an integer index past the warm-up. *)
Lemma get_calculateMA_positive (marketData : list MarketData) (period i : Q) :
  is_integer i = true -> 0 < period -> period - 1 <= i ->
  i < nat2Q (length (valid_bars marketData)) ->
  exists v, get (calculateMA (valid_bars marketData) period) i = Some v /\ 0 < v.
Proof.
  intros Hint Hp Hi Hn.
  pose proof Hint as Hz. apply is_integer_iff in Hz. destruct Hz as [z Hz].
  assert (Hf : Qfloor i = z) by (rewrite Hz; apply Qfloor_Z).
  assert (Hz0 : (0 <= z)%Z).
  { assert (H : inject_Z (-1) < inject_Z z).
    { rewrite <- Hz. change (inject_Z (-1)) with (-(1)). lra. }
    rewrite <- Zlt_Qlt in H. lia. }
  assert (Hzn : (Z.to_nat z < length (valid_bars marketData))%nat).
  { rewrite Hz in Hn. unfold nat2Q in Hn. rewrite <- Zlt_Qlt in Hn. lia. }
  exists (ma_at (valid_bars marketData) period (Z.to_nat z)). split.
  - unfold get. rewrite Hint, Hf. unfold get_Z.
    destruct (Z.ltb_spec z 0); [lia|].
    unfold calculateMA. now apply nth_error_map_seq.
  - apply ma_at_positive; [apply valid_bars_positive | exact Hp | | exact Hzn].
    unfold nat2Q. rewrite Z2Nat.id by exact Hz0. rewrite <- Hz. exact Hi.
Qed.

Lemma signal_step_adds_one (strategy : Strategy) (marketData : list MarketData)
    (rsi : list Q) (i : Q) (s : Sim) :
  0 < ma_short (parameters strategy) ->
  ma_short (parameters strategy) - 1 <= start_index strategy ->
  0 < ma_long (parameters strategy) ->
  is_integer i = true -> start_index strategy <= i ->
  i < nat2Q (length (valid_bars marketData)) ->
  length (equity_curve
            (signal_step strategy (valid_bars marketData)
               (calculateMA (valid_bars marketData) (ma_short (parameters strategy)))
               (calculateMA (valid_bars marketData) (ma_long (parameters strategy)))
               rsi i s))
  = Datatypes.S (length (equity_curve s)).
Proof.
  intros Hms Hms1 Hml Hint Hlo Hn.
  pose proof (start_index_ge_14 strategy) as H14.
  assert (Hml1 : ma_long (parameters strategy) <= start_index strategy)
    by apply Q.le_max_l.
  destruct (get_in_range (valid_bars marketData) i Hint) as [bar Ebar];
    [lra | exact Hn |].
  destruct (get_calculateMA_positive marketData (ma_short (parameters strategy)) i)
    as (ms & Ems & Hmsp); [exact Hint | exact Hms | lra | exact Hn |].
  destruct (get_calculateMA_positive marketData (ma_long (parameters strategy)) i)
    as (ml & Eml & Hmlp); [exact Hint | exact Hml | lra | exact Hn |].
  unfold signal_step. rewrite Ebar, Ems, Eml.
  assert (E1 : Qeq_bool ms 0 = false) by (apply Qeq_bool_false; lra).
  assert (E2 : Qeq_bool ml 0 = false) by (apply Qeq_bool_false; lra).
  rewrite E1, E2. cbn [orb]. cbv zeta.
  match goal with
  | |- context [execute ?st ?b ?j ?bu ?be ?h ?x] =>
      destruct (execute_curve st b j bu be h x) as [entry ->]
  end.
  rewrite length_app. cbn [length]. lia.
Qed.

Lemma signal_loop_curve_length (strategy : Strategy) (marketData : list MarketData) :
  is_integer (ma_long (parameters strategy)) = true ->
  0 < ma_long (parameters strategy) ->
  0 < ma_short (parameters strategy) ->
  ma_short (parameters strategy) - 1 <= start_index strategy ->
  start_index strategy <= nat2Q (length (valid_bars marketData)) ->
  nat2Q (length (equity_curve (signal_loop strategy (valid_bars marketData))))
  == nat2Q (length (valid_bars marketData)) - start_index strategy + 1.
Proof.
  intros Hint Hml Hms Hms1 Hle.
  pose proof (start_index_ge_14 strategy) as H14.
  unfold signal_loop. cbv zeta.
  rewrite (for_from_counts (fun s => length (equity_curve s)) _ _ (start_index strategy)).
  - cbn [equity_curve length]. change (nat2Q 1) with 1. ring.
  - intros i s Hi Hlo Hn. now apply signal_step_adds_one.
  - now apply is_integer_start.
  - lra.
  - exact Hle.
  - lra.
Qed.

(** X21. When the signal loop logs the trades of a run (at least two of
    them), with an integer [ma_long] and a positive [ma_short] no more
    than a bar past the start index, the equity curve is the starting
    capital followed by one entry for each valid bar from the start
    index on: none of these bars is skipped for a moving average of 0. *)
Theorem signal_curve_has_one_entry_a_bar :
  forall (rnd : Q) (strategy : Strategy) (marketData : list MarketData) (r : Run),
    is_integer (ma_long (parameters strategy)) = true ->
    0 < ma_long (parameters strategy) ->
    0 < ma_short (parameters strategy) ->
    ma_short (parameters strategy) - 1 <= start_index strategy ->
    backtest_run rnd strategy (Some marketData) = Ok r ->
    run_forced r = false ->
    hd_error (run_equity_curve r) = Some STARTING_CAPITAL /\
    nat2Q (length (run_equity_curve r))
    == nat2Q (length (valid_bars marketData)) - start_index strategy + 1.
Proof.
  intros rnd strategy marketData r Hint Hml Hms Hms1 Hrun Hforced.
  destruct (signal_run_inv _ _ _ _ Hrun Hforced) as (Hcurve & Htrades & Htwo).
  rewrite Hcurve. split.
  - destruct (signal_curve_starts_with_capital strategy (valid_bars marketData))
      as [rest ->]. reflexivity.
  - apply signal_loop_curve_length; try assumption.
    destruct (Qlt_le_dec (nat2Q (length (valid_bars marketData))) (start_index strategy))
      as [Hpast|Hin]; [|exact Hin].
    exfalso. rewrite Htrades in Htwo. unfold signal_loop in Htwo. cbv zeta in Htwo.
    rewrite for_from_past_end in Htwo by lra. cbn in Htwo. lia.
Qed.

Lemma signal_curve_has_one_entry_a_bar_witness :
  exists r, backtest_run (1 # 2) (strategy_of 3 14 30 (15 # 100)) (Some rise_fall_bars) = Ok r /\
            nat2Q (length (run_equity_curve r)) == 20 - 14 + 1.
Proof.
  destruct (backtest_run (1 # 2) (strategy_of 3 14 30 (15 # 100)) (Some rise_fall_bars))
    as [r|e] eqn:E; [|vm_compute in E; discriminate E].
  exists r. split; [reflexivity|].
  apply (signal_curve_has_one_entry_a_bar (1 # 2) (strategy_of 3 14 30 (15 # 100))
           rise_fall_bars r).
  - reflexivity.
  - reflexivity.
  - reflexivity.
  - discriminate.
  - exact E.
  - vm_compute in E. inversion E. reflexivity.
Defined.

(* ------------------------------------------------------------------ *)
(** ** Variant generator: the draws *)

Lemma make_variant_draws (baseStrategy : Strategy) (now : Z) (i : nat)
    (rand : nat -> Q) (k : nat) :
  snd (make_variant baseStrategy now i rand k) = (k + 4)%nat.
Proof. unfold make_variant, bind, Math_random, ret. cbn [snd]. lia. Qed.

(** The loop appends one variant a turn, each from the next four draws. *)
Lemma variants_loop_map (baseStrategy : Strategy) (clock : nat -> Z)
    (rand : nat -> Q) (todo : nat) :
  forall i variants k,
    fst (variants_loop baseStrategy clock todo i variants rand k)
    = variants ++
      map (fun j => fst (make_variant baseStrategy (clock (i + j)%nat) (i + j)%nat
                                      rand (k + 4 * j)%nat))
          (seq 0 todo).
Proof.
  induction todo as [|todo IH]; intros i variants k.
  - cbn [variants_loop seq map]. unfold ret. cbn [fst]. now rewrite app_nil_r.
  - cbn [variants_loop]. unfold bind.
    pose proof (make_variant_draws baseStrategy (clock i) i rand k) as Hk.
    destruct (make_variant baseStrategy (clock i) i rand k) as [v k'] eqn:Ev.
    cbn [snd] in Hk. subst k'. rewrite IH, <- app_assoc. f_equal.
    cbn [seq map app]. f_equal.
    + rewrite Nat.add_0_r, Nat.mul_0_r, Nat.add_0_r, Ev. reflexivity.
    + rewrite <- seq_shift, map_map. apply map_ext. intros j.
      replace (i + S j)%nat with (S i + j)%nat by lia.
      replace (k + 4 * S j)%nat with (k + 4 + 4 * j)%nat by lia.
      reflexivity.
Qed.

Lemma generateVariants_map (rand : nat -> Q) (clock : nat -> Z)
    (baseStrategy : Strategy) (N : nat) :
  generateVariants rand clock baseStrategy N
  = map (fun j => fst (make_variant baseStrategy (clock j) j rand (4 * j)%nat))
        (seq 0 N).
Proof.
  unfold generateVariants. rewrite variants_loop_map. reflexivity.
Qed.

Lemma generateVariants_In (rand : nat -> Q) (clock : nat -> Z)
    (baseStrategy v : Strategy) (N : nat) :
  In v (generateVariants rand clock baseStrategy N) ->
  exists j, (j < N)%nat /\
            v = fst (make_variant baseStrategy (clock j) j rand (4 * j)%nat).
Proof.
  rewrite generateVariants_map. intros H. apply in_map_iff in H.
  destruct H as (j & <- & Hj). apply in_seq in Hj. exists j. split; [lia | reflexivity].
Qed.

(** X22. The variant at index [j] is built from the draws [4j] to
    [4j + 3], in the order position size, short period, long period, RSI
    threshold; its id carries the clock read in turn [j] and [j], its
    name [j + 1]. *)
Theorem generateVariants_reads_four_draws_a_variant :
  forall (rand : nat -> Q) (clock : nat -> Z) (baseStrategy : Strategy) (N j : nat),
    (j < N)%nat ->
    exists v,
      nth_error (generateVariants rand clock baseStrategy N) j = Some v /\
      id v = ("strategy_" ++ show_Z (clock j) ++ "_" ++ show_nat j)%string /\
      name v = (name baseStrategy ++ " Variant " ++ show_nat (j + 1))%string /\
      position_size (parameters v)
      = Qmax (10 # 100)
          (Qmin (20 # 100)
             (position_size (parameters baseStrategy)
              * ((8 # 10) + rand (4 * j)%nat * (6 # 10)))) /\
      ma_short (parameters v)
      = Qmax 10 (ma_short (parameters baseStrategy)
                 + (rand (4 * j + 1)%nat * 10 - 5)) /\
      ma_long (parameters v)
      = Qmax 30 (ma_long (parameters baseStrategy)
                 + (rand (4 * j + 2)%nat * 20 - 10)) /\
      rsi_threshold (parameters v)
      = Qmax 25 (Qmin 35 (rsi_threshold (parameters baseStrategy)
                          + (rand (4 * j + 3)%nat * 10 - 5))).
Proof.
  intros rand clock baseStrategy N j Hj.
  rewrite generateVariants_map. eexists. split.
  - apply (nth_error_map_seq _ N j Hj).
  - unfold make_variant, bind, Math_random, ret.
    cbn [fst id name parameters position_size ma_short ma_long rsi_threshold].
    replace (4 * j + 1)%nat with (S (4 * j)) by lia.
    replace (4 * j + 2)%nat with (S (S (4 * j))) by lia.
    replace (4 * j + 3)%nat with (S (S (S (4 * j)))) by lia.
    repeat split; reflexivity.
Qed.

Lemma generateVariants_reads_four_draws_a_variant_witness :
  exists v,
    nth_error (generateVariants (fun k => inject_Z (Z.of_nat k) / 8) (fun _ => 0%Z)
                 default_base 2) 1 = Some v /\
    ma_long (parameters v) == 45.
Proof.
  destruct (generateVariants_reads_four_draws_a_variant
              (fun k => inject_Z (Z.of_nat k) / 8) (fun _ => 0%Z) default_base 2 1)
    as (v & Hv & _ & _ & _ & _ & Hml & _).
  - lia.
  - exists v. split; [exact Hv|]. rewrite Hml. vm_compute. reflexivity.
Defined.

(** X23. A longer run of [generateVariants] on the same draws and clock
    begins with the variants of the shorter run. *)
Theorem generateVariants_prefix :
  forall (rand : nat -> Q) (clock : nat -> Z) (baseStrategy : Strategy) (N M : nat),
    firstn N (generateVariants rand clock baseStrategy (N + M))
    = generateVariants rand clock baseStrategy N.
Proof.
  intros rand clock baseStrategy N M.
  rewrite !generateVariants_map, seq_app, map_app, firstn_app.
  rewrite length_map, length_seq, Nat.sub_diag, firstn_O, app_nil_r.
  apply firstn_all2. rewrite length_map, length_seq. lia.
Qed.

(* ------------------------------------------------------------------ *)
(** ** Variant generator: how far a variant moves *)

Lemma clamp_near (floor x d r : Q) :
  0 <= r < 1 -> 0 < d ->
  within_or_clamped [floor] (x - d) (x + d) (Qmax floor (x + (r * (2 * d) - d))).
Proof.
  intros [Hr0 Hr1] Hd.
  assert (Hrd : 0 <= r * (2 * d)) by (apply Qmult_le_0_compat; lra).
  assert (Hrd1 : r * (2 * d) < 2 * d).
  { setoid_replace (2 * d) with (1 * (2 * d)) at 2 by ring.
    apply Qmult_lt_compat_r; lra. }
  destruct (Q.max_dec floor (x + (r * (2 * d) - d))) as [E|E].
  - left. constructor. exact E.
  - right. rewrite E. lra.
Qed.

Lemma clamp2_near (lo hi x d r : Q) :
  0 <= r < 1 -> 0 < d ->
  within_or_clamped [lo; hi] (x - d) (x + d)
                    (Qmax lo (Qmin hi (x + (r * (2 * d) - d)))).
Proof.
  intros [Hr0 Hr1] Hd.
  assert (Hrd : 0 <= r * (2 * d)) by (apply Qmult_le_0_compat; lra).
  assert (Hrd1 : r * (2 * d) < 2 * d).
  { setoid_replace (2 * d) with (1 * (2 * d)) at 2 by ring.
    apply Qmult_lt_compat_r; lra. }
  destruct (Q.max_dec lo (Qmin hi (x + (r * (2 * d) - d)))) as [E|E].
  - left. constructor. exact E.
  - destruct (Q.min_dec hi (x + (r * (2 * d) - d))) as [E'|E'].
    + left. apply Exists_cons_tl. constructor. now rewrite E, E'.
    + right. rewrite E, E'. lra.
Qed.

(** X24. In exact arithmetic, with draws in [[0, 1)], every variant
    keeps each period and the RSI threshold within the band of the
    perturbation around the base (5 for the short period, 10 for the long
    one, 5 for the threshold; on doubles a draw just below 1 can round up
    to the end of the band), unless the value is held at its floor (10,
    30) or clamp (25, 35); the fields [user_id], [metrics], [stop_loss]
    and [take_profit] are not taken from the base. *)
Theorem generateVariants_stay_near_the_base :
  forall (rand : nat -> Q) (clock : nat -> Z) (baseStrategy : Strategy) (N : nat),
    random_draws rand ->
    Forall (fun v => variant_near baseStrategy v /\ variant_fresh v)
           (generateVariants rand clock baseStrategy N).
Proof.
  intros rand clock baseStrategy N Hrand. apply Forall_forall. intros v Hv.
  destruct (generateVariants_In _ _ _ _ _ Hv) as (j & _ & ->).
  unfold make_variant, bind, Math_random, ret, variant_near, variant_fresh.
  cbn [fst user_id metrics parameters ma_short ma_long rsi_threshold
       stop_loss take_profit]. cbv zeta.
  split; [|repeat split]. split; [|split].
  - change 10 with (2 * 5) at 2. apply clamp_near; [apply Hrand | reflexivity].
  - change 20 with (2 * 10). apply clamp_near; [apply Hrand | reflexivity].
  - change 10 with (2 * 5). apply clamp2_near; [apply Hrand | reflexivity].
Qed.

Lemma generateVariants_stay_near_the_base_witness :
  Forall (fun v => variant_near default_base v /\ variant_fresh v)
         (generateVariants (fun _ => 21 # 40) (fun _ => 0%Z) default_base 3).
Proof.
  apply generateVariants_stay_near_the_base.
  intros k. split; [discriminate | reflexivity].
Defined.

(** X25. In exact arithmetic, with draws in [[0, 1)] the position size
    of a variant lies between the clamped 0.8 and 1.4 times the base's
    (not negative; on doubles the product can fall an ulp outside); so a
    base position size of 0.25 or more gives every variant 0.20, and one
    of 1/14 or less gives every variant 0.10. *)
Theorem generateVariants_position_size :
  forall (rand : nat -> Q) (clock : nat -> Z) (baseStrategy : Strategy) (N : nat),
    random_draws rand ->
    0 <= position_size (parameters baseStrategy) ->
    let ps := position_size (parameters baseStrategy) in
    Forall (fun v =>
              Qmax (10 # 100) (Qmin (20 # 100) (ps * (8 # 10)))
                <= position_size (parameters v)
                <= Qmax (10 # 100) (Qmin (20 # 100) (ps * (14 # 10))) /\
              ((1 # 4) <= ps -> position_size (parameters v) == (20 # 100)) /\
              (ps <= (1 # 14) -> position_size (parameters v) == (10 # 100)))
           (generateVariants rand clock baseStrategy N).
Proof.
  intros rand clock baseStrategy N Hrand Hps. cbv zeta.
  apply Forall_forall. intros v Hv.
  destruct (generateVariants_In _ _ _ _ _ Hv) as (j & _ & ->).
  unfold make_variant, bind, Math_random, ret.
  cbn [fst parameters position_size]. cbv zeta.
  destruct (Hrand (4 * j)%nat) as [Hr0 Hr1].
  generalize dependent (rand (4 * j)%nat). intros r Hr0 Hr1.
  generalize dependent (position_size (parameters baseStrategy)). intros ps Hps.
  assert (Hpr : 0 <= ps * r) by (apply Qmult_le_0_compat; assumption).
  assert (Hpr1 : 0 <= ps * (1 - r)) by (apply Qmult_le_0_compat; lra).
  assert (Hlo : ps * (8 # 10) <= ps * ((8 # 10) + r * (6 # 10))) by lra.
  assert (Hhi : ps * ((8 # 10) + r * (6 # 10)) <= ps * (14 # 10)) by lra.
  split; [split|split].
  - apply Q.max_le_compat_l. apply Q.min_le_compat_l. exact Hlo.
  - apply Q.max_le_compat_l. apply Q.min_le_compat_l. exact Hhi.
  - intros Hbig. rewrite Q.min_l by lra. apply Q.max_r. discriminate.
  - intros Hsmall. apply Q.max_l.
    eapply Qle_trans; [apply Q.le_min_r | lra].
Qed.

Lemma generateVariants_position_size_witness :
  Forall (fun v => position_size (parameters v) == (20 # 100))
         (generateVariants (fun _ => 21 # 40) (fun _ => 0%Z)
            (strategy_of 15 40 30 (30 # 100)) 3).
Proof.
  eapply Forall_impl;
    [| apply (generateVariants_position_size (fun _ => 21 # 40) (fun _ => 0%Z)
                (strategy_of 15 40 30 (30 # 100)) 3)].
  - intros v (_ & Hbig & _). apply Hbig. discriminate.
  - intros k. split; [discriminate | reflexivity].
  - discriminate.
Defined.

(* ------------------------------------------------------------------ *)
(** ** Backtest: which inputs throw *)

(** X26. For a strategy with an integer [ma_long] of at least 1,
    [backtest] throws the empty-data error on absent or empty data, the
    insufficient-data error on bars of which fewer than [ma_long] are
    valid (even when none is), and returns metrics on every other
    input. *)
Theorem backtest_outcome_for_integer_period :
  forall (rnd : Q) (strategy : Strategy),
    random_draw rnd ->
    is_integer (ma_long (parameters strategy)) = true ->
    1 <= ma_long (parameters strategy) ->
    backtest rnd strategy None = Throw EmptyMarketData /\
    backtest rnd strategy (Some []) = Throw EmptyMarketData /\
    forall bars, bars <> [] ->
      (nat2Q (length (valid_bars bars)) < ma_long (parameters strategy) ->
       backtest rnd strategy (Some bars) = Throw InsufficientData) /\
      (ma_long (parameters strategy) <= nat2Q (length (valid_bars bars)) ->
       exists m, backtest rnd strategy (Some bars) = Ok m).
Proof.
  intros rnd strategy Hr Hint Hpos.
  split; [reflexivity|]. split; [reflexivity|].
  intros bars Hne. split.
  - intros Hlt. destruct bars as [|b bars]; [congruence|].
    unfold backtest, backtest_run. cbv zeta.
    now rewrite (proj2 (Qltb_lt _ _) Hlt).
  - intros Hge.
    assert (Hn : (1 <= length (valid_bars bars))%nat).
    { apply nat2Q_le. change (nat2Q 1) with 1. lra. }
    destruct (backtest_run_returns rnd strategy bars Hr Hint Hn Hge) as [r Hrun].
    eexists. apply (backtest_of_run _ _ _ _ Hrun).
Qed.

Lemma backtest_outcome_for_integer_period_witness :
  backtest 0 (strategy_of 3 14 30 (15 # 100)) (Some [undated_bar])
  = Throw InsufficientData.
Proof.
  destruct (backtest_outcome_for_integer_period 0 (strategy_of 3 14 30 (15 # 100)))
    as (_ & _ & H).
  - split; [discriminate | reflexivity].
  - reflexivity.
  - discriminate.
  - apply (H [undated_bar]); [discriminate | reflexivity].
Defined.

Lemma is_integer_eq (i j : Q) : i == j -> is_integer i = is_integer j.
Proof.
  intros E. unfold is_integer.
  assert (Hf : Qfloor i = Qfloor j) by now rewrite E.
  rewrite Hf.
  destruct (Qeq_bool (inject_Z (Qfloor j)) i) eqn:Ei;
    destruct (Qeq_bool (inject_Z (Qfloor j)) j) eqn:Ej; try reflexivity.
  - apply Qeq_bool_iff in Ei. apply Qeq_bool_neq in Ej. exfalso. apply Ej.
    now rewrite Ei.
  - apply Qeq_bool_iff in Ej. apply Qeq_bool_neq in Ei. exfalso. apply Ei.
    now rewrite Ej.
Qed.

Lemma is_integer_nat2Q (n : nat) : is_integer (nat2Q n) = true.
Proof. apply is_integer_iff. now exists (Z.of_nat n). Qed.

(** A fractional [ma_long] above 14 is the start index, and no run gets
    past it. *)
Lemma fractional_long_period_throws (rnd : Q) (strategy : Strategy)
    (marketData : option (list MarketData)) :
  random_draw rnd ->
  is_integer (ma_long (parameters strategy)) = false ->
  14 < ma_long (parameters strategy) ->
  exists e, backtest rnd strategy marketData = Throw e /\
            (forall bars, marketData = Some bars ->
               ma_long (parameters strategy) <= nat2Q (length (valid_bars bars)) ->
               e = TypeError).
Proof.
  intros Hr Hfrac H14.
  assert (Hstart : start_index strategy == ma_long (parameters strategy)).
  { unfold start_index. apply Q.max_l. lra. }
  assert (Hfs : is_integer (start_index strategy) = false)
    by (rewrite (is_integer_eq _ _ Hstart); exact Hfrac).
  destruct marketData as [[|b bars]|].
  - exists EmptyMarketData. split; [reflexivity|].
    intros bars E Hge. inversion E; subst bars.
    change (nat2Q (length (valid_bars []))) with 0 in Hge. lra.
  - destruct (Qlt_le_dec (nat2Q (length (valid_bars (b :: bars))))
                         (ma_long (parameters strategy))) as [Hlt|Hge].
    + exists InsufficientData. split.
      * unfold backtest, backtest_run. cbv zeta.
        now rewrite (proj2 (Qltb_lt _ _) Hlt).
      * intros bars' E Hge. inversion E; subst bars'. lra.
    + exists TypeError. split; [|reflexivity].
      apply backtest_fractional_start_throws; [exact Hr | exact Hfs |].
      rewrite Hstart. apply Qle_lteq in Hge. destruct Hge as [Hlt|Heq]; [exact Hlt|].
      rewrite (is_integer_eq _ _ Heq), is_integer_nat2Q in Hfrac. discriminate Hfrac.
  - exists EmptyMarketData. split; [reflexivity|]. intros bars E. discriminate E.
Qed.

(** X27. A strategy with a fractional [ma_long] above 14 is never
    backtested: [backtest] throws on every input, and where the valid
    bars are not fewer than [ma_long] the failure is the read of [close]
    on [undefined]. *)
Theorem fractional_ma_long_never_returns :
  forall (rnd : Q) (strategy : Strategy) (marketData : option (list MarketData)),
    random_draw rnd ->
    is_integer (ma_long (parameters strategy)) = false ->
    14 < ma_long (parameters strategy) ->
    exists e, backtest rnd strategy marketData = Throw e /\
              (forall bars, marketData = Some bars ->
                 ma_long (parameters strategy) <= nat2Q (length (valid_bars bars)) ->
                 e = TypeError).
Proof.
  intros rnd strategy marketData. apply fractional_long_period_throws.
Qed.

Lemma fractional_ma_long_never_returns_witness :
  exists e, backtest (1 # 2) (strategy_of 3 (29 # 2) 30 (15 # 100))
              (Some rise_fall_bars) = Throw e.
Proof.
  destruct (fractional_ma_long_never_returns (1 # 2)
              (strategy_of 3 (29 # 2) 30 (15 # 100)) (Some rise_fall_bars))
    as (e & He & _).
  - split; [discriminate | reflexivity].
  - reflexivity.
  - reflexivity.
  - exists e. exact He.
Defined.

(** X28. A variant drawn by [generateVariants] whose [ma_long] is not an
    integer cannot be backtested: [backtest] throws on every input. *)
Theorem fractional_variant_never_backtests :
  forall (rand : nat -> Q) (clock : nat -> Z) (baseStrategy : Strategy) (N : nat)
         (v : Strategy) (rnd : Q) (marketData : option (list MarketData)),
    random_draw rnd ->
    In v (generateVariants rand clock baseStrategy N) ->
    is_integer (ma_long (parameters v)) = false ->
    exists e, backtest rnd v marketData = Throw e.
Proof.
  intros rand clock baseStrategy N v rnd marketData Hr Hv Hfrac.
  destruct (generateVariants_In _ _ _ _ _ Hv) as (j & _ & Ej).
  pose proof (make_variant_ok baseStrategy (clock j) j rand (4 * j)) as Hok.
  rewrite <- Ej in Hok. destruct Hok as (_ & _ & _ & _ & Hml & _).
  destruct (fractional_long_period_throws rnd v marketData Hr Hfrac) as (e & He & _).
  - lra.
  - exists e. exact He.
Qed.

Lemma fractional_variant_never_backtests_witness :
  exists e, backtest 0 sample_variant (Some (flat_bars 60)) = Throw e.
Proof.
  apply (fractional_variant_never_backtests (fun _ => 21 # 40) (fun _ => 0%Z)
           default_base 1 sample_variant 0 (Some (flat_bars 60))).
  - split; [discriminate | reflexivity].
  - left. reflexivity.
  - reflexivity.
Defined.

(* ------------------------------------------------------------------ *)
(** ** Backtest: the returned log *)

Lemma count_pairs_half (log : list Trade) :
  alternates log -> fst (count_pairs log) = (length log / 2)%nat.
Proof.
  intros Halt. unfold count_pairs. rewrite (count_pairs_prefix log Halt) by lia.
  rewrite <- Nat.div2_div. destruct log as [|t log]; [reflexivity|].
  cbn [length]. now rewrite Nat.sub_1_r.
Qed.

Lemma run_trades_two (rnd : Q) (strategy : Strategy)
    (marketData : list MarketData) (r : Run) :
  backtest_run rnd strategy (Some marketData) = Ok r ->
  (2 <= length (run_trades r))%nat.
Proof.
  intros Hrun. destruct (run_forced r) eqn:Hforced.
  - destruct (forced_run_inv _ _ _ _ Hrun Hforced) as (st & Hf & _).
    destruct (forced_trades_inv _ _ _ _ _ Hf) as (a & b & _ & _ & _ & -> & _).
    cbn [length]. lia.
  - now destruct (signal_run_inv _ _ _ _ Hrun Hforced) as (_ & _ & Htwo).
Qed.

(** X29. In exact arithmetic, with a position size in (0, 1], the trade
    log of every run that returns has at least two trades and alternates
    BUY, SELL from a BUY, and the metrics report half its length, rounded
    down, as [num_trades] (a BUY quantity that underflows to 0 on doubles
    is outside the statement). *)
Theorem returned_log_alternates :
  forall (rnd : Q) (strategy : Strategy) (marketData : list MarketData) (r : Run),
    0 < position_size (parameters strategy) <= 1 ->
    backtest_run rnd strategy (Some marketData) = Ok r ->
    alternates (run_trades r) /\
    (2 <= length (run_trades r))%nat /\
    exists m, backtest rnd strategy (Some marketData) = Ok m /\
              num_trades m = (length (run_trades r) / 2)%nat.
Proof.
  intros rnd strategy marketData r Hps Hrun.
  pose proof (run_trades_alternate rnd strategy marketData r Hps Hrun) as Halt.
  split; [exact Halt|]. split; [eapply run_trades_two; exact Hrun|].
  eexists. split; [apply (backtest_of_run _ _ _ _ Hrun)|].
  rewrite num_trades_count_pairs. now apply count_pairs_half.
Qed.

Lemma returned_log_alternates_witness :
  exists r, backtest_run (1 # 2) (strategy_of 3 14 30 (15 # 100)) (Some rise_fall_bars) = Ok r /\
            alternates (run_trades r).
Proof.
  destruct (backtest_run (1 # 2) (strategy_of 3 14 30 (15 # 100)) (Some rise_fall_bars))
    as [r|e] eqn:E; [|vm_compute in E; discriminate E].
  exists r. split; [reflexivity|].
  apply (returned_log_alternates (1 # 2) (strategy_of 3 14 30 (15 # 100))
           rise_fall_bars r).
  - split; [reflexivity | discriminate].
  - exact E.
Defined.

(* ------------------------------------------------------------------ *)
(** ** Backtest on generated data *)

Lemma generateSampleData_valid (rand : nat -> Q) (now : Z) (days : nat) :
  length (valid_bars (generateSampleData rand now days)) = days.
Proof.
  destruct (generateSampleData_ok rand now days) as (Hlen & Hbars & _ & Hdate).
  cbn [gen_data] in *.
  assert (E : valid_bars (generateSampleData rand now days)
              = generateSampleData rand now days).
  { apply filter_all. apply Forall_forall. intros b Hin.
    apply sample_bar_valid.
    - rewrite Forall_forall in Hbars. now apply Hbars.
    - destruct (In_nth_error _ _ Hin) as [j Hj]. eexists. exact (Hdate j b Hj). }
  now rewrite E.
Qed.

(** X30. In exact arithmetic, on the bars of [generateSampleData],
    whatever the draws, a strategy with an integer [ma_long] between 1
    and the number of days and a position size in (0, 1] is backtested
    without an error and reports at least one completed trade (a BUY
    quantity that underflows to 0 on doubles is outside the statement);
    with more than [days] as [ma_long] and at least one day the
    insufficient-data error is thrown. *)
Theorem backtest_on_sample_data :
  forall (rand : nat -> Q) (now : Z) (days : nat) (rnd : Q) (strategy : Strategy),
    random_draw rnd ->
    is_integer (ma_long (parameters strategy)) = true ->
    1 <= ma_long (parameters strategy) ->
    0 < position_size (parameters strategy) <= 1 ->
    let bars := generateSampleData rand now days in
    (ma_long (parameters strategy) <= nat2Q days ->
     exists m, backtest rnd strategy (Some bars) = Ok m /\ (1 <= num_trades m)%nat) /\
    ((1 <= days)%nat -> nat2Q days < ma_long (parameters strategy) ->
     backtest rnd strategy (Some bars) = Throw InsufficientData).
Proof.
  intros rand now days rnd strategy Hr Hint Hpos Hps bars.
  pose proof (generateSampleData_valid rand now days) as Hvalid. fold bars in Hvalid.
  split.
  - intros Hge.
    assert (Hn : (1 <= length (valid_bars bars))%nat).
    { rewrite Hvalid. apply nat2Q_le. change (nat2Q 1) with 1. lra. }
    destruct (backtest_run_returns rnd strategy bars Hr Hint Hn) as [r Hrun];
      [now rewrite Hvalid|].
    eexists. split; [apply (backtest_of_run _ _ _ _ Hrun)|].
    rewrite num_trades_count_pairs.
    apply count_pairs_alternates.
    + exact (run_trades_alternate rnd strategy bars r Hps Hrun).
    + eapply run_trades_two; exact Hrun.
  - intros Hdays Hlt.
    assert (Hne : bars <> []).
    { intros E. rewrite E in Hvalid. cbn in Hvalid. lia. }
    destruct bars as [|b rest] eqn:Eb; [congruence|].
    unfold backtest, backtest_run. cbv zeta.
    rewrite Hvalid. now rewrite (proj2 (Qltb_lt _ _) Hlt).
Qed.

Lemma backtest_on_sample_data_witness :
  exists m, backtest (1 # 2) (strategy_of 3 14 30 (15 # 100))
              (Some (generateSampleData (fun _ => 1 # 2) 0 20)) = Ok m /\
            (1 <= num_trades m)%nat.
Proof.
  destruct (backtest_on_sample_data (fun _ => 1 # 2) 0 20 (1 # 2)
              (strategy_of 3 14 30 (15 # 100))) as [H _].
  - split; [discriminate | reflexivity].
  - reflexivity.
  - discriminate.
  - split; [reflexivity | discriminate].
  - apply H. discriminate.
Defined.
